(** * Video2Text: the transcription pipeline, embedded and verified

    The development follows the Python sources file by file:
    [modules/utils.py], [modules/transcriber.py],
    [modules/pdf_generator.py], [app.py] and [video_to_text.py].

    Conventions of the embedding.
    - A Python [float] is the rational number it denotes ([Q]); float
      arithmetic is taken exact.  [int(x)] is truncation towards zero.
    - A Python [int] is a [Z]; [len] and loop indices are [nat].
    - [str] is [string]; f-strings are concatenations ([+:+]) of the
      decimal renderings ([pretty]) of their fields.
    - A [dict] with string keys is a [gmap string _].
    - Everything outside the interpreter (ffmpeg, ffprobe, Whisper, the
      file system, Ollama) is a field of the record [World]: the code is
      verified for every behaviour of these collaborators.
    - A function that can raise returns a [result]; a loop body that
      mutates the caller's lists and dicts before raising returns the
      mutated state together with the exception.
    - Left out: the widgets of the Streamlit pages of [app.py], console
      output, the creation of directories, and the geometry of the PDF.
      The clock readings of a job record are left out of the ledger of
      the pipeline and kept in the job files ([JobFiles]). *)

From Stdlib Require Import ZArith QArith Qround Lia Lqa Ascii String Sorted.
From stdpp Require Import gmap strings pretty list.

Close Scope Q_scope.
Open Scope Z_scope.
Set Warnings "-abstract-large-number".

(** ** Python values and exceptions *)

Inductive exn_kind :=
  | FileNotFoundError
  | CalledProcessError
  | ZeroDivisionError
  | OverflowError
  | ValueError
  | KeyError
  | RuntimeError.

(** An exception object: its class and [str(e)]. *)
Record exn := Exn { exn_class : exn_kind; exn_str : string }.

Inductive result (A : Type) :=
  | Ok (a : A)
  | Raise (e : exn).
Arguments Ok {A} a.
Arguments Raise {A} e.

#[global] Instance result_ret : MRet result := λ A a, Ok a.
#[global] Instance result_bind : MBind result := λ A B k r,
  match r with
  | Ok a => k a
  | Raise e => Raise e
  end.

(** Code that mutates local state of type [St] and may raise: the state
    reached is kept when an exception leaves the code. *)
Definition M (St A : Type) : Type := St → St * result A.

#[global] Instance M_ret {St} : MRet (M St) := λ A a st, (st, Ok a).
#[global] Instance M_bind {St} : MBind (M St) := λ A B k m st,
  match m st with
  | (st', Ok a) => k a st'
  | (st', Raise e) => (st', Raise e)
  end.

(** A pure computation that may raise, inside stateful code. *)
Definition lift {St A} (r : result A) : M St A := λ st, (st, r).

(** The current state. *)
Definition get {St} : M St St := λ st, (st, Ok st).

(** A state update. *)
Definition modify {St} (f : St → St) : M St unit := λ st, (f st, Ok ()).

(** [try: body except Exception as e: handler(e)] *)
Definition try_except {St A} (body : M St A) (handler : exn → M St A) : M St A :=
  λ st, match body st with
        | (st', Raise e) => handler e st'
        | r => r
        end.

(** [for i, x in enumerate(l, start): body(i, x)] *)
Fixpoint for_each {St A} (body : nat → A → M St unit) (start : nat) (l : list A)
    : M St unit :=
  match l with
  | [] => mret ()
  | x :: l' => _ ← body start x; for_each body (S start) l'
  end.

(** [subprocess.run(..., check=True)]: the tool either exits with status 0
    ([None]) or a [CalledProcessError] is raised. *)
Definition run_checked (outcome : option exn) : result unit :=
  match outcome with
  | None => Ok ()
  | Some e => Raise e
  end.

(** [int(x)] for a float [x]: the fractional part is dropped. *)
Definition py_int (x : Q) : Z := Z.quot (Qnum x) (Zpos (Qden x)).

(** [a % b] on ints: the result has the sign of [b]; [b = 0] raises. *)
Definition py_mod (a b : Z) : result Z :=
  if decide (b = 0) then Raise (Exn ZeroDivisionError "integer modulo by zero")
  else Ok (a `mod` b).

(** [divmod(a, b)] for [b ≠ 0]. *)
Definition divmod (a b : Z) : Z * Z := (a `div` b, a `mod` b).

Fixpoint zeros (n : nat) : string :=
  match n with
  | O => EmptyString
  | S n' => String "0"%char (zeros n')
  end.

(** ["%0wd" % z] and [f"{z:0wd}"]: the sign, then zeros up to width [w]. *)
Definition format_d (w : nat) (z : Z) : string :=
  if decide (z < 0)
  then let digits := pretty (- z) in
       "-" +:+ zeros (w - 1 - String.length digits) +:+ digits
  else let digits := pretty z in
       zeros (w - String.length digits) +:+ digits.

(** The line feed, and the test [needle in hay] on strings. *)
Definition nl : string := String "010"%char EmptyString.

Fixpoint contains (needle hay : string) : bool :=
  String.prefix needle hay ||
  match hay with
  | EmptyString => false
  | String _ hay' => contains needle hay'
  end.

(** [os.path.join] of a directory and a relative file name. *)
Definition path_join (dir name : string) : string := dir +:+ "/" +:+ name.

(** [os.path.basename]: what follows the last slash. *)
Fixpoint basename_go (s cur : string) : string :=
  match s with
  | EmptyString => cur
  | String c s' =>
      if decide (c = "/"%char) then basename_go s' EmptyString
      else basename_go s' (cur +:+ String c EmptyString)
  end.
Definition basename (p : string) : string := basename_go p EmptyString.

(** [str.strip()]: leading and trailing white space is removed.  On the
    ASCII range Python's white space is 9-13, 28-31 and 32. *)
Definition is_space (c : ascii) : bool :=
  let n := nat_of_ascii c in
  ((9 <=? n)%nat && (n <=? 13)%nat) || ((28 <=? n)%nat && (n <=? 32)%nat).

Fixpoint lstrip (s : string) : string :=
  match s with
  | EmptyString => EmptyString
  | String c s' => if is_space c then lstrip s' else s
  end.

Definition rstrip (s : string) : string :=
  String.rev (lstrip (String.rev s)).

Definition strip (s : string) : string := rstrip (lstrip s).

(** [s.endswith(suffix)] *)
Definition endswith (s suffix : string) : bool :=
  String.prefix (String.rev suffix) (String.rev s).

(** [s.replace(old, new)]: the occurrences of [old] are replaced from the
    left, without overlap; [skip] counts the characters of an occurrence
    that are still to be passed over.  An empty [old] puts [new] before
    every character and at the end. *)
Fixpoint replace_from (old new : string) (skip : nat) (s : string) : string :=
  match s with
  | EmptyString => if decide (old = EmptyString) then new else EmptyString
  | String c s' =>
      match skip with
      | S k => replace_from old new k s'
      | O =>
          if decide (old = EmptyString)
          then new +:+ String c (replace_from old new 0 s')
          else if String.prefix old s
          then new +:+ replace_from old new (String.length old - 1) s'
          else String c (replace_from old new 0 s')
      end
  end.

Definition replace (s old new : string) : string := replace_from old new 0 s.

(** ** The standard library's [datetime.timedelta] *)

Module datetime.

(** A normalised duration without a sub-second part:
    [0 <= seconds < 86400]. *)
Record timedelta := { days : Z; seconds : Z }.

(** [timedelta(seconds=s)]: days are carried out of the seconds and
    bounded in magnitude by 999999999. *)
Definition of_seconds (s : Z) : result timedelta :=
  let '(d, s') := divmod s 86400 in
  if decide (Z.abs d > 999999999)
  then Raise (Exn OverflowError
                ("days=" +:+ pretty d +:+ "; must have magnitude <= 999999999"))
  else Ok {| days := d; seconds := s' |}.

(** [timedelta.__str__]: ["%d:%02d:%02d"] of the seconds, preceded by
    the day count when it is not zero. *)
Definition str (td : timedelta) : string :=
  let '(mm, ss) := divmod (seconds td) 60 in
  let '(hh, mm) := divmod mm 60 in
  let s := pretty hh +:+ ":" +:+ format_d 2 mm +:+ ":" +:+ format_d 2 ss in
  if decide (days td = 0) then s
  else pretty (days td) +:+ " day"
       +:+ (if decide (Z.abs (days td) = 1) then EmptyString else "s") +:+ ", " +:+ s.

End datetime.

(** ** The collaborators *)

(** One element of Whisper's ["segments"]: a dict read with
    [.get('start', 0)] and [.get('text', '')]. *)
Record Segment := { seg_start : option Q; seg_text : option string }.

(** What the world answers to one frame grab: whether the video is still
    there, how ffmpeg exits, and what it leaves at the output path. *)
Record frame_grab := {
  grab_video_exists : bool;     (* os.path.exists(video_path) *)
  grab_run : option exn;        (* None: exit status 0 *)
  grab_file_exists : bool;      (* os.path.exists(output_path) *)
  grab_file_size : N            (* os.path.getsize(output_path) *)
}.

(** What [ollama.generate] does for one prompt. *)
Inductive ollama_outcome :=
  | OllamaRaises (e : exn)       (* unreachable service, unknown model *)
  | OllamaNoResponseKey          (* a reply without the key ['response'] *)
  | OllamaResponse (s : string).

(** A job record, the dict that [app.py] keeps in [jobs/<job_id>.json];
    a key that is absent is [None].  The clock readings ([created_at],
    [updated_at], [completed_at]) are left out. *)
Record JobStatus := {
  filename : option string;
  status : option string;
  progress : option Q;
  error : option string;
  txt_path : option string;
  pdf_path : option string;
  num_screenshots : option nat;
  num_segments : option nat
}.

Definition empty_job : JobStatus :=
  {| filename := None; status := None; progress := None; error := None;
     txt_path := None; pdf_path := None;
     num_screenshots := None; num_segments := None |}.

(** The [jobs] directory, and (as a ghost field) every record written to
    it, in the order of the writes. *)
Record disk := {
  job_files : gmap string JobStatus;
  saves : list (string * JobStatus)
}.

(** The calls the pipeline makes to its collaborators, in order. *)
Inductive call :=
  | CallTranscribe (audio_chunk model_size : string)
  | CallExtractScreenshot (video_path output_path timestamp : string).

#[global] Instance call_eq_dec : EqDecision call.
Proof. solve_decision. Defined.

Record World := {
  video_exists : bool;                (* at the time audio is extracted *)
  extract_run : option exn;           (* ffmpeg: demux the audio track *)
  mp3_exists : bool;
  convert_run : option exn;           (* ffmpeg: resample to WAV *)
  wav_exists : bool;
  probe_run : result Q;               (* ffprobe and the parse of its JSON *)
  carve_run : nat → option exn;       (* ffmpeg: chunk number i *)
  whisper_run : nat → result (string * list Segment);   (* chunk number i *)
  shot_run : nat → nat → frame_grab;        (* chunk i, segment j *)
  copy_run : string → option exn;     (* shutil.copy2 of one screenshot *)
  temp_dir : string;                  (* tempfile.TemporaryDirectory() *)
  cwd : string;                       (* os.getcwd() *)
  text_write_ok : bool;               (* the transcript file can be written *)
  pdf_write_ok : bool;                (* pdf.output succeeds *)
  pdf_text_run : result string;       (* extract_text_from_pdf *)
  ollama_models_run : result (list string);   (* ollama.list(), detection *)
  ollama_ping_run : option exn;       (* ollama.list(), connection test *)
  ollama_generate_run : option string → string → ollama_outcome
                                      (* ollama.generate(model, prompt) *)
}.

(** ** Expressions that both pipelines contain *)

(** [int(segment_start) % timestamp_interval < 5] *)
Definition within_capture_window (segment_start : Q) (timestamp_interval : Z)
    : result bool :=
  r ← py_mod (py_int segment_start) timestamp_interval;
  Ok (bool_decide (r < 5)).

(** [f"screenshot_{int(segment_start):06d}.jpg"] under [screenshots_dir] *)
Definition screenshot_file (screenshots_dir : string) (segment_start : Q)
    : string :=
  path_join screenshots_dir
    ("screenshot_" +:+ format_d 6 (py_int segment_start) +:+ ".jpg").

(** [f"[{timestamp}] {text}\n\n"] *)
Definition entry (timestamp text : string) : string :=
  "[" +:+ timestamp +:+ "] " +:+ text +:+ nl +:+ nl.

(** ** modules/utils.py *)

Module Utils.

(** [format_timestamp(seconds)] *)
Definition format_timestamp (seconds : Q) : result string :=
  td ← datetime.of_seconds (py_int seconds);
  Ok (datetime.str td).

(** [extract_screenshot(video_path, output_path, timestamp)] *)
Definition extract_screenshot (g : frame_grab)
    (video_path output_path timestamp : string) : result bool :=
  if negb (grab_video_exists g)
  then Raise (Exn FileNotFoundError ("Video file not found: " +:+ video_path))
  else
    match grab_run g with
    | Some e => Ok false
    | None =>
        if negb (grab_file_exists g) || bool_decide (grab_file_size g = 0%N)
        then Ok false
        else Ok true
    end.

Section with_world.
Variable w : World.

(** [extract_audio_from_video(video_path, audio_path)] *)
Definition extract_audio_from_video (video_path audio_path : string)
    : result unit :=
  if negb (video_exists w)
  then Raise (Exn FileNotFoundError ("Video file not found: " +:+ video_path))
  else run_checked (extract_run w).

(** [convert_audio_to_wav(mp3_path, wav_path)] *)
Definition convert_audio_to_wav (mp3_path wav_path : string) : result unit :=
  if negb (mp3_exists w)
  then Raise (Exn FileNotFoundError ("Audio file not found: " +:+ mp3_path))
  else run_checked (convert_run w).

(** The loop of [split_audio_into_chunks] over [range(num_chunks)]. *)
Fixpoint carve_chunks (chunk_dir : string) (chunk_duration : Z)
    (indices : list nat) (chunk_files : list string) (timestamps : list Z)
    : result (list string * list Z) :=
  match indices with
  | [] => Ok (chunk_files, timestamps)
  | i :: rest =>
      let chunk_path :=
        path_join chunk_dir ("chunk_" +:+ format_d 3 (Z.of_nat i) +:+ ".wav") in
      let start_time := Z.of_nat i * chunk_duration in
      _ ← run_checked (carve_run w i);
      carve_chunks chunk_dir chunk_duration rest
        (chunk_files ++ [chunk_path]) (timestamps ++ [start_time])
  end.

(** [split_audio_into_chunks(audio_path, chunk_dir, chunk_duration)] *)
Definition split_audio_into_chunks (audio_path chunk_dir : string)
    (chunk_duration : Z) : result (list string * list Z * Z) :=
  if negb (wav_exists w)
  then Raise (Exn FileNotFoundError ("Audio file not found: " +:+ audio_path))
  else
    duration ← probe_run w;
    if decide (chunk_duration = 0)
    then Raise (Exn ZeroDivisionError "float division by zero")
    else
      let num_chunks := py_int (duration / inject_Z chunk_duration)%Q + 1 in
      '(chunk_files, timestamps) ←
        carve_chunks chunk_dir chunk_duration
          (seq 0 (Z.to_nat num_chunks)) [] [];
      Ok (chunk_files, timestamps, num_chunks).

End with_world.

(** [save_job_status(job_id, status_data)] *)
Definition save_job_status (job_id : string) (status_data : JobStatus)
    (d : disk) : disk :=
  {| job_files := <[job_id := status_data]> (job_files d);
     saves := saves d ++ [(job_id, status_data)] |}.

(** [load_job_status(job_id)] *)
Definition load_job_status (job_id : string) (d : disk) : option JobStatus :=
  job_files d !! job_id.

End Utils.

(** ** modules/utils.py: the job files

    The ledger above keeps one record per job identifier.  Here are the
    same functions, and [list_jobs] and [delete_job], on the files
    themselves: the names in the directory [jobs], what reading a file
    gives, and the clock readings in a record.  A job identifier is taken
    to be a file name component (it has no slash), as [generate_job_id]
    draws it; the creation of directories is left out, and the removal
    of a file or directory that exists is taken to succeed. *)

Module JobFiles.

(** The dict of a job file: the record of the job, and the keys
    [job_id], [settings] and the clock readings, which the ledger above
    leaves out.  These are the keys that [app.py] writes. *)
Record JobData := {
  fields : JobStatus;
  own_id : option string;                 (* 'job_id' *)
  settings : option (Z * Z * string);     (* chunk_duration,
                                             timestamp_interval,
                                             whisper_model *)
  created_at : option string;
  updated_at : option string;
  completed_at : option string
}.

(** A key that the dict does not hold. *)
Definition absent {A} (o : option A) : bool :=
  match o with
  | None => true
  | Some _ => false
  end.

(** [not job_data]: the dict holds no key. *)
Definition is_empty (data : JobData) : bool :=
  absent (filename (fields data)) && absent (status (fields data))
  && absent (progress (fields data)) && absent (error (fields data))
  && absent (txt_path (fields data)) && absent (pdf_path (fields data))
  && absent (num_screenshots (fields data)) && absent (num_segments (fields data))
  && absent (own_id data) && absent (settings data)
  && absent (created_at data) && absent (updated_at data)
  && absent (completed_at data).

(** [{"status": "Error", "error": msg}] *)
Definition error_data (msg : string) : JobData :=
  {| fields :=
       {| filename := None; status := Some "Error"; progress := None;
          error := Some msg; txt_path := None; pdf_path := None;
          num_screenshots := None; num_segments := None |};
     own_id := None; settings := None;
     created_at := None; updated_at := None; completed_at := None |}.

(** What reading a file of the jobs directory gives: a JSON object, text
    that [json.load] rejects, or another error. *)
Inductive content :=
  | Json (data : JobData)
  | NotJson
  | Unreadable (msg : string).

(** The parts of the file system that the job functions touch: the files
    of [jobs/] by name, and the job identifiers that have a directory
    under [output/] and under [temp_processing/]. *)
Record fs := {
  jobs : gmap string content;
  output : gset string;
  temp_processing : gset string
}.

(** What [open(job_file, 'w')] and [json.dump] do: the file is written,
    or it cannot be opened, or the write stops after the file was
    truncated, which leaves text that is not JSON. *)
Inductive write_outcome := Written | NotOpened | Interrupted.

(** [save_job_status(job_id, status_data)]: an exception is printed and
    dropped. *)
Definition save_job_status (o : write_outcome) (job_id : string)
    (status_data : JobData) (d : fs) : fs :=
  let job_file := job_id +:+ ".json" in
  match o with
  | Written =>
      {| jobs := <[job_file := Json status_data]> (jobs d);
         output := output d; temp_processing := temp_processing d |}
  | NotOpened => d
  | Interrupted =>
      {| jobs := <[job_file := NotJson]> (jobs d);
         output := output d; temp_processing := temp_processing d |}
  end.

(** [load_job_status(job_id)] *)
Definition load_job_status (job_id : string) (d : fs) : option JobData :=
  match jobs d !! (job_id +:+ ".json") with
  | Some (Json data) => Some data
  | Some NotJson => Some (error_data "Invalid job file format")
  | Some (Unreadable msg) => Some (error_data msg)
  | None => None
  end.

(** An element of the list that [list_jobs] returns. *)
Record JobSummary := {
  sum_job_id : string;
  sum_filename : string;
  sum_status : string;
  sum_created_at : string;
  sum_completed_at : string
}.

(** The body of the loop of [list_jobs], for one name of the listing. *)
Definition listed (d : fs) (file : string) : option JobSummary :=
  if endswith file ".json"
  then
    let job_id := replace file ".json" EmptyString in
    match load_job_status job_id d with
    | Some job_data =>
        if is_empty job_data then None
        else Some {| sum_job_id := job_id;
                     sum_filename := default "Unknown" (filename (fields job_data));
                     sum_status := default "Unknown" (status (fields job_data));
                     sum_created_at := default "Unknown" (created_at job_data);
                     sum_completed_at :=
                       default EmptyString (completed_at job_data) |}
    | None => None
    end
  else None.

(** [sorted(jobs, key=lambda x: x.get('created_at', ''), reverse=True)]:
    Python's sort is stable, also when reversed, so that it is the
    insertion of each element before the first one that is not newer. *)
Fixpoint insert_newest_first (x : JobSummary) (l : list JobSummary)
    : list JobSummary :=
  match l with
  | [] => [x]
  | y :: l' =>
      if String.ltb (sum_created_at x) (sum_created_at y)
      then y :: insert_newest_first x l'
      else x :: l
  end.

Fixpoint sorted_newest_first (l : list JobSummary) : list JobSummary :=
  match l with
  | [] => []
  | x :: l' => insert_newest_first x (sorted_newest_first l')
  end.

(** [list_jobs()], for the order [listdir] in which [os.listdir] gives
    the names of a directory. *)
Definition list_jobs (listdir : gmap string content → list string) (d : fs)
    : list JobSummary :=
  sorted_newest_first (omap (listed d) (listdir (jobs d))).

(** [delete_job(job_id)] *)
Definition delete_job (job_id : string) (d : fs) : fs * bool :=
  ({| jobs := delete (job_id +:+ ".json") (jobs d);
      output := output d ∖ {[job_id]};
      temp_processing := temp_processing d ∖ {[job_id]} |}, true).

End JobFiles.

(** ** modules/transcriber.py *)

Module Transcriber.

(** The local variables of [process_video] that its loops mutate, the
    state [S] that the progress callback acts on, and the calls made. *)
Record locals (S : Type) := {
  cb_state : S;
  calls : list call;
  timestamped_chunks : list (string * string);
  screenshots : gmap string string
}.
Arguments cb_state {S}.
Arguments calls {S}.
Arguments timestamped_chunks {S}.
Arguments screenshots {S}.

Definition initial {S} (s : S) : locals S :=
  {| cb_state := s; calls := []; timestamped_chunks := []; screenshots := ∅ |}.

Definition on_cb_state {S} (f : S → S) (st : locals S) : locals S :=
  {| cb_state := f (cb_state st); calls := calls st;
     timestamped_chunks := timestamped_chunks st;
     screenshots := screenshots st |}.

Definition log_call {S} (c : call) (st : locals S) : locals S :=
  {| cb_state := cb_state st; calls := calls st ++ [c];
     timestamped_chunks := timestamped_chunks st;
     screenshots := screenshots st |}.

(** [timestamped_chunks.append(entry)] *)
Definition append_chunk {S} (entry : string * string) (st : locals S) : locals S :=
  {| cb_state := cb_state st; calls := calls st;
     timestamped_chunks := timestamped_chunks st ++ [entry];
     screenshots := screenshots st |}.

(** [screenshots[timestamp] = screenshot_path] *)
Definition set_screenshot {S} (timestamp screenshot_path : string)
    (st : locals S) : locals S :=
  {| cb_state := cb_state st; calls := calls st;
     timestamped_chunks := timestamped_chunks st;
     screenshots := <[timestamp := screenshot_path]> (screenshots st) |}.

Section process_video.
Context {S : Type}.
Variable w : World.
Variable progress_callback : option (string → string → Q → S → S).
Variables job_id video_path whisper_model : string.
Variables chunk_duration timestamp_interval : Z.

(** [if progress_callback: progress_callback(job_id, text, progress)] *)
Definition notify (text : string) (p : Q) : M (locals S) unit :=
  match progress_callback with
  | Some cb => modify (on_cb_state (cb job_id text p))
  | None => mret ()
  end.

(** [transcribe_audio_chunk_with_whisper(audio_chunk, model_size)], for
    the chunk number [i]: an exception of the model is re-raised. *)
Definition transcribe_audio_chunk_with_whisper (i : nat)
    (audio_chunk model_size : string) : M (locals S) (string * list Segment) :=
  _ ← modify (log_call (CallTranscribe audio_chunk model_size));
  lift (whisper_run w i).

(** The body of [for segment in segments], for segment [j] of chunk [i]. *)
Definition process_segment (screenshots_dir : string) (start_time : Z)
    (i j : nat) (segment : Segment) : M (locals S) unit :=
  let segment_start :=
    (default 0 (seg_start segment) + inject_Z start_time)%Q in
  let segment_text := strip (default EmptyString (seg_text segment)) in
  if decide (segment_text = EmptyString) then mret ()
  else
    timestamp ← lift (Utils.format_timestamp segment_start);
    due ← lift (within_capture_window segment_start timestamp_interval);
    _ ← (if due : bool then
           let screenshot_path := screenshot_file screenshots_dir segment_start in
           _ ← modify (log_call
                 (CallExtractScreenshot video_path screenshot_path timestamp));
           captured ← lift (Utils.extract_screenshot (shot_run w i j)
                              video_path screenshot_path timestamp);
           if captured : bool
           then modify (set_screenshot timestamp screenshot_path)
           else mret ()
         else mret ());
    modify (append_chunk (timestamp, segment_text)).

(** The body of [for i, (chunk, start_time) in enumerate(zip(...))]. *)
Definition process_chunk (screenshots_dir : string) (num_audio_chunks : nat)
    (progress_per_chunk : Q) (i : nat) (cs : string * Z) : M (locals S) unit :=
  let '(chunk, start_time) := cs in
  let current_progress := (25 + inject_Z (Z.of_nat i) * progress_per_chunk)%Q in
  _ ← notify ("Transcribing chunk " +:+ pretty (i + 1)%nat +:+ "/"
              +:+ pretty num_audio_chunks +:+ "...") current_progress;
  try_except
    ('(_, segments) ← transcribe_audio_chunk_with_whisper i chunk whisper_model;
     _ ← for_each (process_segment screenshots_dir start_time i) 0 segments;
     notify ("Transcribed chunk " +:+ pretty (i + 1)%nat +:+ "/"
             +:+ pretty num_audio_chunks)
            (current_progress + progress_per_chunk / 2)%Q)
    (λ e, mret ()).

(** The copy of each screenshot to the job's output directory: an
    entry is kept under its time stamp when [shutil.copy2] succeeds. *)
Definition persist (output_dir : string) (shots : gmap string string)
    : gmap string string :=
  omap (λ screenshot_path,
          match copy_run w screenshot_path with
          | None => Some (path_join output_dir (basename screenshot_path))
          | Some e => None
          end) shots.

(** [process_video(job_id, video_path, whisper_model, chunk_duration,
    timestamp_interval, progress_callback)] *)
Definition process_video
    : M (locals S) (list (string * string) * gmap string string) :=
  _ ← notify "Starting video processing..." 0%Q;
  _ ← notify "Created temporary directory" 5%Q;
  let screenshots_dir := path_join (temp_dir w) "screenshots" in
  let audio_path := path_join (temp_dir w) "audio.mp3" in
  _ ← lift (Utils.extract_audio_from_video w video_path audio_path);
  _ ← notify "Extracted audio from video" 10%Q;
  let wav_path := path_join (temp_dir w) "audio.wav" in
  _ ← lift (Utils.convert_audio_to_wav w audio_path wav_path);
  _ ← notify "Converted audio to WAV format" 15%Q;
  let chunk_dir := path_join (temp_dir w) "chunks" in
  '(audio_chunks, start_times, num_chunks) ←
    lift (Utils.split_audio_into_chunks w wav_path chunk_dir chunk_duration);
  _ ← notify ("Split audio into " +:+ pretty num_chunks +:+ " chunks") 20%Q;
  let progress_per_chunk :=
    if decide (0 < length audio_chunks)%nat
    then (70 / inject_Z (Z.of_nat (length audio_chunks)))%Q
    else 0%Q in
  _ ← for_each
        (process_chunk screenshots_dir (length audio_chunks) progress_per_chunk)
        0 (zip audio_chunks start_times);
  _ ← notify "Finished transcription" 90%Q;
  let output_dir := path_join (path_join (cwd w) "output") job_id in
  st ← get;
  let persistent_screenshots := persist output_dir (screenshots st) in
  _ ← notify "Saved screenshots" 95%Q;
  mret (timestamped_chunks st, persistent_screenshots).

End process_video.

End Transcriber.

(** ** modules/pdf_generator.py *)

Module PdfGenerator.

(** The loop of [save_transcript_to_text]: each entry is written after
    what the file [f] holds already. *)
Fixpoint write_entries (timestamped_chunks : list (string * string))
    (f : string) : string :=
  match timestamped_chunks with
  | [] => f
  | (timestamp, text) :: rest => write_entries rest (f +:+ entry timestamp text)
  end.

(** [save_transcript_to_text(timestamped_chunks, output_path)]: the value
    returned and, when the write succeeds, the content of the file. *)
Definition save_transcript_to_text (w : World)
    (timestamped_chunks : list (string * string)) (output_path : string)
    : bool * option string :=
  if text_write_ok w
  then (true, Some (write_entries timestamped_chunks EmptyString))
  else (false, None).

(** [create_pdf_with_screenshots(transcripts, screenshot_paths,
    output_pdf_path)]: the value returned and, per transcript entry, the
    screenshot that [screenshot_paths.get(timestamp)] attaches to it.
    The layout calls of the PDF library are taken not to raise; a failure
    of [pdf.output] is caught and gives [False]. *)
Definition create_pdf_with_screenshots (w : World)
    (transcripts : list (string * string)) (screenshot_paths : gmap string string)
    (output_pdf_path : string) : bool * list (string * option string) :=
  (pdf_write_ok w,
   (λ '(timestamp, transcript), (timestamp, screenshot_paths !! timestamp))
     <$> transcripts).

End PdfGenerator.

(** ** modules/pdf_generator.py: the pages

    [create_pdf_with_screenshots] once more, as the calls that it makes
    on its [FPDF] object.  The text is a sequence of characters below
    256, on which the conversion to Latin-1 and back is the identity;
    [multi_cell] is taken not to raise.  The creation of the directory
    of the output file is kept here: when it fails, [pdf.output] is not
    called. *)

Module PdfPages.

(** The calls on the [FPDF] object, with the arguments that vary. *)
Inductive pdf_call :=
  | set_auto_page_break
  | add_page
  | set_font (style : string) (size : Z)
  | cell (h : Z) (txt : string)
  | ln (h : Z)
  | image (name : string)
  | multi_cell (txt : string)
  | output (name : string).

(** What happens to one screenshot: [Image.open] fails (or the image has
    no width), [pdf.image] fails, or the image is drawn. *)
Inductive image_outcome := OpenFails | DrawFails | Drawn.

(** The collaborators of the renderer. *)
Record Renderer := {
  shot_exists : string → bool;          (* os.path.exists(screenshot_path) *)
  image_run : string → image_outcome;
  get_y : nat → Q;                      (* pdf.get_y() after the entry i *)
  makedirs_ok : bool;                   (* os.makedirs of the directory of
                                           the output path succeeds *)
  output_ok : bool                      (* pdf.output succeeds *)
}.

(** [transcript.replace('\n', ' ').strip()] *)
Definition clean_transcript (transcript : string) : string :=
  strip (replace transcript nl " ").

Section with_renderer.
Variable r : Renderer.
Variable screenshot_paths : gmap string string.

(** The body of the loop over [enumerate(transcripts)]. *)
Definition entry_calls (i : nat) (e : string * string) : list pdf_call :=
  let '(timestamp, transcript) := e in
  [set_font "B" 14; cell 10 ("Time: " +:+ timestamp)]
  ++ match screenshot_paths !! timestamp with
     | Some screenshot_path =>
         if negb (bool_decide (screenshot_path = EmptyString))
            && shot_exists r screenshot_path
         then match image_run r screenshot_path with
              | OpenFails => []
              | DrawFails => [image screenshot_path]
              | Drawn => [image screenshot_path; ln 5]
              end
         else []
     | None => []
     end
  ++ [set_font EmptyString 11; multi_cell (clean_transcript transcript); ln 10]
  ++ (if bool_decide ((Z.of_nat i + 1) `mod` 2 = 0)
         || negb (Qle_bool (get_y r i) 250)
      then [add_page] else []).

(** [create_pdf_with_screenshots(transcripts, screenshot_paths,
    output_pdf_path)]: the calls made and the value returned. *)
Definition create_pdf_with_screenshots (transcripts : list (string * string))
    (output_pdf_path : string) : list pdf_call * bool :=
  ([set_auto_page_break; add_page; set_font EmptyString 12; set_font "B" 16;
    cell 10 "Video Transcript with Visual References"; ln 5]
   ++ concat (imap entry_calls transcripts)
   ++ (if makedirs_ok r then [output output_pdf_path] else []),
   makedirs_ok r && output_ok r).

End with_renderer.

(** The calls that start a page. *)
Definition is_add_page (c : pdf_call) : bool :=
  match c with
  | add_page => true
  | _ => false
  end.

Definition pages_started (calls : list pdf_call) : nat :=
  length (filter (λ c, is_add_page c = true) calls).

End PdfPages.

(** ** app.py *)

Module App.

(** [update_job_progress(job_id, text, progress)] *)
Definition update_job_progress (job_id text : string) (p : Q) (d : disk) : disk :=
  let job_status := default empty_job (Utils.load_job_status job_id d) in
  let job_status :=
    {| filename := filename job_status;
       status := Some text;
       progress := Some p;
       error := error job_status;
       txt_path := txt_path job_status;
       pdf_path := pdf_path job_status;
       num_screenshots := num_screenshots job_status;
       num_segments := num_segments job_status |} in
  Utils.save_job_status job_id job_status d.

(** [create_new_job()], for the uploaded file name and the job
    identifier drawn. *)
Definition create_new_job (job_id : string) (video_file : option string)
    (d : disk) : disk :=
  let job_status :=
    {| filename := Some (default "Unknown" video_file);
       status := Some "Created";
       progress := Some 0%Q;
       error := None; txt_path := None; pdf_path := None;
       num_screenshots := None; num_segments := None |} in
  Utils.save_job_status job_id job_status d.

Section process_video_thread.
Variable w : World.
Variables job_id video_path whisper_model : string.
Variables chunk_duration timestamp_interval : Z.

(** [process_video_thread(job_id, video_path, whisper_model,
    chunk_duration, timestamp_interval)]: the ledger it leaves and the
    calls it made. *)
Definition process_video_thread (d : disk) : disk * list call :=
  let d := update_job_progress job_id "Starting processing..." 0%Q d in
  let '(st, r) :=
    Transcriber.process_video w (Some update_job_progress)
      job_id video_path whisper_model chunk_duration timestamp_interval
      (Transcriber.initial d) in
  let d := Transcriber.cb_state st in
  match r with
  | Ok (timestamped_chunks, screenshots) =>
      let job_dir := path_join "output" job_id in
      let txt := path_join job_dir "transcript.txt" in
      let pdf := path_join job_dir "transcript.pdf" in
      let d := update_job_progress job_id "Saving text transcript..." 95%Q d in
      let _ := PdfGenerator.save_transcript_to_text w timestamped_chunks txt in
      let d :=
        update_job_progress job_id "Creating PDF with screenshots..." 98%Q d in
      let _ :=
        PdfGenerator.create_pdf_with_screenshots w timestamped_chunks
          screenshots pdf in
      let job_status := default empty_job (Utils.load_job_status job_id d) in
      let job_status :=
        {| filename := filename job_status;
           status := Some "Completed";
           progress := Some 100%Q;
           error := error job_status;
           txt_path := Some txt;
           pdf_path := Some pdf;
           num_screenshots := Some (size screenshots);
           num_segments := Some (length timestamped_chunks) |} in
      (Utils.save_job_status job_id job_status d, Transcriber.calls st)
  | Raise e =>
      let job_status := default empty_job (Utils.load_job_status job_id d) in
      let job_status :=
        {| filename := filename job_status;
           status := Some ("Failed: " +:+ exn_str e);
           progress := progress job_status;
           error := Some (exn_str e);
           txt_path := txt_path job_status;
           pdf_path := pdf_path job_status;
           num_screenshots := num_screenshots job_status;
           num_segments := num_segments job_status |} in
      (Utils.save_job_status job_id job_status d, Transcriber.calls st)
  end.

End process_video_thread.

End App.

(** ** app.py: the handlers of the job list *)

Module AppPages.

(** The keys of [st.session_state] that the handlers write. *)
Record Session := {
  show_job : option string;
  jobs : list JobFiles.JobSummary;
  user_feedback : option string
}.

Section handlers.
Variable listdir : gmap string JobFiles.content → list string.

(** [refresh_jobs()] *)
Definition refresh_jobs (s : Session) (d : JobFiles.fs) : Session :=
  {| show_job := show_job s;
     jobs := JobFiles.list_jobs listdir d;
     user_feedback := user_feedback s |}.

(** [delete_job_handler(job_id)] *)
Definition delete_job_handler (job_id : string) (s : Session) (d : JobFiles.fs)
    : Session * JobFiles.fs :=
  let '(d', deleted) := JobFiles.delete_job job_id d in
  if deleted : bool
  then ({| show_job :=
             if decide (show_job s = Some job_id) then None else show_job s;
           jobs := JobFiles.list_jobs listdir d';
           user_feedback := Some ("Job " +:+ job_id +:+ " deleted successfully.") |},
        d')
  else (s, d').

(** [clear_all_jobs()] *)
Definition clear_all_jobs (s : Session) (d : JobFiles.fs)
    : Session * JobFiles.fs :=
  let jobs := JobFiles.list_jobs listdir d in
  let d' :=
    foldl (λ d job, (JobFiles.delete_job (JobFiles.sum_job_id job) d).1) d jobs in
  ({| show_job := None; jobs := [];
      user_feedback := Some "All jobs cleared successfully." |}, d').

End handlers.

(** [f"video_{video_file.name.replace(' ', '_')}"], the name under which
    an upload is stored. *)
Definition safe_filename (name : string) : string :=
  "video_" +:+ replace name " " "_".

End AppPages.

(** ** video_to_text.py *)

Module VideoToText.

(** The command line, as far as the pipeline reads it. *)
Record Args := {
  video_file : string;
  pdf : option string;
  output_pdf : string;
  whisper_model : string;
  ollama_model : option string;
  chunk_duration : Z;
  timestamp_interval : Z;
  skip_ollama : bool;
  skip_pdf : bool
}.

(** The local variables of [main] that its loop mutates, the content
    of the output file written so far, and the calls made. *)
Record locals := {
  calls : list call;
  timestamped_chunks : list (string * string);
  screenshots : gmap string string;
  full_transcription : string;
  out_file : string
}.

Definition initial : locals :=
  {| calls := []; timestamped_chunks := []; screenshots := ∅;
     full_transcription := EmptyString; out_file := EmptyString |}.

Definition log_call (c : call) (st : locals) : locals :=
  {| calls := calls st ++ [c];
     timestamped_chunks := timestamped_chunks st;
     screenshots := screenshots st;
     full_transcription := full_transcription st;
     out_file := out_file st |}.

(** [timestamped_chunks.append(entry)] *)
Definition append_chunk (e : string * string) (st : locals) : locals :=
  {| calls := calls st;
     timestamped_chunks := timestamped_chunks st ++ [e];
     screenshots := screenshots st;
     full_transcription := full_transcription st;
     out_file := out_file st |}.

(** [screenshots[timestamp] = screenshot_path] *)
Definition set_screenshot (timestamp screenshot_path : string)
    (st : locals) : locals :=
  {| calls := calls st;
     timestamped_chunks := timestamped_chunks st;
     screenshots := <[timestamp := screenshot_path]> (screenshots st);
     full_transcription := full_transcription st;
     out_file := out_file st |}.

(** [f.write(entry); full_transcription += entry] *)
Definition write (e : string) (st : locals) : locals :=
  {| calls := calls st;
     timestamped_chunks := timestamped_chunks st;
     screenshots := screenshots st;
     full_transcription := full_transcription st +:+ e;
     out_file := out_file st +:+ e |}.

(** The truth value of an optional string: [None] and the empty string
    are false. *)
Definition truthy (o : option string) : bool :=
  match o with
  | Some s => negb (bool_decide (s = EmptyString))
  | None => false
  end.

(** [format_timestamp(seconds)] *)
Definition format_timestamp (seconds : Q) : result string :=
  td ← datetime.of_seconds (py_int seconds);
  Ok (datetime.str td).

(** [extract_screenshot(video_path, output_path, timestamp)] *)
Definition extract_screenshot (g : frame_grab)
    (video_path output_path timestamp : string) : result bool :=
  _ ← run_checked (grab_run g);
  if negb (grab_file_exists g) || bool_decide (grab_file_size g = 0%N)
  then Ok false
  else Ok true.

Section with_world.
Variable w : World.

(** [extract_audio_from_video(video_path, audio_path)] *)
Definition extract_audio_from_video (video_path audio_path : string)
    : result unit :=
  run_checked (extract_run w).

(** [convert_audio_to_wav(mp3_path, wav_path)] *)
Definition convert_audio_to_wav (mp3_path wav_path : string) : result unit :=
  run_checked (convert_run w).

(** The loop of [split_audio_into_chunks] over [range(num_chunks)]. *)
Fixpoint carve_chunks (chunk_dir : string) (chunk_duration : Z)
    (indices : list nat) (chunk_files : list string) (timestamps : list Z)
    : result (list string * list Z) :=
  match indices with
  | [] => Ok (chunk_files, timestamps)
  | i :: rest =>
      let chunk_path :=
        path_join chunk_dir ("chunk_" +:+ format_d 3 (Z.of_nat i) +:+ ".wav") in
      let start_time := Z.of_nat i * chunk_duration in
      _ ← run_checked (carve_run w i);
      carve_chunks chunk_dir chunk_duration rest
        (chunk_files ++ [chunk_path]) (timestamps ++ [start_time])
  end.

(** [split_audio_into_chunks(audio_path, chunk_dir, chunk_duration)] *)
Definition split_audio_into_chunks (audio_path chunk_dir : string)
    (chunk_duration : Z) : result (list string * list Z) :=
  duration ← probe_run w;
  if decide (chunk_duration = 0)
  then Raise (Exn ZeroDivisionError "float division by zero")
  else
    let num_chunks := py_int (duration / inject_Z chunk_duration)%Q + 1 in
    carve_chunks chunk_dir chunk_duration (seq 0 (Z.to_nat num_chunks)) [] [].

(** [extract_text_from_pdf(pdf_path)] *)
Definition extract_text_from_pdf (pdf_path : string) : result string :=
  pdf_text_run w.

(** [transcribe_audio_chunk_with_whisper(audio_chunk, model_size,
    device)], for the chunk number [i]. *)
Definition transcribe_audio_chunk_with_whisper (i : nat)
    (audio_chunk model_size : string) : M locals (string * list Segment) :=
  _ ← modify (log_call (CallTranscribe audio_chunk model_size));
  lift (whisper_run w i).

(** [improve_transcription_with_ollama(transcription, model_name,
    pdf_context)] *)
Definition improve_transcription_with_ollama (transcription : string)
    (model_name : option string) (pdf_context : option string)
    : result string :=
  if decide (transcription = EmptyString)
  then Raise (Exn ValueError "No valid transcription to improve")
  else
    let prompt :=
      "I have a transcription of a medical lecture about the hypothalamus and pituitary gland that may contain inaccuracies. "
      +:+ "Please correct any errors, fill in any gaps where words don't make sense, and ensure all medical terminology is accurate. " in
    let prompt :=
      if truthy pdf_context && truthy (strip <$> pdf_context)
      then prompt
           +:+ "Use this reference material to help with technical terms and context:"
           +:+ nl +:+ String.substring 0 2000 (default EmptyString pdf_context)
           +:+ nl +:+ nl
      else prompt in
    let prompt :=
      prompt +:+ "Original transcription:" +:+ nl +:+ nl
      +:+ transcription +:+ nl +:+ nl in
    let prompt :=
      prompt
      +:+ "Please output only the improved transcription without explanations or notes." in
    match ollama_generate_run w model_name prompt with
    | OllamaResponse r => Ok r
    | OllamaNoResponseKey => Ok transcription
    | OllamaRaises e => Ok transcription
    end.

(** The first of the preferred names that occurs in an available model. *)
Fixpoint first_preferred (preferred available : list string) : option string :=
  match preferred with
  | [] => None
  | model_name :: rest =>
      match filter (λ m, contains model_name m = true) available with
      | m :: _ => Some m
      | [] => first_preferred rest available
      end
  end.

(** [check_ollama_gpu_model_availability(requested_model)] *)
Definition check_ollama_gpu_model_availability
    (requested_model : option string) : option string :=
  match ollama_models_run w with
  | Raise e => None
  | Ok available_models =>
      if truthy requested_model
         && bool_decide (default EmptyString requested_model ∈ available_models)
      then requested_model
      else
        match first_preferred
                ["llama3.1:8b"; "llama3.2:3b"; "llama3.2"; "mistral"]
                available_models with
        | Some m => Some m
        | None => head available_models
        end
  end.

Section loop.
Variable args : Args.
(** [args.skip_ollama] and [args.ollama_model] as [main] has set
    them before the loop, and the reference text. *)
Variable skip : bool.
Variable model : option string.
Variable pdf_context : option string.
Variable screenshots_dir : string.

(** [if not args.skip_ollama: try: ... improve ... except: ...] *)
Definition improved (text : string) : string :=
  if negb skip
  then match improve_transcription_with_ollama text model pdf_context with
       | Ok improved_text => improved_text
       | Raise e => text
       end
  else text.

(** The body of [for segment in segments], for segment [j] of
    chunk [i]. *)
Definition process_segment (start_time : Z) (i j : nat)
    (segment : Segment) : M locals unit :=
  let segment_start :=
    (default 0 (seg_start segment) + inject_Z start_time)%Q in
  let segment_text := strip (default EmptyString (seg_text segment)) in
  if decide (segment_text = EmptyString) then mret ()
  else
    timestamp ← lift (format_timestamp segment_start);
    due ← lift (within_capture_window segment_start (timestamp_interval args));
    _ ← (if due : bool then
           let screenshot_path :=
             screenshot_file screenshots_dir segment_start in
           _ ← modify (log_call
                 (CallExtractScreenshot (video_file args) screenshot_path
                    timestamp));
           captured ← lift (extract_screenshot (shot_run w i j)
                              (video_file args) screenshot_path timestamp);
           if captured : bool
           then modify (set_screenshot timestamp screenshot_path)
           else mret ()
         else mret ());
    let segment_text := improved segment_text in
    _ ← modify (append_chunk (timestamp, segment_text));
    modify (write (entry timestamp segment_text)).

(** The branch [else:  # Fallback if no segments]. *)
Definition process_whole_chunk (start_time : Z) (i : nat)
    (raw_transcription : string) : M locals unit :=
  timestamp ← lift (format_timestamp (inject_Z start_time));
  let transcription := improved raw_transcription in
  let screenshot_path :=
    screenshot_file screenshots_dir (inject_Z start_time) in
  _ ← modify (log_call
        (CallExtractScreenshot (video_file args) screenshot_path timestamp));
  captured ← lift (extract_screenshot (shot_run w i 0)
                     (video_file args) screenshot_path timestamp);
  _ ← (if captured : bool
       then modify (set_screenshot timestamp screenshot_path)
       else mret ());
  _ ← modify (append_chunk (timestamp, transcription));
  modify (write (entry timestamp transcription)).

(** The body of [for i, (chunk, start_time) in enumerate(zip(...))]. *)
Definition process_chunk (i : nat) (cs : string * Z) : M locals unit :=
  let '(chunk, start_time) := cs in
  try_except
    ('(raw_transcription, segments) ←
       transcribe_audio_chunk_with_whisper i chunk (whisper_model args);
     match segments with
     | _ :: _ => for_each (process_segment start_time i) 0 segments
     | [] => process_whole_chunk start_time i raw_transcription
     end)
    (λ e, mret ()).

End loop.

(** [main()], after the command line is parsed: the transcript, the
    screenshots and whether the PDF was written. *)
Definition main (args : Args)
    : M locals (list (string * string) * gmap string string * option bool) :=
  let video_path := video_file args in
  let model :=
    if negb (skip_ollama args) && negb (truthy (ollama_model args))
    then if truthy (check_ollama_gpu_model_availability None)
         then check_ollama_gpu_model_availability None
         else Some "llama3.1:8b"
    else ollama_model args in
  let skip :=
    if negb (skip_ollama args)
    then match ollama_ping_run w with
         | Some e => true
         | None => skip_ollama args
         end
    else skip_ollama args in
  let screenshots_dir := path_join (temp_dir w) "screenshots" in
  let audio_path := path_join (temp_dir w) "audio.mp3" in
  _ ← lift (extract_audio_from_video video_path audio_path);
  let wav_path := path_join (temp_dir w) "audio.wav" in
  _ ← lift (convert_audio_to_wav audio_path wav_path);
  let chunk_dir := path_join (temp_dir w) "chunks" in
  '(audio_chunks, start_times) ←
    lift (split_audio_into_chunks wav_path chunk_dir (chunk_duration args));
  pdf_context ←
    (if truthy (pdf args)
     then text ← lift (extract_text_from_pdf (default EmptyString (pdf args)));
          mret (Some (if truthy (Some text)
                         && bool_decide (10000 < String.length text)%nat
                      then String.substring 0 10000 text
                      else text))
     else mret None);
  _ ← for_each (process_chunk args skip model pdf_context screenshots_dir)
        0 (zip audio_chunks start_times);
  st ← get;
  let pdf_success :=
    if negb (skip_pdf args)
    then Some (PdfGenerator.create_pdf_with_screenshots w
                 (timestamped_chunks st) (screenshots st) (output_pdf args)).1
    else None in
  mret (timestamped_chunks st, screenshots st, pdf_success).

End with_world.

End VideoToText.

(** * Notions that the properties are stated with *)

(** ** Segments, labels and calls *)

(** The absolute offset of a segment: chunk start plus the start that the
    model reports. *)
Definition absolute_offset (start_time : Z) (segment : Segment) : Q :=
  (default 0 (seg_start segment) + inject_Z start_time)%Q.

(** The text of a segment without the white space around it. *)
Definition stripped_text (segment : Segment) : string :=
  strip (default EmptyString (seg_text segment)).

(** A number below 100 on two digits. *)
Definition two_digits (v : Z) : string :=
  (if decide (v < 10) then "0" else EmptyString) +:+ pretty v.

(** The rendering [H:MM:SS] of a whole number of seconds: hours without a
    leading zero, minutes and seconds on two digits. *)
Definition hms_rendering (n : Z) : string :=
  pretty (n `div` 3600) +:+ ":" +:+ two_digits ((n `div` 60) `mod` 60)
  +:+ ":" +:+ two_digits (n `mod` 60).

(** What precedes the first colon of a label: the day count, when it is
    not zero, and the hours. *)
Definition label_head (d hh : Z) : string :=
  (if decide (d = 0) then EmptyString
   else pretty d +:+ " day"
        +:+ (if decide (Z.abs d = 1) then EmptyString else "s") +:+ ", ")
  +:+ pretty hh.

(** The character [c] does not occur in [s]. *)
Fixpoint lacks (c : ascii) (s : string) : bool :=
  match s with
  | EmptyString => true
  | String x s' => negb (bool_decide (x = c)) && lacks c s'
  end.

(** The value of a decimal digit. *)
Definition digit_value (c : ascii) : Z := Z.of_nat (nat_of_ascii c) - 48.

(** The number that a string of two digits denotes. *)
Definition decode2 (s : string) : Z :=
  match s with
  | String a (String b EmptyString) => 10 * digit_value a + digit_value b
  | _ => -1
  end.

(** The path of the chunk number [i]. *)
Definition chunk_path (chunk_dir : string) (i : nat) : string :=
  path_join chunk_dir ("chunk_" +:+ format_d 3 (Z.of_nat i) +:+ ".wav").

(** The frame grabs among the calls of a run. *)
Definition is_frame_grab (c : call) : bool :=
  match c with
  | CallExtractScreenshot _ _ _ => true
  | CallTranscribe _ _ => false
  end.

(** The calls to the speech model. *)
Definition is_transcribe (c : call) : bool := negb (is_frame_grab c).

(** The calls to the speech model among the calls of a run, in order. *)
Definition transcribe_calls (cs : list call) : list call :=
  filter (λ c, is_transcribe c = true) cs.

(** The frame grabs for one time stamp label, among the calls of a run. *)
Definition is_grab_for (timestamp : string) (c : call) : bool :=
  match c with
  | CallExtractScreenshot _ _ ts => bool_decide (ts = timestamp)
  | CallTranscribe _ _ => false
  end.

Definition grabs_for (timestamp : string) (cs : list call) : list call :=
  filter (λ c, is_grab_for timestamp c = true) cs.

(** A frame grab whose output file and label come from one moment. *)
Definition grab_of_a_moment (screenshots_dir : string) (c : call) : Prop :=
  match c with
  | CallExtractScreenshot _ output_path timestamp =>
      ∃ t, Utils.format_timestamp t = Ok timestamp
           ∧ output_path = screenshot_file screenshots_dir t
  | CallTranscribe _ _ => True
  end.

(** ** The program logic and the invariants of the loops *)

(** A Hoare triple for code in [M]: from a state in [P], the code either
    returns [a] in a state with [Q a] or raises in a state with [E]. *)
Definition hoare {St A} (P : St → Prop) (m : M St A)
    (Q : A → St → Prop) (E : St → Prop) : Prop :=
  ∀ st, P st →
    match m st with
    | (st', Ok a) => Q a st'
    | (st', Raise e) => E st'
    end.

(** Every screenshot recorded has a transcript entry with its label. *)
Definition shots_have_entries (shots : gmap string string)
    (tc : list (string * string)) : Prop :=
  ∀ timestamp, is_Some (shots !! timestamp) → ∃ text, (timestamp, text) ∈ tc.

(** The same, of the state of the loops of [process_video]. *)
Definition linked {S} (st : Transcriber.locals S) : Prop :=
  shots_have_entries (Transcriber.screenshots st) (Transcriber.timestamped_chunks st).

(** The calls to the speech model so far are [X]. *)
Definition transcribed {S} (X : list call) (st : Transcriber.locals S) : Prop :=
  transcribe_calls (Transcriber.calls st) = X.

(** Every frame grab so far has the file and the label of one moment. *)
Definition grabs_of_moments {S} (screenshots_dir : string)
    (st : Transcriber.locals S) : Prop :=
  Forall (grab_of_a_moment screenshots_dir) (Transcriber.calls st).

(** ** What the chunks add to the transcript *)

(** Code that, whatever the state, appends the entries [es] to the
    transcript and ends with [r]. *)
Definition appends {S A} (m : M (Transcriber.locals S) A)
    (es : list (string * string)) (r : result A) : Prop :=
  ∀ st, Transcriber.timestamped_chunks (m st).1
        = Transcriber.timestamped_chunks st ++ es
        ∧ (m st).2 = r.

(** Two pieces of code that append the same entries and end alike. *)
Definition alike {S1 S2 A} (m1 : M (Transcriber.locals S1) A)
    (m2 : M (Transcriber.locals S2) A) : Prop :=
  ∃ es r, appends m1 es r ∧ appends m2 es r.

(** What the chunk number [i] adds to the transcript: the entries that
    the loop body appends when run on its own, without a callback. *)
Definition chunk_contribution (w : World) (video_path whisper_model : string)
    (timestamp_interval : Z) (i : nat) (cs : string * Z) : list (string * string) :=
  Transcriber.timestamped_chunks
    (Transcriber.process_chunk w (S := unit) None EmptyString video_path
       whisper_model timestamp_interval (path_join (temp_dir w) "screenshots")
       0 0%Q i cs (Transcriber.initial ())).1.

(** The entries of the segments of one chunk: a label and a text for each
    segment whose text is not empty. *)
Definition segment_entries (start_time : Z) (segments : list Segment)
    : list (string * string) :=
  omap (λ segment,
          if decide (stripped_text segment = EmptyString) then None
          else match Utils.format_timestamp (absolute_offset start_time segment) with
               | Ok timestamp => Some (timestamp, stripped_text segment)
               | Raise e => None
               end) segments.

(** ** The job record *)

Definition empty_disk : disk := {| job_files := ∅; saves := [] |}.

(** The progress values written to the record of a job, in order. *)
Definition progress_history (job_id : string) (d : disk) : list Q :=
  omap (λ '(j, job_status),
          if decide (j = job_id) then progress job_status else None) (saves d).

Fixpoint nondecreasing (l : list Q) : bool :=
  match l with
  | a :: l' =>
      match l' with
      | b :: _ => Qle_bool a b && nondecreasing l'
      | [] => true
      end
  | [] => true
  end.

(** ** The text-correction stage *)

(** Every text-correction call fails: the service raises, or its reply
    lacks the key [response]. *)
Definition correction_fails (w : World) : Prop :=
  ∀ model_name prompt,
    match ollama_generate_run w model_name prompt with
    | OllamaResponse _ => False
    | OllamaNoResponseKey | OllamaRaises _ => True
    end.

(** The command line with [--skip-ollama]. *)
Definition with_skip_ollama (args : VideoToText.Args) : VideoToText.Args :=
  {| VideoToText.video_file := VideoToText.video_file args;
     VideoToText.pdf := VideoToText.pdf args;
     VideoToText.output_pdf := VideoToText.output_pdf args;
     VideoToText.whisper_model := VideoToText.whisper_model args;
     VideoToText.ollama_model := VideoToText.ollama_model args;
     VideoToText.chunk_duration := VideoToText.chunk_duration args;
     VideoToText.timestamp_interval := VideoToText.timestamp_interval args;
     VideoToText.skip_ollama := true;
     VideoToText.skip_pdf := VideoToText.skip_pdf args |}.

(** ** The reader of the plain-text transcript *)

(** The output file of the command-line run holds the rendering of its
    transcript. *)
Definition file_is_rendering (st : VideoToText.locals) : Prop :=
  VideoToText.out_file st
  = PdfGenerator.write_entries (VideoToText.timestamped_chunks st) EmptyString.

Definition LF : ascii := "010"%char.

(** Modelled from the spec: the reader of [transcript.txt], which the
    repository does not contain.  It splits the text at blank lines (two
    consecutive line feeds, leftmost first) ... *)
Fixpoint split_blocks (s cur : string) : list string :=
  match s with
  | EmptyString => [cur]
  | String c s' =>
      match s' with
      | String c' s'' =>
          if decide (c = LF ∧ c' = LF) then cur :: split_blocks s'' EmptyString
          else split_blocks s' (cur +:+ String c EmptyString)
      | EmptyString => [cur +:+ String c EmptyString]
      end
  end.

(** Modelled from the spec: ... it reads a block [[timestamp] text] by
    cutting it at the first closing bracket that a space follows ... *)
Fixpoint cut_label (s label : string) : option (string * string) :=
  match s with
  | EmptyString => None
  | String c s' =>
      match s' with
      | String c' s'' =>
          if decide (c = "]"%char ∧ c' = " "%char) then Some (label, s'')
          else cut_label s' (label +:+ String c EmptyString)
      | EmptyString => None
      end
  end.

(** Modelled from the spec: ... a block starts with an opening bracket ... *)
Definition parse_block (b : string) : option (string * string) :=
  match b with
  | String c b' => if decide (c = "["%char) then cut_label b' EmptyString else None
  | EmptyString => None
  end.

(** Modelled from the spec: ... and it returns the pairs of the blocks
    that are not empty, in order, when each of them is well formed. *)
Definition parse_transcript (s : string) : option (list (string * string)) :=
  mapM parse_block (filter (λ b, b ≠ EmptyString) (split_blocks s EmptyString)).

(** A label without a closing bracket and without a line feed. *)
Fixpoint plain_label (s : string) : bool :=
  match s with
  | EmptyString => true
  | String c s' =>
      negb (bool_decide (c = "]"%char)) && negb (bool_decide (c = LF))
      && plain_label s'
  end.

(** A text without a blank line in it and without a line feed at its end. *)
Fixpoint no_blank_line (s : string) : bool :=
  match s with
  | EmptyString => true
  | String c s' =>
      match s' with
      | String c' _ =>
          negb (bool_decide (c = LF ∧ c' = LF)) && no_blank_line s'
      | EmptyString => negb (bool_decide (c = LF))
      end
  end.

Fixpoint no_line_feed (s : string) : bool :=
  match s with
  | EmptyString => true
  | String c s' => negb (bool_decide (c = LF)) && no_line_feed s'
  end.

Definition well_formed_entry (e : string * string) : Prop :=
  plain_label e.1 = true ∧ no_blank_line e.2 = true.

(** The block of an entry: the entry without the blank line after it. *)
Definition block (e : string * string) : string :=
  "[" +:+ e.1 +:+ "] " +:+ e.2.

(** ** White space *)

(** A text of white space only. *)
Fixpoint is_blank (s : string) : bool :=
  match s with
  | EmptyString => true
  | String c s' => is_space c && is_blank s'
  end.

(** A text that does not start, and one that does not end, with white
    space. *)
Definition starts_clean (s : string) : bool :=
  match s with
  | EmptyString => true
  | String c _ => negb (is_space c)
  end.

Definition ends_clean (s : string) : bool := starts_clean (String.rev s).

(** ** More invariants of the loops of [process_video] *)

(** A transcript entry as the segment loop makes it: the label of a
    moment, and a text that is not empty and that [strip] leaves as it
    is. *)
Definition tidy_entry (e : string * string) : Prop :=
  (∃ t, Utils.format_timestamp t = Ok e.1)
  ∧ e.2 ≠ EmptyString ∧ strip e.2 = e.2.

(** Every screenshot recorded is the file of a moment with its label,
    in the directory [dir]. *)
Definition shots_of_moments (dir : string) (shots : gmap string string) : Prop :=
  ∀ timestamp path, shots !! timestamp = Some path →
    ∃ t, Utils.format_timestamp t = Ok timestamp ∧ path = screenshot_file dir t.

(** The two, of the state of the loops. *)
Definition tidy {S} (dir : string) (st : Transcriber.locals S) : Prop :=
  shots_of_moments dir (Transcriber.screenshots st)
  ∧ Forall tidy_entry (Transcriber.timestamped_chunks st).

(** The state that the progress callback acts on satisfies [I]. *)
Definition cb_state_in {S} (I : S → Prop) (st : Transcriber.locals S) : Prop :=
  I (Transcriber.cb_state st).

(** The three stages that precede the chunk loop, in order. *)
Definition preparation (w : World) (video_path : string) (chunk_duration : Z)
    : result (list string * list Z * Z) :=
  let audio_path := path_join (temp_dir w) "audio.mp3" in
  let wav_path := path_join (temp_dir w) "audio.wav" in
  _ ← Utils.extract_audio_from_video w video_path audio_path;
  _ ← Utils.convert_audio_to_wav w audio_path wav_path;
  Utils.split_audio_into_chunks w wav_path (path_join (temp_dir w) "chunks")
    chunk_duration.

(** ** The ledger during a job *)

(** From the ledger [d0] to [d]: only the record of [job_id] was written,
    and it kept its file name. *)
Definition own_writes (job_id : string) (d0 d : disk) : Prop :=
  (∀ j, j ≠ job_id → job_files d !! j = job_files d0 !! j)
  ∧ (∃ new, saves d = saves d0 ++ new ∧ Forall (λ s, s.1 = job_id) new)
  ∧ (∃ r, job_files d !! job_id = Some r
          ∧ filename r = filename (default empty_job (job_files d0 !! job_id))).

(** A percentage. *)
Definition within_percent (p : Q) : Prop := (0 <= p)%Q ∧ (p <= 100)%Q.

(** The progress values [tr] were written to the record of [job_id] since
    the ledger's log was [h0]: each is a percentage, the record holds the
    last of them and, in a run that is to be [steady], they do not
    decrease and stay below [b]. *)
Definition reported (job_id : string) (steady : Prop) (h0 : list Q) (b : Q)
    (d : disk) : Prop :=
  ∃ tr, progress_history job_id d = h0 ++ tr
        ∧ (∃ r, job_files d !! job_id = Some r ∧ progress r = last tr)
        ∧ Forall within_percent tr
        ∧ (steady → nondecreasing tr = true
                    ∧ ∀ y, last tr = Some y → (y <= b)%Q).

(** The progress that the chunk loop may have reached before the chunk
    number [k], for a share [x] per chunk. *)
Definition reached (x : Q) (k : nat) : Q :=
  if decide (k = 0%nat) then 20%Q
  else (25 + inject_Z (Z.of_nat k) * x - x / 2)%Q.

(** ** The command-line run *)

(** The state of the loop of [main] is consistent: every screenshot has
    an entry, the output file is the rendering of the transcript, and
    [full_transcription] is the content of the file. *)
Definition cli_consistent (st : VideoToText.locals) : Prop :=
  shots_have_entries (VideoToText.screenshots st) (VideoToText.timestamped_chunks st)
  ∧ file_is_rendering st
  ∧ VideoToText.full_transcription st = VideoToText.out_file st.

(** The stages of [main] that precede the chunk loop, in order. *)
Definition cli_preparation (w : World) (args : VideoToText.Args) : result unit :=
  let audio_path := path_join (temp_dir w) "audio.mp3" in
  let wav_path := path_join (temp_dir w) "audio.wav" in
  _ ← VideoToText.extract_audio_from_video w (VideoToText.video_file args) audio_path;
  _ ← VideoToText.convert_audio_to_wav w audio_path wav_path;
  _ ← VideoToText.split_audio_into_chunks w wav_path
        (path_join (temp_dir w) "chunks") (VideoToText.chunk_duration args);
  if VideoToText.truthy (VideoToText.pdf args)
  then _ ← VideoToText.extract_text_from_pdf w
             (default EmptyString (VideoToText.pdf args));
       Ok ()
  else Ok ().

(** ** The job list *)

(** [a] may be listed before [b]: it is not older. *)
Definition not_older (a b : JobFiles.JobSummary) : Prop :=
  String.leb (JobFiles.sum_created_at b) (JobFiles.sum_created_at a) = true.

(** A listing gives the names of the files of a directory, in some
    order. *)
Definition lists_names (listdir : gmap string JobFiles.content → list string)
    : Prop :=
  ∀ m file, file ∈ listdir m ↔ is_Some (m !! file).

(** ** Sample worlds *)

Definition working_grab : frame_grab :=
  {| grab_video_exists := true; grab_run := None;
     grab_file_exists := true; grab_file_size := 1024%N |}.

(** A frame grab in which ffmpeg exits with a non-zero status. *)
Definition failed_grab : frame_grab :=
  {| grab_video_exists := true;
     grab_run := Some (Exn CalledProcessError "ffmpeg returned non-zero exit status 1.");
     grab_file_exists := false; grab_file_size := 0%N |}.

Definition segment_at (start : Q) (text : string) : Segment :=
  {| seg_start := Some start; seg_text := Some text |}.

(** A world in which every tool works, for an audio track of the given
    duration, a behaviour of the speech model and of the frame grabs. *)
Definition sample_world (duration : Q)
    (whisper : nat → result (string * list Segment))
    (shots : nat → nat → frame_grab) : World :=
  {| video_exists := true; extract_run := None;
     mp3_exists := true; convert_run := None;
     wav_exists := true; probe_run := Ok duration;
     carve_run := λ _, None;
     whisper_run := whisper;
     shot_run := shots;
     copy_run := λ _, None;
     temp_dir := "/tmp/tmpx"; cwd := "/srv/app";
     text_write_ok := true; pdf_write_ok := true;
     pdf_text_run := Ok "Reference notes.";
     ollama_models_run := Ok ["mistral:latest"];
     ollama_ping_run := None;
     ollama_generate_run := λ _ _, OllamaResponse "Improved." |}.

(** Two minutes and five seconds of audio, one sentence three seconds
    into each chunk. *)
Definition two_minutes : World :=
  sample_world 125%Q (λ _, Ok ("Hello.", [segment_at 3%Q " Hello."]))
    (λ _ _, working_grab).

(** Thirty-five minutes of audio in chunks of five minutes: eight chunks,
    each transcribed to one sentence. *)
Definition eight_chunks : World :=
  sample_world 2100%Q (λ _, Ok ("Hello.", [segment_at 12%Q " Hello."]))
    (λ _ _, working_grab).

(** Two sentences within the first second of the audio. *)
Definition same_second : World :=
  sample_world 50%Q
    (λ _, Ok ("Hello. Goodbye.",
              [segment_at 0%Q " Hello."; segment_at (1 # 2)%Q " Goodbye."]))
    (λ _ _, working_grab).

(** Fifty seconds of audio, one chunk with two sentences; every frame
    grab fails. *)
Definition no_frames : World :=
  sample_world 50%Q
    (λ _, Ok ("Hello. Goodbye.",
              [segment_at 0%Q " Hello."; segment_at 7%Q " Goodbye."]))
    (λ _ _, failed_grab).

(** The same audio, when the speech model fails on the second chunk. *)
Definition second_chunk_fails : World :=
  sample_world 125%Q
    (λ i, if decide (i = 1%nat) then Raise (Exn RuntimeError "out of memory")
          else Ok ("Hello.", [segment_at 3%Q " Hello."]))
    (λ _ _, working_grab).

(** The same audio, when the text-correction service answers the
    connection test and fails on every request. *)
Definition offline : World :=
  {| video_exists := true; extract_run := None;
     mp3_exists := true; convert_run := None;
     wav_exists := true; probe_run := Ok 125%Q;
     carve_run := λ _, None;
     whisper_run := λ _, Ok ("Hello.", [segment_at 3%Q " Hello."]);
     shot_run := λ _ _, working_grab;
     copy_run := λ _, None;
     temp_dir := "/tmp/tmpx"; cwd := "/srv/app";
     text_write_ok := true; pdf_write_ok := true;
     pdf_text_run := Ok "Reference notes.";
     ollama_models_run := Raise (Exn RuntimeError "connection refused");
     ollama_ping_run := None;
     ollama_generate_run :=
       λ _ _, OllamaRaises (Exn RuntimeError "connection refused") |}.

Definition sample_args : VideoToText.Args :=
  {| VideoToText.video_file := "talk.mp4";
     VideoToText.pdf := None;
     VideoToText.output_pdf := "talk_transcript.pdf";
     VideoToText.whisper_model := "base";
     VideoToText.ollama_model := None;
     VideoToText.chunk_duration := 60;
     VideoToText.timestamp_interval := 30;
     VideoToText.skip_ollama := true;
     VideoToText.skip_pdf := false |}.

Definition correcting_args : VideoToText.Args :=
  {| VideoToText.video_file := "talk.mp4";
     VideoToText.pdf := Some "notes.pdf";
     VideoToText.output_pdf := "talk_transcript.pdf";
     VideoToText.whisper_model := "base";
     VideoToText.ollama_model := Some "mistral";
     VideoToText.chunk_duration := 60;
     VideoToText.timestamp_interval := 30;
     VideoToText.skip_ollama := false;
     VideoToText.skip_pdf := false |}.

(** A state of the segment loop in which the label [0:01:03] has its
    screenshot. *)
Definition after_first_capture : Transcriber.locals unit :=
  {| Transcriber.cb_state := ();
     Transcriber.calls :=
       [CallExtractScreenshot "talk.mp4"
          "/tmp/tmpx/screenshots/screenshot_000063.jpg" "0:01:03"];
     Transcriber.timestamped_chunks := [("0:01:03", "Hello.")];
     Transcriber.screenshots :=
       {["0:01:03" := "/tmp/tmpx/screenshots/screenshot_000063.jpg"]} |}.

Definition cli_after_first_capture : VideoToText.locals :=
  {| VideoToText.calls :=
       [CallExtractScreenshot "talk.mp4"
          "/tmp/tmpx/screenshots/screenshot_000063.jpg" "0:01:03"];
     VideoToText.timestamped_chunks := [("0:01:03", "Hello.")];
     VideoToText.screenshots :=
       {["0:01:03" := "/tmp/tmpx/screenshots/screenshot_000063.jpg"]};
     VideoToText.full_transcription := entry "0:01:03" "Hello.";
     VideoToText.out_file := entry "0:01:03" "Hello." |}.

(** A text of two paragraphs, the second of which looks like an entry. *)
Definition two_paragraphs : string :=
  "First." +:+ nl +:+ nl +:+ "[0:00:05] Second.".

(** Fifty seconds of audio in which the speech model finds nothing. *)
Definition silent : World :=
  sample_world 50%Q (λ _, Ok (EmptyString, [])) (λ _ _, working_grab).

(** A listing in the order of the names. *)
Definition by_name (m : gmap string JobFiles.content) : list string :=
  (map_to_list m).*1.

Definition no_files : JobFiles.fs :=
  {| JobFiles.jobs := ∅; JobFiles.output := ∅; JobFiles.temp_processing := ∅ |}.

(** The record that [create_new_job] writes for an upload. *)
Definition created_job : JobFiles.JobData :=
  {| JobFiles.fields :=
       {| filename := Some "talk.mp4"; status := Some "Created";
          progress := Some 0%Q; error := None; txt_path := None;
          pdf_path := None; num_screenshots := None; num_segments := None |};
     JobFiles.own_id := Some "3f2a9c1e";
     JobFiles.settings := Some (180, 30, "base");
     JobFiles.created_at := Some "2025-03-01T10:00:00";
     JobFiles.updated_at := None;
     JobFiles.completed_at := None |}.

(** A jobs directory with one job. *)
Definition one_job : JobFiles.fs :=
  JobFiles.save_job_status JobFiles.Written "3f2a9c1e" created_job no_files.

Definition blank_session : AppPages.Session :=
  {| AppPages.show_job := None; AppPages.jobs := [];
     AppPages.user_feedback := None |}.

(** * Properties *)

(** ** Numbers and strings *)

Lemma py_int_floor (x : Q) : (0 <= x)%Q → py_int x = Qfloor x.
Proof.
  destruct x as [n d]. unfold Qle, py_int, Qfloor. simpl. intros Hn.
  apply Z.quot_div_nonneg; lia.
Qed.

Lemma py_int_inject_Z (z : Z) : py_int (inject_Z z) = z.
Proof. unfold py_int. simpl. apply Z.quot_1_r. Qed.

Lemma py_int_nonneg (x : Q) : (0 <= x)%Q → 0 <= py_int x.
Proof.
  intros Hx. rewrite py_int_floor by done.
  change 0 with (Qfloor 0). by apply Qfloor_resp_le.
Qed.

(** ** The chunk splitter *)

Section splitter.
Variable w : World.
Variables (chunk_dir : string) (chunk_duration : Z).

Lemma carve_chunks_spec (indices : list nat) (files : list string) (ts : list Z) :
  match Utils.carve_chunks w chunk_dir chunk_duration indices files ts with
  | Ok (files', ts') =>
      files' = files ++ (chunk_path chunk_dir <$> indices)
      ∧ ts' = ts ++ ((λ i, Z.of_nat i * chunk_duration) <$> indices)
  | Raise e => ∃ i, i ∈ indices ∧ carve_run w i = Some e
  end.
Proof.
  revert files ts. induction indices as [|i rest IH]; intros files ts; simpl.
  - by rewrite !app_nil_r.
  - destruct (carve_run w i) as [e|] eqn:Hi; simpl.
    + exists i. split; [left|done].
    + specialize (IH (files ++ [chunk_path chunk_dir i]) (ts ++ [Z.of_nat i * chunk_duration])).
      unfold chunk_path in IH at 1.
      destruct (Utils.carve_chunks _ _ _ rest _ _) as [[files' ts']|e].
      * destruct IH as [-> ->]. by rewrite <- !app_assoc.
      * destruct IH as (j & Hj & He). exists j. split; [by right|done].
Qed.

End splitter.


Lemma quotient_nonneg (L : Q) (D : Z) : 0 < D → (0 <= L)%Q → (0 <= L / inject_Z D)%Q.
Proof.
  intros HD HL. unfold Qdiv. apply Qmult_le_0_compat; [done|].
  apply Qinv_le_0_compat. unfold Qle. simpl. lia.
Qed.

Lemma floor_of_exact_multiple (L : Q) (D k : Z) :
  0 < D → (L == inject_Z (k * D))%Q → Qfloor (L / inject_Z D) = k.
Proof.
  intros HD HL.
  assert (L / inject_Z D == inject_Z k)%Q as ->.
  { rewrite HL, inject_Z_mult. apply Qdiv_mult_l.
    unfold Qeq. simpl. lia. }
  apply Qfloor_Z.
Qed.

Lemma offsets_lookup (D : Z) (m i : nat) :
  (i < m)%nat →
  ((λ j : nat, Z.of_nat j * D) <$> seq 0 m) !! i = Some (Z.of_nat i * D).
Proof. intros Hi. by rewrite list_lookup_fmap, lookup_seq_lt. Qed.

(** C1. For a positive chunk duration [D] and a probed duration [L >= 0],
    [split_audio_into_chunks] (of [modules/utils.py] and of
    [video_to_text.py]) either raises because one ffmpeg invocation
    failed, or returns exactly [floor(L/D) + 1] chunks, the chunk number
    [i] starting at [i * D]; it returns when every invocation succeeds;
    and when [L] is [k * D] the count is [k + 1], so that the last chunk
    starts at [L] and is empty. *)
Theorem split_chunk_count_and_offsets
    (w : World) (audio_path chunk_dir : string) (D : Z) (L : Q) :
  0 < D → (0 <= L)%Q → wav_exists w = true → probe_run w = Ok L →
  let n := Qfloor (L / inject_Z D) + 1 in
  match Utils.split_audio_into_chunks w audio_path chunk_dir D with
  | Ok (chunk_files, timestamps, num_chunks) =>
      num_chunks = n
      ∧ Z.of_nat (length chunk_files) = n
      ∧ Z.of_nat (length timestamps) = n
      ∧ (∀ i : nat, Z.of_nat i < n → timestamps !! i = Some (Z.of_nat i * D))
      ∧ VideoToText.split_audio_into_chunks w audio_path chunk_dir D
        = Ok (chunk_files, timestamps)
  | Raise e =>
      (∃ i : nat, Z.of_nat i < n ∧ carve_run w i = Some e)
      ∧ VideoToText.split_audio_into_chunks w audio_path chunk_dir D = Raise e
  end
  ∧ ((∀ i, carve_run w i = None) →
     ∃ r, Utils.split_audio_into_chunks w audio_path chunk_dir D = Ok r)
  ∧ (∀ k : Z, (L == inject_Z (k * D))%Q →
     n = k + 1 ∧ (inject_Z ((n - 1) * D) == L)%Q).
Proof.
  intros HD HL Hwav Hprobe n.
  assert (0 <= Qfloor (L / inject_Z D)) as Hfloor.
  { rewrite <- py_int_floor by by apply quotient_nonneg.
    by apply py_int_nonneg, quotient_nonneg. }
  assert (Utils.split_audio_into_chunks w audio_path chunk_dir D
          = '(chunk_files, timestamps) ←
              Utils.carve_chunks w chunk_dir D (seq 0 (Z.to_nat n)) [] [];
            Ok (chunk_files, timestamps, n)) as Hsplit.
  { unfold Utils.split_audio_into_chunks. rewrite Hwav, Hprobe. simpl.
    destruct (decide (D = 0)) as [?|_]; [lia|].
    by rewrite py_int_floor by by apply quotient_nonneg. }
  assert (VideoToText.split_audio_into_chunks w audio_path chunk_dir D
          = Utils.carve_chunks w chunk_dir D (seq 0 (Z.to_nat n)) [] []) as Hcli.
  { unfold VideoToText.split_audio_into_chunks. rewrite Hprobe. simpl.
    destruct (decide (D = 0)) as [?|_]; [lia|].
    by rewrite py_int_floor by by apply quotient_nonneg. }
  pose proof (carve_chunks_spec w chunk_dir D (seq 0 (Z.to_nat n)) [] []) as Hloop.
  split; [|split].
  - rewrite Hsplit, Hcli.
    destruct (Utils.carve_chunks _ _ _ _ _ _) as [[files ts]|e]; simpl.
    + destruct Hloop as [-> ->]. simpl.
      rewrite !length_fmap, length_seq.
      repeat split; try lia.
      intros i Hi. apply offsets_lookup. lia.
    + destruct Hloop as (i & Hi & He). split; [|done].
      exists i. split; [|done].
      apply elem_of_seq in Hi. lia.
  - intros Hall. rewrite Hsplit.
    destruct (Utils.carve_chunks _ _ _ _ _ _) as [[files ts]|e]; simpl; [by eexists|].
    destruct Hloop as (i & _ & He). by rewrite Hall in He.
  - intros k Hk. subst n.
    rewrite (floor_of_exact_multiple L D k) by done.
    split; [done|]. rewrite Hk. by replace (k + 1 - 1) with k by lia.
Qed.

(** ** Time stamp labels *)

Lemma format_d_two_digits (v : Z) : 0 <= v < 60 → format_d 2 v = two_digits v.
Proof.
  intros Hv. rewrite <- (Z2Nat.id v) by lia.
  assert (Z.to_nat v < 60)%nat as Hn by lia.
  generalize dependent (Z.to_nat v). clear v Hv. intros n Hn.
  do 60 (destruct n as [|n]; [by vm_compute|]). lia.
Qed.

Lemma timedelta_below_a_day (s : Z) :
  0 <= s < 86400 →
  datetime.of_seconds s = Ok {| datetime.days := 0; datetime.seconds := s |}.
Proof.
  intros Hs. unfold datetime.of_seconds, divmod.
  rewrite Z.div_small, Z.mod_small by lia.
  by destruct (decide _) as [?|_]; [lia|].
Qed.

Lemma timedelta_str_below_a_day (s : Z) :
  0 <= s < 86400 →
  datetime.str {| datetime.days := 0; datetime.seconds := s |} = hms_rendering s.
Proof.
  intros Hs. unfold datetime.str, hms_rendering, divmod. simpl.
  rewrite Z.div_div by lia. change (60 * 60) with 3600.
  rewrite !format_d_two_digits; [done|..]; by apply Z.mod_pos_bound.
Qed.

(** Below one day the label is the [H:MM:SS] rendering of the whole
    seconds, in both pipelines. *)
Lemma format_timestamp_below_a_day (t : Q) :
  (0 <= t)%Q → Qfloor t < 86400 →
  Utils.format_timestamp t = Ok (hms_rendering (Qfloor t))
  ∧ VideoToText.format_timestamp t = Ok (hms_rendering (Qfloor t)).
Proof.
  intros Ht Hday.
  assert (0 <= Qfloor t) by (rewrite <- py_int_floor by done; by apply py_int_nonneg).
  unfold Utils.format_timestamp, VideoToText.format_timestamp.
  rewrite py_int_floor, timedelta_below_a_day by done. simpl.
  by rewrite timedelta_str_below_a_day.
Qed.

(** C5. At an offset of one day [format_timestamp] (of both pipelines)
    returns ["1 day, 0:00:00"], which is not an hours:minutes:seconds
    rendering of 86400 seconds; at 63 seconds it returns ["0:01:03"]. *)
Theorem format_timestamp_at_one_day :
  Utils.format_timestamp (86400 # 1) = Ok "1 day, 0:00:00"
  ∧ VideoToText.format_timestamp (86400 # 1) = Ok "1 day, 0:00:00"
  ∧ hms_rendering (Qfloor (86400 # 1)) = "24:00:00"
  ∧ Utils.format_timestamp (86400 # 1) ≠ Ok (hms_rendering (Qfloor (86400 # 1)))
  ∧ Utils.format_timestamp (63 # 1) = Ok "0:01:03"
  ∧ hms_rendering 63 = "0:01:03".
Proof. by vm_compute. Qed.

(** ** One segment of the interactive pipeline *)

Ltac msimpl :=
  unfold mbind, mret, M_bind, M_ret, result_bind, result_ret,
    lift, modify, get, try_except; simpl.

Section transcriber_segment.
Context {S : Type}.
Variable w : World.
Variable progress_callback : option (string → string → Q → S → S).
Variables job_id video_path whisper_model : string.
Variables chunk_duration timestamp_interval : Z.
Variable screenshots_dir : string.

Abbreviation process_segment :=
  (Transcriber.process_segment w video_path timestamp_interval screenshots_dir).

Lemma transcriber_segment_empty start_time i j segment (st : Transcriber.locals S) :
  stripped_text segment = EmptyString →
  process_segment start_time i j segment st = (st, Ok ()).
Proof.
  intros Hempty. unfold Transcriber.process_segment.
  fold (stripped_text segment). by rewrite decide_True.
Qed.

Lemma transcriber_segment_step start_time i j segment timestamp due
    (st : Transcriber.locals S) :
  stripped_text segment ≠ EmptyString →
  Utils.format_timestamp (absolute_offset start_time segment) = Ok timestamp →
  within_capture_window (absolute_offset start_time segment) timestamp_interval
    = Ok due →
  let screenshot_path :=
    screenshot_file screenshots_dir (absolute_offset start_time segment) in
  let st1 :=
    Transcriber.log_call
      (CallExtractScreenshot video_path screenshot_path timestamp) st in
  let e := (timestamp, stripped_text segment) in
  process_segment start_time i j segment st =
    if due then
      match Utils.extract_screenshot (shot_run w i j) video_path screenshot_path
              timestamp with
      | Raise x => (st1, Raise x)
      | Ok true =>
          (Transcriber.append_chunk e
             (Transcriber.set_screenshot timestamp screenshot_path st1), Ok ())
      | Ok false => (Transcriber.append_chunk e st1, Ok ())
      end
    else (Transcriber.append_chunk e st, Ok ()).
Proof.
  intros Htext Hts Hdue. unfold Transcriber.process_segment.
  fold (stripped_text segment) (absolute_offset start_time segment).
  rewrite decide_False by done. msimpl. rewrite Hts, Hdue.
  destruct due; [|done].
  by destruct (Utils.extract_screenshot _ _ _ _) as [[]|].
Qed.

End transcriber_segment.

(** ** One segment of the command-line pipeline *)

Section cli_segment.
Variable w : World.
Variable args : VideoToText.Args.
Variable skip : bool.
Variables model pdf_context : option string.
Variable screenshots_dir : string.

Abbreviation cli_process_segment :=
  (VideoToText.process_segment w args skip model pdf_context screenshots_dir).

Lemma cli_segment_empty start_time i j segment (st : VideoToText.locals) :
  stripped_text segment = EmptyString →
  cli_process_segment start_time i j segment st = (st, Ok ()).
Proof.
  intros Hempty. unfold VideoToText.process_segment.
  fold (stripped_text segment). by rewrite decide_True.
Qed.

Lemma cli_segment_step start_time i j segment timestamp due
    (st : VideoToText.locals) :
  stripped_text segment ≠ EmptyString →
  VideoToText.format_timestamp (absolute_offset start_time segment) = Ok timestamp →
  within_capture_window (absolute_offset start_time segment)
    (VideoToText.timestamp_interval args) = Ok due →
  let screenshot_path :=
    screenshot_file screenshots_dir (absolute_offset start_time segment) in
  let st1 :=
    VideoToText.log_call
      (CallExtractScreenshot (VideoToText.video_file args) screenshot_path
         timestamp) st in
  let text :=
    VideoToText.improved w skip model pdf_context (stripped_text segment) in
  let finish st' :=
    VideoToText.write (entry timestamp text)
      (VideoToText.append_chunk (timestamp, text) st') in
  cli_process_segment start_time i j segment st =
    if due then
      match VideoToText.extract_screenshot (shot_run w i j)
              (VideoToText.video_file args) screenshot_path timestamp with
      | Raise x => (st1, Raise x)
      | Ok true =>
          (finish (VideoToText.set_screenshot timestamp screenshot_path st1), Ok ())
      | Ok false => (finish st1, Ok ())
      end
    else (finish st, Ok ()).
Proof.
  intros Htext Hts Hdue. unfold VideoToText.process_segment.
  fold (stripped_text segment) (absolute_offset start_time segment).
  rewrite decide_False by done. msimpl. rewrite Hts, Hdue.
  destruct due; [|done].
  by destruct (VideoToText.extract_screenshot _ _ _ _) as [[]|].
Qed.

End cli_segment.

(** ** The sampling rule *)

Lemma within_capture_window_floor (t : Q) (interval : Z) :
  (0 <= t)%Q → interval ≠ 0 →
  within_capture_window t interval
  = Ok (bool_decide (Qfloor t `mod` interval < 5)).
Proof.
  intros Ht Hi. unfold within_capture_window, py_mod.
  rewrite decide_False by done. by rewrite py_int_floor.
Qed.

(** C3. For a segment with a non-empty text, at the absolute offset
    [t >= 0], and a screenshot interval other than zero, the test of the
    code is [floor(t) mod interval < 5], and the segment loop of either
    pipeline calls [extract_screenshot] exactly when it holds; the rule
    captures at the remainders 0 and 4 and does not at 5 nor, for an
    interval above 5, at [interval - 1]. *)
Theorem screenshot_sampling_rule {S : Type} (w : World) (args : VideoToText.Args)
    (skip : bool) (model pdf_context : option string) (screenshots_dir : string)
    (start_time : Z) (i j : nat) (segment : Segment) (timestamp : string)
    (st : Transcriber.locals S) (cst : VideoToText.locals) :
  let t := absolute_offset start_time segment in
  let interval := VideoToText.timestamp_interval args in
  let video_path := VideoToText.video_file args in
  let due := bool_decide (Qfloor t `mod` interval < 5) in
  let grab :=
    CallExtractScreenshot video_path (screenshot_file screenshots_dir t) timestamp in
  (0 <= t)%Q → interval ≠ 0 → stripped_text segment ≠ EmptyString →
  Utils.format_timestamp t = Ok timestamp →
  within_capture_window t interval = Ok due
  ∧ Transcriber.calls
      (Transcriber.process_segment w video_path interval screenshots_dir
         start_time i j segment st).1
    = Transcriber.calls st ++ (if due then [grab] else [])
  ∧ VideoToText.calls
      (VideoToText.process_segment w args skip model pdf_context screenshots_dir
         start_time i j segment cst).1
    = VideoToText.calls cst ++ (if due then [grab] else [])
  ∧ (Qfloor t `mod` interval = 0 → due = true)
  ∧ (Qfloor t `mod` interval = 4 → due = true)
  ∧ (Qfloor t `mod` interval = 5 → due = false)
  ∧ (5 < interval → Qfloor t `mod` interval = interval - 1 → due = false).
Proof.
  intros t interval video_path due grab Ht Hi Htext Hts.
  pose proof (within_capture_window_floor t interval Ht Hi) as Hdue.
  fold due in Hdue.
  split; [done|]. split; [|split].
  - rewrite (transcriber_segment_step w video_path interval screenshots_dir
               start_time i j segment timestamp due st Htext Hts Hdue).
    destruct due; simpl; [|by rewrite app_nil_r].
    by destruct (Utils.extract_screenshot _ _ _ _) as [[]|].
  - rewrite (cli_segment_step w args skip model pdf_context screenshots_dir
               start_time i j segment timestamp due cst Htext Hts Hdue).
    destruct due; simpl; [|by rewrite app_nil_r].
    by destruct (VideoToText.extract_screenshot _ _ _ _) as [[]|].
  - unfold due. repeat split.
    + intros ->. by apply bool_decide_eq_true.
    + intros ->. by apply bool_decide_eq_true.
    + intros ->. by apply bool_decide_eq_false.
    + intros Hlarge ->. apply bool_decide_eq_false. lia.
Qed.

(** ** Rules of the program logic *)

Lemma for_each_cons {St A} (body : nat → A → M St unit) start x l (st : St) :
  for_each body start (x :: l) st
  = match body start x st with
    | (st', Ok _) => for_each body (S start) l st'
    | (st', Raise e) => (st', Raise e)
    end.
Proof. done. Qed.

Section hoare_rules.
Context {St : Type}.
Implicit Types (P E : St → Prop).

Lemma hoare_ret {A} (a : A) P (Q : A → St → Prop) E :
  (∀ st, P st → Q a st) → hoare P (mret a) Q E.
Proof. intros HQ st HP. by apply HQ. Qed.

Lemma hoare_bind {A B} (m : M St A) (k : A → M St B) P Q (R : B → St → Prop) E :
  hoare P m Q E → (∀ a, hoare (Q a) (k a) R E) → hoare P (m ≫= k) R E.
Proof.
  intros Hm Hk st HP. specialize (Hm st HP). msimpl.
  destruct (m st) as [st' [a|e]]; [by apply Hk|done].
Qed.

Lemma hoare_lift {A} (r : result A) P E :
  (∀ st, P st → E st) → hoare P (lift r) (λ a st, r = Ok a ∧ P st) E.
Proof. intros HE st HP. msimpl. destruct r; [done|by apply HE]. Qed.

Lemma hoare_lift_keep {A} (r : result A) P E :
  (∀ st, P st → E st) → hoare P (lift r) (λ _, P) E.
Proof. intros HE st HP. msimpl. destruct r; [done|by apply HE]. Qed.

Lemma hoare_modify (f : St → St) P (Q : unit → St → Prop) E :
  (∀ st, P st → Q () (f st)) → hoare P (modify f) Q E.
Proof. intros HQ st HP. by apply HQ. Qed.

Lemma hoare_get P E : hoare P get (λ a st, a = st ∧ P st) E.
Proof. by intros st HP. Qed.

Lemma hoare_try_except {A} (body : M St A) (handler : exn → M St A)
    P (Q : A → St → Prop) E' E :
  hoare P body Q E' → (∀ e, hoare E' (handler e) Q E) →
  hoare P (try_except body handler) Q E.
Proof.
  intros Hbody Hhandler st HP. specialize (Hbody st HP). unfold try_except.
  destruct (body st) as [st' [a|e]]; [done|by apply Hhandler].
Qed.

Lemma hoare_for_each {A} (body : nat → A → M St unit) (I : St → Prop) E
    (start : nat) (l : list A) :
  (∀ i x, hoare I (body i x) (λ _, I) E) →
  hoare I (for_each body start l) (λ _, I) E.
Proof.
  intros Hbody. revert start. induction l as [|x l IH]; intros start; simpl.
  - by apply hoare_ret.
  - eapply hoare_bind; [apply Hbody|]. intros ?. apply IH.
Qed.

Lemma hoare_consequence {A} (m : M St A) P P' (Q Q' : A → St → Prop) E E' :
  hoare P' m Q' E' → (∀ st, P st → P' st) →
  (∀ a st, Q' a st → Q a st) → (∀ st, E' st → E st) → hoare P m Q E.
Proof.
  intros Hm HP HQ HE st Hst. specialize (Hm st (HP st Hst)).
  destruct (m st) as [st' [a|e]]; [by apply HQ|by apply HE].
Qed.

End hoare_rules.

(** ** Screenshots and transcript entries *)

Section transcriber_invariant.
Context {S : Type}.
Variable w : World.
Variable progress_callback : option (string → string → Q → S → S).
Variables job_id video_path whisper_model : string.
Variables chunk_duration timestamp_interval : Z.

Lemma linked_append e (st : Transcriber.locals S) :
  linked st → linked (Transcriber.append_chunk e st).
Proof.
  intros Hst ts Hts. destruct (Hst ts Hts) as [text Hin].
  exists text. simpl. set_solver.
Qed.

Lemma linked_set_append ts path text (st : Transcriber.locals S) :
  linked st →
  linked (Transcriber.append_chunk (ts, text)
            (Transcriber.set_screenshot ts path st)).
Proof.
  intros Hst ts' Hts'. simpl in *.
  destruct (decide (ts = ts')) as [<-|Hne].
  - exists text. set_solver.
  - rewrite lookup_insert_ne in Hts' by done.
    destruct (Hst ts' Hts') as [text' Hin]. exists text'. set_solver.
Qed.

Lemma notify_linked text p E :
  hoare (@linked S) (Transcriber.notify progress_callback job_id text p)
    (λ _, linked) E.
Proof.
  unfold Transcriber.notify. destruct progress_callback as [cb|].
  - by apply hoare_modify.
  - by apply hoare_ret.
Qed.

Lemma process_segment_linked screenshots_dir start_time i j segment :
  hoare (@linked S)
    (Transcriber.process_segment w video_path timestamp_interval screenshots_dir
       start_time i j segment)
    (λ _, linked) linked.
Proof.
  intros st Hst. unfold Transcriber.process_segment.
  destruct (decide _) as [_|_]; [done|]. msimpl.
  destruct (Utils.format_timestamp _) as [ts|e]; simpl; [|done].
  destruct (within_capture_window _ _) as [[|]|e]; simpl; [| |done].
  - destruct (Utils.extract_screenshot _ _ _ _) as [[|]|e]; simpl; [| |done].
    + by apply (linked_set_append ts _ _ (Transcriber.log_call _ st)).
    + by apply (linked_append _ (Transcriber.log_call _ st)).
  - by apply linked_append.
Qed.

Lemma process_chunk_linked screenshots_dir n progress_per_chunk i cs E :
  hoare (@linked S)
    (Transcriber.process_chunk w progress_callback job_id video_path whisper_model
       timestamp_interval screenshots_dir n progress_per_chunk i cs)
    (λ _, linked) E.
Proof.
  destruct cs as [chunk start_time]. unfold Transcriber.process_chunk.
  eapply hoare_bind; [apply notify_linked|]. intros ?.
  eapply hoare_try_except with (E' := linked); [|intros e; by apply hoare_ret].
  eapply hoare_bind with (Q := λ _, linked).
  - unfold Transcriber.transcribe_audio_chunk_with_whisper.
    eapply hoare_bind with (Q := λ _, linked); [by apply hoare_modify|].
    intros ?. by apply hoare_lift_keep.
  - intros [raw segments].
    eapply hoare_bind; [|intros ?; apply notify_linked].
    apply hoare_for_each. intros j segment. apply process_segment_linked.
Qed.

Lemma persist_lookup output_dir (shots : gmap string string) ts :
  is_Some (Transcriber.persist w output_dir shots !! ts) → is_Some (shots !! ts).
Proof.
  unfold Transcriber.persist. rewrite lookup_omap.
  destruct (shots !! ts); [done|]. simpl. by intros [? ?].
Qed.

Lemma process_video_linked :
  hoare (@linked S)
    (Transcriber.process_video w progress_callback job_id video_path whisper_model
       chunk_duration timestamp_interval)
    (λ r _, shots_have_entries r.2 r.1) (λ _, True).
Proof.
  unfold Transcriber.process_video.
  eapply hoare_bind; [apply notify_linked|intros ?].
  eapply hoare_bind; [apply notify_linked|intros ?].
  eapply hoare_bind; [by apply hoare_lift_keep|intros ?].
  eapply hoare_bind; [apply notify_linked|intros ?].
  eapply hoare_bind; [by apply hoare_lift_keep|intros ?].
  eapply hoare_bind; [apply notify_linked|intros ?].
  eapply hoare_bind; [by apply hoare_lift_keep|].
  intros [[audio_chunks start_times] num_chunks].
  eapply hoare_bind; [apply notify_linked|intros ?].
  eapply hoare_bind;
    [apply hoare_for_each; intros i cs; apply process_chunk_linked|intros ?].
  eapply hoare_bind; [apply notify_linked|intros ?].
  eapply hoare_bind; [apply hoare_get|].
  intros st0 st [-> Hst]. unfold Transcriber.notify.
  assert (shots_have_entries
            (Transcriber.persist w
               (path_join (path_join (cwd w) "output") job_id)
               (Transcriber.screenshots st))
            (Transcriber.timestamped_chunks st)) as Hfinal.
  { intros ts Hts. apply Hst. by eapply persist_lookup. }
  by destruct progress_callback.
Qed.

End transcriber_invariant.

(** C10. Every time stamp label that is a key of the screenshots that
    [process_video] returns is the label of an entry of the transcript
    it returns, so that the PDF renderer attaches each screenshot to an
    entry. *)
Theorem screenshots_have_transcript_entries {S : Type} (w : World)
    (progress_callback : option (string → string → Q → S → S))
    (job_id video_path whisper_model output_pdf_path : string)
    (chunk_duration timestamp_interval : Z) (s0 : S)
    (st : Transcriber.locals S)
    (timestamped_chunks : list (string * string)) (screenshots : gmap string string) :
  Transcriber.process_video w progress_callback job_id video_path whisper_model
    chunk_duration timestamp_interval (Transcriber.initial s0)
  = (st, Ok (timestamped_chunks, screenshots)) →
  ∀ timestamp screenshot_path,
    screenshots !! timestamp = Some screenshot_path →
    (∃ text, (timestamp, text) ∈ timestamped_chunks)
    ∧ (timestamp, Some screenshot_path)
      ∈ (PdfGenerator.create_pdf_with_screenshots w timestamped_chunks
           screenshots output_pdf_path).2.
Proof.
  intros Hrun ts path Hts.
  pose proof (process_video_linked w progress_callback job_id video_path
                whisper_model chunk_duration timestamp_interval
                (Transcriber.initial s0)) as Hlinked.
  rewrite Hrun in Hlinked. simpl in Hlinked.
  assert (linked (Transcriber.initial s0)) as Hinit.
  { intros ts' Hts'. simpl in Hts'. rewrite lookup_empty in Hts'.
    by destruct Hts'. }
  destruct (Hlinked Hinit ts) as [text Hin]; [by exists path|].
  split; [by exists text|]. simpl.
  apply list_elem_of_fmap. exists (ts, text). by rewrite Hts.
Qed.

(** ** What a chunk adds to the transcript *)

Section alike_rules.
Context {S1 S2 : Type}.

Lemma alike_ret {A} (a : A) :
  alike (S1 := S1) (S2 := S2) (mret a) (mret a).
Proof. exists [], (Ok a). split; intros st; simpl; by rewrite app_nil_r. Qed.

Lemma alike_lift {A} (r : result A) :
  alike (S1 := S1) (S2 := S2) (lift r) (lift r).
Proof. exists [], r. split; intros st; simpl; by rewrite app_nil_r. Qed.

Lemma alike_modify (f1 : Transcriber.locals S1 → Transcriber.locals S1)
    (f2 : Transcriber.locals S2 → Transcriber.locals S2) es :
  (∀ st, Transcriber.timestamped_chunks (f1 st)
         = Transcriber.timestamped_chunks st ++ es) →
  (∀ st, Transcriber.timestamped_chunks (f2 st)
         = Transcriber.timestamped_chunks st ++ es) →
  alike (modify f1) (modify f2).
Proof. intros H1 H2. exists es, (Ok ()). by split; intros st; simpl. Qed.

Lemma appends_bind {S A B} (m : M (Transcriber.locals S) A)
    (k : A → M (Transcriber.locals S) B) es a es' r :
  appends m es (Ok a) → appends (k a) es' r → appends (m ≫= k) (es ++ es') r.
Proof.
  intros Hm Hk st. destruct (Hm st) as [Htc Hr]. msimpl.
  destruct (m st) as [st' r']. simpl in *. subst r'.
  destruct (Hk st') as [Htc' Hr']. by rewrite Htc', Htc, app_assoc.
Qed.

Lemma appends_bind_raise {S A B} (m : M (Transcriber.locals S) A)
    (k : A → M (Transcriber.locals S) B) es e :
  appends m es (Raise e) → appends (m ≫= k) es (Raise e).
Proof.
  intros Hm st. destruct (Hm st) as [Htc Hr]. msimpl.
  destruct (m st) as [st' r']. simpl in *. by subst r'.
Qed.

Lemma alike_bind {A B} (m1 : M (Transcriber.locals S1) A)
    (m2 : M (Transcriber.locals S2) A) k1 (k2 : A → M (Transcriber.locals S2) B) :
  alike m1 m2 → (∀ a, alike (k1 a) (k2 a)) → alike (m1 ≫= k1) (m2 ≫= k2).
Proof.
  intros (es & [a|e] & Hm1 & Hm2) Hk.
  - destruct (Hk a) as (es' & r & Hk1 & Hk2).
    exists (es ++ es'), r. split; by eapply appends_bind.
  - exists es, (Raise e). split; by apply appends_bind_raise.
Qed.

Lemma appends_try_ok {S A} (body : M (Transcriber.locals S) A) handler es a :
  appends body es (Ok a) → appends (try_except body handler) es (Ok a).
Proof.
  intros Hb st. destruct (Hb st) as [Htc Hr]. unfold try_except.
  destruct (body st) as [st' r']. simpl in *. by subst r'.
Qed.

Lemma appends_try_raise {S A} (body : M (Transcriber.locals S) A) handler
    es e es' r :
  appends body es (Raise e) → appends (handler e) es' r →
  appends (try_except body handler) (es ++ es') r.
Proof.
  intros Hb Hh st. destruct (Hb st) as [Htc Hr]. unfold try_except.
  destruct (body st) as [st' r']. simpl in *. subst r'.
  destruct (Hh st') as [Htc' Hr']. by rewrite Htc', Htc, app_assoc.
Qed.

Lemma alike_try_except {A} (b1 : M (Transcriber.locals S1) A)
    (b2 : M (Transcriber.locals S2) A) h1 h2 :
  alike b1 b2 → (∀ e, alike (h1 e) (h2 e)) →
  alike (try_except b1 h1) (try_except b2 h2).
Proof.
  intros (es & [a|e] & Hb1 & Hb2) Hh.
  - exists es, (Ok a). split; by apply appends_try_ok.
  - destruct (Hh e) as (es' & r & Hh1 & Hh2).
    exists (es ++ es'), r. split; by eapply appends_try_raise.
Qed.

Lemma alike_for_each {A} (b1 : nat → A → M (Transcriber.locals S1) unit)
    (b2 : nat → A → M (Transcriber.locals S2) unit) start l :
  (∀ i x, alike (b1 i x) (b2 i x)) →
  alike (for_each b1 start l) (for_each b2 start l).
Proof.
  intros Hb. revert start. induction l as [|x l IH]; intros start; simpl.
  - apply alike_ret.
  - apply alike_bind; [apply Hb|]. intros ?. apply IH.
Qed.

End alike_rules.

Section chunk_contribution.
Context {S : Type}.
Variable w : World.
Variable progress_callback : option (string → string → Q → S → S).
Variables job_id video_path whisper_model : string.
Variable timestamp_interval : Z.

Lemma notify_appends {S'} (cb : option (string → string → Q → S' → S'))
    job text p :
  appends (Transcriber.notify cb job text p) [] (Ok ()).
Proof.
  intros st. unfold Transcriber.notify.
  destruct cb; simpl; by rewrite app_nil_r.
Qed.

Lemma alike_notify {S1 S2} (cb1 : option (string → string → Q → S1 → S1))
    (cb2 : option (string → string → Q → S2 → S2)) job1 job2 text1 text2 p1 p2 :
  alike (Transcriber.notify cb1 job1 text1 p1)
    (Transcriber.notify cb2 job2 text2 p2).
Proof. exists [], (Ok ()). split; apply notify_appends. Qed.

Lemma alike_process_segment {S1 S2} screenshots_dir start_time i j segment :
  alike
    (Transcriber.process_segment (S := S1) w video_path timestamp_interval
       screenshots_dir start_time i j segment)
    (Transcriber.process_segment (S := S2) w video_path timestamp_interval
       screenshots_dir start_time i j segment).
Proof.
  unfold Transcriber.process_segment.
  destruct (decide _) as [_|_]; [apply alike_ret|].
  apply alike_bind; [apply alike_lift|]. intros timestamp.
  apply alike_bind; [apply alike_lift|]. intros due.
  apply alike_bind; [|intros ?; eapply alike_modify; intros st; simpl; reflexivity].
  destruct due; [|apply alike_ret].
  apply alike_bind.
  { apply alike_modify with (es := []); intros st; simpl; by rewrite app_nil_r. }
  intros ?. apply alike_bind; [apply alike_lift|]. intros captured.
  destruct captured; [|apply alike_ret].
  apply alike_modify with (es := []); intros st; simpl; by rewrite app_nil_r.
Qed.

Lemma alike_process_chunk {S1 S2}
    (cb1 : option (string → string → Q → S1 → S1))
    (cb2 : option (string → string → Q → S2 → S2))
    job1 job2 screenshots_dir n1 n2 ppc1 ppc2 i cs :
  alike
    (Transcriber.process_chunk w cb1 job1 video_path whisper_model
       timestamp_interval screenshots_dir n1 ppc1 i cs)
    (Transcriber.process_chunk w cb2 job2 video_path whisper_model
       timestamp_interval screenshots_dir n2 ppc2 i cs).
Proof.
  destruct cs as [chunk start_time]. unfold Transcriber.process_chunk.
  apply alike_bind; [apply alike_notify|]. intros ?.
  apply alike_try_except; [|intros e; apply alike_ret].
  apply alike_bind.
  { unfold Transcriber.transcribe_audio_chunk_with_whisper.
    apply alike_bind; [|intros ?; apply alike_lift].
    apply alike_modify with (es := []); intros st; simpl; by rewrite app_nil_r. }
  intros [raw segments].
  apply alike_bind; [|intros ?; apply alike_notify].
  apply alike_for_each. intros j segment. apply alike_process_segment.
Qed.

Abbreviation process_chunk_here n ppc :=
  (Transcriber.process_chunk w progress_callback job_id video_path whisper_model
     timestamp_interval (path_join (temp_dir w) "screenshots") n ppc).

(** The loop body never raises. *)
Lemma process_chunk_returns n ppc i cs (st : Transcriber.locals S) :
  (process_chunk_here n ppc i cs st).2 = Ok ().
Proof.
  destruct cs as [chunk start_time]. unfold Transcriber.process_chunk.
  msimpl. destruct (Transcriber.notify _ _ _ _ st) as [st1 [[]|e]] eqn:Hn.
  2:{ pose proof (notify_appends progress_callback job_id
        ("Transcribing chunk " +:+ pretty (i + 1)%nat +:+ "/" +:+ pretty n +:+ "...")
        (25 + inject_Z (Z.of_nat i) * ppc)%Q st) as [_ Hr].
      rewrite Hn in Hr. done. }
  by destruct (match whisper_run w i with Ok a => _ | Raise e => _ end)
    as [st2 [[]|e]].
Qed.

(** The loop body appends the contribution of its chunk. *)
Lemma process_chunk_transcript n ppc i cs (st : Transcriber.locals S) :
  Transcriber.timestamped_chunks (process_chunk_here n ppc i cs st).1
  = Transcriber.timestamped_chunks st
    ++ chunk_contribution w video_path whisper_model timestamp_interval i cs.
Proof.
  destruct (alike_process_chunk progress_callback (None (A := _ → _ → _ → unit → unit))
              job_id EmptyString (path_join (temp_dir w) "screenshots")
              n 0%nat ppc 0%Q i cs) as (es & r & H1 & H2).
  destruct (H1 st) as [-> _].
  destruct (H2 (Transcriber.initial ())) as [Hes _].
  unfold chunk_contribution. by rewrite Hes.
Qed.

Lemma chunks_loop_transcript n ppc (l : list (string * Z)) start
    (st : Transcriber.locals S) :
  let run := for_each (process_chunk_here n ppc) start l st in
  Transcriber.timestamped_chunks run.1
  = Transcriber.timestamped_chunks st
    ++ concat (imap (λ i cs,
         chunk_contribution w video_path whisper_model timestamp_interval
           (start + i) cs) l)
  ∧ run.2 = Ok ().
Proof.
  revert start st. induction l as [|cs l IH]; intros start st; simpl.
  - by rewrite app_nil_r.
  - msimpl.
    pose proof (process_chunk_returns n ppc start cs st) as Hr.
    pose proof (process_chunk_transcript n ppc start cs st) as Htc.
    destruct (process_chunk_here n ppc start cs st) as [st1 r]. simpl in *.
    subst r. destruct (IH (Datatypes.S start) st1) as [IHtc IHr].
    split; [|done]. rewrite IHtc, Htc, <- app_assoc, Nat.add_0_r.
    do 3 f_equal. apply imap_ext. intros i x _. simpl. f_equal. lia.
Qed.

End chunk_contribution.

(** ** The calls to the speech model *)

Lemma transcribe_calls_grab cs video_path output_path timestamp :
  transcribe_calls (cs ++ [CallExtractScreenshot video_path output_path timestamp])
  = transcribe_calls cs.
Proof.
  unfold transcribe_calls. rewrite filter_app, filter_cons_False by done.
  by rewrite filter_nil, app_nil_r.
Qed.

Lemma transcribe_calls_transcribe cs audio_chunk model_size :
  transcribe_calls (cs ++ [CallTranscribe audio_chunk model_size])
  = transcribe_calls cs ++ [CallTranscribe audio_chunk model_size].
Proof.
  unfold transcribe_calls. by rewrite filter_app, filter_cons_True by done.
Qed.

Section transcribe_calls.
Context {S : Type}.
Variable w : World.
Variable progress_callback : option (string → string → Q → S → S).
Variables job_id video_path whisper_model : string.
Variable timestamp_interval : Z.

Lemma notify_transcribed X text p E :
  hoare (transcribed (S := S) X) (Transcriber.notify progress_callback job_id text p)
    (λ _, transcribed X) E.
Proof.
  unfold Transcriber.notify. destruct progress_callback as [cb|].
  - by apply hoare_modify.
  - by apply hoare_ret.
Qed.

Lemma process_segment_transcribed X screenshots_dir start_time i j segment :
  hoare (transcribed (S := S) X)
    (Transcriber.process_segment w video_path timestamp_interval screenshots_dir
       start_time i j segment)
    (λ _, transcribed X) (transcribed X).
Proof.
  intros st Hst. unfold Transcriber.process_segment.
  destruct (decide _) as [_|_]; [done|]. msimpl.
  destruct (Utils.format_timestamp _) as [ts|e]; simpl; [|done].
  destruct (within_capture_window _ _) as [[|]|e]; simpl; [| |done].
  - destruct (Utils.extract_screenshot _ _ _ _) as [[|]|e]; simpl;
      unfold transcribed; simpl; by rewrite transcribe_calls_grab.
  - done.
Qed.

Lemma process_chunk_transcribed X screenshots_dir n ppc i chunk start_time :
  hoare (transcribed (S := S) X)
    (Transcriber.process_chunk w progress_callback job_id video_path whisper_model
       timestamp_interval screenshots_dir n ppc i (chunk, start_time))
    (λ _, transcribed (X ++ [CallTranscribe chunk whisper_model])) (λ _, False).
Proof.
  unfold Transcriber.process_chunk.
  eapply hoare_bind; [apply notify_transcribed|]. intros ?.
  eapply hoare_try_except
    with (E' := transcribed (X ++ [CallTranscribe chunk whisper_model]));
    [|intros e; by apply hoare_ret].
  eapply hoare_bind
    with (Q := λ _, transcribed (X ++ [CallTranscribe chunk whisper_model])).
  - unfold Transcriber.transcribe_audio_chunk_with_whisper.
    eapply hoare_bind
      with (Q := λ _, transcribed (X ++ [CallTranscribe chunk whisper_model])).
    + apply hoare_modify. intros st <-. apply transcribe_calls_transcribe.
    + intros ?. by apply hoare_lift_keep.
  - intros [raw segments].
    eapply hoare_bind; [|intros ?; apply notify_transcribed].
    apply hoare_for_each. intros j segment. apply process_segment_transcribed.
Qed.

Lemma chunks_loop_calls screenshots_dir n ppc (l : list (string * Z)) start
    (st : Transcriber.locals S) :
  transcribe_calls
    (Transcriber.calls
       (for_each
          (Transcriber.process_chunk w progress_callback job_id video_path
             whisper_model timestamp_interval screenshots_dir n ppc)
          start l st).1)
  = transcribe_calls (Transcriber.calls st)
    ++ ((λ cs, CallTranscribe cs.1 whisper_model) <$> l).
Proof.
  revert start st. induction l as [|[chunk start_time] l IH]; intros start st.
  - simpl. by rewrite app_nil_r.
  - rewrite for_each_cons, fmap_cons.
    pose proof (process_chunk_transcribed _ screenshots_dir n ppc start chunk
                  start_time st eq_refl) as Hchunk.
    destruct (Transcriber.process_chunk _ _ _ _ _ _ _ _ _ _ _ st) as [st1 [[]|e]];
      [|done].
    rewrite IH, Hchunk. by rewrite <- app_assoc.
Qed.

End transcribe_calls.

(** ** The run of [process_video] *)

Lemma split_same_length w audio_path chunk_dir D chunk_files timestamps n :
  Utils.split_audio_into_chunks w audio_path chunk_dir D
  = Ok (chunk_files, timestamps, n) →
  length chunk_files = length timestamps.
Proof.
  unfold Utils.split_audio_into_chunks.
  destruct (negb (wav_exists w)); [done|].
  destruct (probe_run w) as [L|e]; simpl; [|done].
  destruct (decide (D = 0)); [done|].
  pose proof (carve_chunks_spec w chunk_dir D
                (seq 0 (Z.to_nat (py_int (L / inject_Z D) + 1))) [] []) as Hloop.
  destruct (Utils.carve_chunks _ _ _ _ _ _) as [[files ts]|e]; simpl; [|done].
  destruct Hloop as [-> ->]. intros [= <- <- <-]. simpl.
  by rewrite !length_fmap.
Qed.

Section process_video_run.
Context {S : Type}.
Variable w : World.
Variable progress_callback : option (string → string → Q → S → S).
Variables job_id video_path whisper_model : string.
Variables chunk_duration timestamp_interval : Z.

Lemma process_video_run (st : Transcriber.locals S) audio_chunks start_times n :
  Utils.extract_audio_from_video w video_path (path_join (temp_dir w) "audio.mp3")
  = Ok () →
  Utils.convert_audio_to_wav w (path_join (temp_dir w) "audio.mp3")
    (path_join (temp_dir w) "audio.wav") = Ok () →
  Utils.split_audio_into_chunks w (path_join (temp_dir w) "audio.wav")
    (path_join (temp_dir w) "chunks") chunk_duration
  = Ok (audio_chunks, start_times, n) →
  ∃ st' shots,
    Transcriber.process_video w progress_callback job_id video_path whisper_model
      chunk_duration timestamp_interval st
    = (st',
       Ok (Transcriber.timestamped_chunks st
           ++ concat (imap (chunk_contribution w video_path whisper_model
                              timestamp_interval)
                        (zip audio_chunks start_times)),
           shots))
    ∧ transcribe_calls (Transcriber.calls st')
      = transcribe_calls (Transcriber.calls st)
        ++ ((λ c, CallTranscribe c whisper_model) <$> audio_chunks).
Proof.
  intros Hextract Hconvert Hsplit.
  pose proof (split_same_length _ _ _ _ _ _ _ Hsplit) as Hlen.
  assert ((λ cs : string * Z, CallTranscribe cs.1 whisper_model)
            <$> zip audio_chunks start_times
          = (λ c, CallTranscribe c whisper_model) <$> audio_chunks) as Hfst.
  { rewrite <- (fst_zip audio_chunks start_times) at 2 by lia.
    by rewrite <- list_fmap_compose. }
  unfold Transcriber.process_video.
  set (ppc := if decide (0 < length audio_chunks)%nat
              then (70 / inject_Z (Z.of_nat (length audio_chunks)))%Q else 0%Q).
  assert (∀ st0 : Transcriber.locals S,
    Transcriber.timestamped_chunks st0 = Transcriber.timestamped_chunks st →
    Transcriber.calls st0 = Transcriber.calls st →
    ∃ st1,
      for_each
        (Transcriber.process_chunk w progress_callback job_id video_path
           whisper_model timestamp_interval
           (path_join (temp_dir w) "screenshots") (length audio_chunks) ppc)
        0 (zip audio_chunks start_times) st0 = (st1, Ok ())
      ∧ Transcriber.timestamped_chunks st1
        = Transcriber.timestamped_chunks st
          ++ concat (imap (chunk_contribution w video_path whisper_model
                             timestamp_interval)
                       (zip audio_chunks start_times))
      ∧ transcribe_calls (Transcriber.calls st1)
        = transcribe_calls (Transcriber.calls st)
          ++ ((λ c, CallTranscribe c whisper_model) <$> audio_chunks)) as Hloop.
  { intros st0 Htc Hcalls.
    pose proof (chunks_loop_transcript w progress_callback job_id video_path
                  whisper_model timestamp_interval (length audio_chunks) ppc
                  (zip audio_chunks start_times) 0 st0) as [Htc' Hr].
    pose proof (chunks_loop_calls w progress_callback job_id video_path
                  whisper_model timestamp_interval
                  (path_join (temp_dir w) "screenshots") (length audio_chunks) ppc
                  (zip audio_chunks start_times) 0 st0) as Hcalls'.
    destruct (for_each _ _ _ st0) as [st1 r]. simpl in *. subst r.
    exists st1. by rewrite Htc', Hcalls', Htc, Hcalls, Hfst. }
  destruct progress_callback as [cb|]; msimpl;
    rewrite Hextract; simpl; rewrite Hconvert; simpl; rewrite Hsplit; simpl;
    fold ppc.
  - edestruct Hloop as (st1 & Hrun & Htc & Hcalls);
      [| |rewrite Hrun; simpl; do 2 eexists; split; [by rewrite Htc|done]]; done.
  - edestruct Hloop as (st1 & Hrun & Htc & Hcalls);
      [| |rewrite Hrun; simpl; do 2 eexists; split; [by rewrite Htc|done]]; done.
Qed.

End process_video_run.

(** ** A chunk whose transcription succeeds *)

Lemma extract_screenshot_returns g video_path output_path timestamp :
  grab_video_exists g = true →
  ∃ captured,
    Utils.extract_screenshot g video_path output_path timestamp = Ok captured.
Proof.
  intros Hg. unfold Utils.extract_screenshot. rewrite Hg. simpl.
  destruct (grab_run g); [by eexists|]. by destruct (_ || _); eexists.
Qed.

Lemma segment_entries_cons start_time segment segments :
  segment_entries start_time (segment :: segments)
  = (if decide (stripped_text segment = EmptyString) then []
     else match Utils.format_timestamp (absolute_offset start_time segment) with
          | Ok timestamp => [(timestamp, stripped_text segment)]
          | Raise e => []
          end)
    ++ segment_entries start_time segments.
Proof.
  unfold segment_entries. simpl.
  destruct (decide _); [done|]. by destruct (Utils.format_timestamp _).
Qed.

Lemma segments_loop_entries {S : Type} (w : World) video_path timestamp_interval
    screenshots_dir start_time (i : nat) (segments : list Segment) (j : nat)
    (st : Transcriber.locals S) :
  timestamp_interval ≠ 0 →
  (∀ j, grab_video_exists (shot_run w i j) = true) →
  Forall (λ segment,
            stripped_text segment = EmptyString
            ∨ ∃ timestamp,
                Utils.format_timestamp (absolute_offset start_time segment)
                = Ok timestamp) segments →
  Transcriber.timestamped_chunks
    (for_each
       (Transcriber.process_segment w video_path timestamp_interval
          screenshots_dir start_time i) j segments st).1
  = Transcriber.timestamped_chunks st ++ segment_entries start_time segments
  ∧ (for_each
       (Transcriber.process_segment w video_path timestamp_interval
          screenshots_dir start_time i) j segments st).2 = Ok ().
Proof.
  intros Hinterval Hvideo Hsegments. revert j st.
  induction Hsegments as [|segment segments Hsegment _ IH]; intros j st.
  - simpl. by rewrite app_nil_r.
  - rewrite for_each_cons, segment_entries_cons.
    destruct (decide (stripped_text segment = EmptyString)) as [Hempty|Htext].
    + rewrite transcriber_segment_empty by done. apply IH.
    + destruct Hsegment as [?|[timestamp Hts]]; [done|]. rewrite Hts.
      assert (∃ due, within_capture_window (absolute_offset start_time segment)
                       timestamp_interval = Ok due) as [due Hdue].
      { unfold within_capture_window, py_mod.
        rewrite decide_False by done. by eexists. }
      rewrite (transcriber_segment_step w video_path timestamp_interval
                 screenshots_dir start_time i j segment timestamp due st Htext
                 Hts Hdue).
      destruct due.
      * destruct (extract_screenshot_returns (shot_run w i j) video_path
                    (screenshot_file screenshots_dir
                       (absolute_offset start_time segment)) timestamp
                    (Hvideo j)) as [captured ->].
        destruct captured;
          match goal with
          | |- context [for_each _ _ _ ?st1] =>
              destruct (IH (Datatypes.S j) st1) as [-> ->]
          end; simpl; by rewrite <- app_assoc.
      * match goal with
        | |- context [for_each _ _ _ ?st1] =>
            destruct (IH (Datatypes.S j) st1) as [-> ->]
        end. simpl. by rewrite <- app_assoc.
Qed.

(** The contribution of a chunk that is transcribed, when no frame grab
    raises and every label can be formatted: one entry for each segment
    with a text. *)
Lemma surviving_chunk_contribution (w : World) video_path whisper_model
    timestamp_interval (i : nat) chunk start_time raw segments :
  whisper_run w i = Ok (raw, segments) →
  timestamp_interval ≠ 0 →
  (∀ j, grab_video_exists (shot_run w i j) = true) →
  Forall (λ segment,
            stripped_text segment = EmptyString
            ∨ ∃ timestamp,
                Utils.format_timestamp (absolute_offset start_time segment)
                = Ok timestamp) segments →
  chunk_contribution w video_path whisper_model timestamp_interval i
    (chunk, start_time)
  = segment_entries start_time segments.
Proof.
  intros Hwhisper Hinterval Hvideo Hsegments.
  unfold chunk_contribution, Transcriber.process_chunk. msimpl.
  rewrite Hwhisper. simpl.
  match goal with
  | |- context [for_each ?body ?j ?l ?st1] =>
      pose proof (segments_loop_entries w video_path timestamp_interval
                    (path_join (temp_dir w) "screenshots") start_time i segments
                    j st1 Hinterval Hvideo Hsegments) as [Htc Hr];
      destruct (for_each body j l st1) as [st2 r]
  end.
  simpl in *. subst r. simpl. by rewrite Htc.
Qed.

(** ** A chunk whose transcription fails *)

Lemma failed_chunk_contribution w video_path whisper_model timestamp_interval
    (k : nat) (e : exn) cs :
  whisper_run w k = Raise e →
  chunk_contribution w video_path whisper_model timestamp_interval k cs = [].
Proof.
  intros Hk. destruct cs as [chunk start_time].
  unfold chunk_contribution, Transcriber.process_chunk. msimpl. by rewrite Hk.
Qed.


(** ** The text-correction stage *)

Lemma for_each_ext {St A} (f g : nat → A → M St unit) start l (st : St) :
  (∀ i x st', f i x st' = g i x st') →
  for_each f start l st = for_each g start l st.
Proof.
  intros Hfg. revert start st. induction l as [|x l IH]; intros start st; [done|].
  rewrite !for_each_cons, Hfg.
  destruct (g start x st) as [st' [[]|e]]; [apply IH|done].
Qed.

Section correction.
Variable w : World.
Hypothesis Hfails : correction_fails w.

Lemma improve_falls_back text model_name pdf_context :
  text ≠ EmptyString →
  VideoToText.improve_transcription_with_ollama w text model_name pdf_context
  = Ok text.
Proof.
  intros Htext. unfold VideoToText.improve_transcription_with_ollama.
  rewrite decide_False by done.
  match goal with
  | |- context [ollama_generate_run w ?m ?p] =>
      pose proof (Hfails m p) as Hcall; by destruct (ollama_generate_run w m p)
  end.
Qed.

Lemma improved_keeps_text skip model pdf_context text :
  VideoToText.improved w skip model pdf_context text = text.
Proof.
  unfold VideoToText.improved. destruct (negb skip); [|done].
  destruct (decide (text = EmptyString)) as [->|Htext].
  - unfold VideoToText.improve_transcription_with_ollama.
    by rewrite decide_True.
  - by rewrite improve_falls_back.
Qed.

Lemma process_chunk_without_correction args skip model model' pdf_context
    screenshots_dir i cs st :
  VideoToText.process_chunk w args skip model pdf_context screenshots_dir i cs st
  = VideoToText.process_chunk w (with_skip_ollama args) true model' pdf_context
      screenshots_dir i cs st.
Proof.
  destruct cs as [chunk start_time]. unfold VideoToText.process_chunk.
  unfold try_except. msimpl.
  destruct (whisper_run w i) as [[raw segments]|e]; [|done].
  destruct segments as [|segment segments].
  - unfold VideoToText.process_whole_chunk.
    by rewrite !improved_keeps_text.
  - erewrite for_each_ext; [done|]. intros j x st'.
    unfold VideoToText.process_segment.
    by rewrite !improved_keeps_text.
Qed.

Lemma main_without_correction args st :
  VideoToText.main w args st = VideoToText.main w (with_skip_ollama args) st.
Proof.
  unfold VideoToText.main. msimpl.
  destruct (VideoToText.extract_audio_from_video _ _ _) as [[]|e]; [|done].
  destruct (VideoToText.convert_audio_to_wav _ _ _) as [[]|e]; [|done].
  destruct (VideoToText.split_audio_into_chunks _ _ _ _)
    as [[audio_chunks start_times]|e]; [|done].
  destruct (VideoToText.truthy (VideoToText.pdf args)).
  - msimpl. destruct (VideoToText.extract_text_from_pdf _ _) as [text|e]; [|done].
    erewrite for_each_ext; [done|].
    intros i cs st'. apply process_chunk_without_correction.
  - msimpl. erewrite for_each_ext; [done|].
    intros i cs st'. apply process_chunk_without_correction.
Qed.

End correction.


(** ** Progress of a job *)

(** C2. With eight chunks the progress written to the job record goes
    from 90.625 after the last chunk down to 90 at the end of the
    transcription: the sequence of progress values is not monotone. *)
Theorem progress_drops_with_eight_chunks :
  let run :=
    App.process_video_thread eight_chunks "job1" "talk.mp4" "base" 300 30
      (App.create_new_job "job1" (Some "talk.mp4") empty_disk) in
  (status <$> job_files run.1 !! "job1") = Some (Some "Completed")
  ∧ Qred <$> progress_history "job1" run.1
    = [0; 0; 0; 5; 10; 15; 20; 25; 235 # 8; 135 # 4; 305 # 8; 85 # 2; 375 # 8;
       205 # 4; 445 # 8; 60; 515 # 8; 275 # 4; 585 # 8; 155 # 2; 655 # 8;
       345 # 4; 725 # 8; 90; 95; 95; 98; 100]%Q
  ∧ nondecreasing (progress_history "job1" run.1) = false.
Proof. by vm_compute. Qed.

(** ** Failure of a frame grab *)

(** C8. [extract_screenshot] of [modules/utils.py] returns [False] when
    ffmpeg exits with a non-zero status and when the output file is
    missing or empty, and the interactive job completes with its
    transcript and no screenshot; [extract_screenshot] of
    [video_to_text.py] raises on a non-zero exit status, and the
    command-line run loses the entries of the chunk. *)
Theorem frame_grab_failure :
  (∀ e file_exists size video_path output_path timestamp,
     Utils.extract_screenshot
       {| grab_video_exists := true; grab_run := Some e;
          grab_file_exists := file_exists; grab_file_size := size |}
       video_path output_path timestamp = Ok false)
  ∧ (∀ size video_path output_path timestamp,
       Utils.extract_screenshot
         {| grab_video_exists := true; grab_run := None;
            grab_file_exists := false; grab_file_size := size |}
         video_path output_path timestamp = Ok false)
  ∧ (∀ file_exists video_path output_path timestamp,
       Utils.extract_screenshot
         {| grab_video_exists := true; grab_run := None;
            grab_file_exists := file_exists; grab_file_size := 0 |}
         video_path output_path timestamp = Ok false)
  ∧ (∀ e video_exists file_exists size video_path output_path timestamp,
       VideoToText.extract_screenshot
         {| grab_video_exists := video_exists; grab_run := Some e;
            grab_file_exists := file_exists; grab_file_size := size |}
         video_path output_path timestamp = Raise e)
  ∧ (Transcriber.process_video no_frames (S := unit) None "job1" "talk.mp4"
       "base" 60 30 (Transcriber.initial ())).2
    = Ok ([("0:00:00", "Hello."); ("0:00:07", "Goodbye.")], ∅)
  ∧ (VideoToText.main no_frames sample_args VideoToText.initial).2
    = Ok ([], ∅, Some true).
Proof.
  repeat split; try done.
  intros file_exists video_path output_path timestamp.
  unfold Utils.extract_screenshot. simpl. by rewrite orb_true_r.
Qed.

(** ** The plain-text transcript *)

Lemma string_app_cons (x : ascii) (a b : string) :
  String x a +:+ b = String x (a +:+ b).
Proof. done. Qed.

Lemma string_app_nil_l (b : string) : EmptyString +:+ b = b.
Proof. done. Qed.

Ltac ssimpl := rewrite ?string_app_cons, ?string_app_nil_l.

Lemma string_app_assoc (a b c : string) : (a +:+ b) +:+ c = a +:+ b +:+ c.
Proof. induction a as [|x a IH]; ssimpl; [done|by rewrite IH]. Qed.

Lemma string_app_nil_r (a : string) : a +:+ EmptyString = a.
Proof. induction a as [|x a IH]; ssimpl; [done|by rewrite IH]. Qed.

Ltac snorm :=
  repeat (rewrite string_app_assoc || rewrite string_app_cons
          || rewrite string_app_nil_l).

Lemma write_entries_app tc f :
  PdfGenerator.write_entries tc f
  = f +:+ PdfGenerator.write_entries tc EmptyString.
Proof.
  revert f. induction tc as [|[ts text] tc IH]; intros f; simpl.
  - by rewrite string_app_nil_r.
  - rewrite IH, (IH (EmptyString +:+ entry ts text)).
    by rewrite string_app_assoc.
Qed.

Lemma write_entries_cons e tc :
  PdfGenerator.write_entries (e :: tc) EmptyString
  = block e +:+ String LF (String LF (PdfGenerator.write_entries tc EmptyString)).
Proof.
  destruct e as [ts text]. simpl. rewrite write_entries_app.
  unfold entry, block, nl, LF. simpl. by snorm.
Qed.

Lemma split_blocks_block b rest cur :
  no_blank_line b = true →
  split_blocks (b +:+ String LF (String LF rest)) cur
  = (cur +:+ b) :: split_blocks rest EmptyString.
Proof.
  revert cur. induction b as [|c b IH]; intros cur Hb.
  - ssimpl. simpl. by rewrite string_app_nil_r.
  - assert (cur +:+ String c b = (cur +:+ String c EmptyString) +:+ b) as ->.
    { by rewrite string_app_assoc. }
    destruct b as [|c' b].
    + simpl in Hb. apply negb_true_iff, bool_decide_eq_false in Hb.
      ssimpl. simpl. rewrite decide_False by (by intros [? _]).
      simpl. by rewrite string_app_nil_r.
    + simpl in Hb. apply andb_true_iff in Hb as [Hc Hb].
      apply negb_true_iff, bool_decide_eq_false in Hc.
      rewrite <- (IH _ Hb). ssimpl. simpl. by rewrite decide_False.
Qed.

Lemma no_blank_line_app a b :
  no_line_feed a = true → no_blank_line b = true → no_blank_line (a +:+ b) = true.
Proof.
  intros Ha Hb. induction a as [|c a IH]; [done|].
  simpl in Ha. apply andb_true_iff in Ha as [Hc Ha].
  specialize (IH Ha). ssimpl. simpl.
  apply negb_true_iff, bool_decide_eq_false in Hc.
  destruct (a +:+ b) as [|c' s].
  - by apply negb_true_iff, bool_decide_eq_false.
  - rewrite IH, andb_true_r. apply negb_true_iff, bool_decide_eq_false.
    by intros [? _].
Qed.

Lemma plain_label_no_line_feed ts : plain_label ts = true → no_line_feed ts = true.
Proof.
  induction ts as [|c ts IH]; [done|]. simpl.
  rewrite !andb_true_iff. intros [[_ ?] ?]. auto.
Qed.

Lemma no_line_feed_app a b :
  no_line_feed a = true → no_line_feed b = true → no_line_feed (a +:+ b) = true.
Proof.
  intros Ha Hb. induction a as [|c a IH]; [done|]. ssimpl. simpl in *.
  apply andb_true_iff in Ha as [-> Ha]. auto.
Qed.

Lemma block_no_blank_line e : well_formed_entry e → no_blank_line (block e) = true.
Proof.
  intros [Hts Htext]. unfold block.
  rewrite <- !string_app_assoc. apply no_blank_line_app; [|done].
  apply no_line_feed_app; [|done].
  apply (no_line_feed_app "["); [done|by apply plain_label_no_line_feed].
Qed.

Lemma cut_label_found ts text label :
  plain_label ts = true →
  cut_label (ts +:+ "] " +:+ text) label = Some (label +:+ ts, text).
Proof.
  revert label. induction ts as [|c ts IH]; intros label Hts.
  - ssimpl. simpl. by rewrite string_app_nil_r.
  - simpl in Hts. apply andb_true_iff in Hts as [Hc Hts].
    apply andb_true_iff in Hc as [Hc _].
    apply negb_true_iff, bool_decide_eq_false in Hc.
    assert (label +:+ String c ts = (label +:+ String c EmptyString) +:+ ts) as ->.
    { by rewrite string_app_assoc. }
    rewrite <- (IH _ Hts).
    destruct ts; ssimpl; simpl; by rewrite decide_False by (by intros [? _]).
Qed.

Lemma parse_block_block e : well_formed_entry e → parse_block (block e) = Some e.
Proof.
  intros [Hts _]. destruct e as [ts text]. unfold block, parse_block. simpl.
  rewrite string_app_nil_l.
  by rewrite cut_label_found.
Qed.

Lemma split_blocks_rendering tc :
  Forall well_formed_entry tc →
  split_blocks (PdfGenerator.write_entries tc EmptyString) EmptyString
  = (block <$> tc) ++ [EmptyString].
Proof.
  induction 1 as [|e tc He _ IH]; [done|].
  rewrite write_entries_cons, split_blocks_block by by apply block_no_blank_line.
  by rewrite IH.
Qed.

Lemma parse_blocks tc :
  Forall well_formed_entry tc →
  mapM parse_block (filter (λ b, b ≠ EmptyString) ((block <$> tc) ++ [EmptyString]))
  = Some tc.
Proof.
  induction 1 as [|e tc He _ IH]; [done|].
  rewrite fmap_cons. simpl. rewrite IH. simpl.
  rewrite string_app_nil_l, cut_label_found by apply He. by destruct e.
Qed.

Lemma write_entries_snoc tc e f :
  PdfGenerator.write_entries (tc ++ [e]) f
  = PdfGenerator.write_entries tc f +:+ entry e.1 e.2.
Proof.
  revert f. induction tc as [|[ts text] tc IH]; intros f; [by destruct e|].
  simpl. apply IH.
Qed.

Lemma file_is_rendering_entry timestamp text (st : VideoToText.locals) :
  file_is_rendering st →
  file_is_rendering
    (VideoToText.write (entry timestamp text)
       (VideoToText.append_chunk (timestamp, text) st)).
Proof.
  unfold file_is_rendering. simpl. intros ->. by rewrite write_entries_snoc.
Qed.

Section cli_file.
Variable w : World.
Variable args : VideoToText.Args.
Variable skip : bool.
Variables model pdf_context : option string.
Variable screenshots_dir : string.

Lemma cli_process_segment_file start_time i j segment :
  hoare file_is_rendering
    (VideoToText.process_segment w args skip model pdf_context screenshots_dir
       start_time i j segment)
    (λ _, file_is_rendering) file_is_rendering.
Proof.
  intros st Hst. unfold VideoToText.process_segment.
  destruct (decide _) as [_|_]; [done|]. msimpl.
  destruct (VideoToText.format_timestamp _) as [ts|e]; simpl; [|done].
  destruct (within_capture_window _ _) as [[|]|e]; simpl; [| |done].
  - destruct (VideoToText.extract_screenshot _ _ _ _) as [[|]|e]; simpl;
      [| |done].
    + by apply (file_is_rendering_entry ts _
                  (VideoToText.set_screenshot _ _ (VideoToText.log_call _ st))).
    + by apply (file_is_rendering_entry ts _ (VideoToText.log_call _ st)).
  - by apply file_is_rendering_entry.
Qed.

Lemma cli_process_whole_chunk_file start_time i raw :
  hoare file_is_rendering
    (VideoToText.process_whole_chunk w args skip model pdf_context
       screenshots_dir start_time i raw)
    (λ _, file_is_rendering) file_is_rendering.
Proof.
  intros st Hst. unfold VideoToText.process_whole_chunk. msimpl.
  destruct (VideoToText.format_timestamp _) as [ts|e]; simpl; [|done].
  destruct (VideoToText.extract_screenshot _ _ _ _) as [[|]|e]; simpl; [| |done].
  - by apply (file_is_rendering_entry ts _
                (VideoToText.set_screenshot _ _ (VideoToText.log_call _ st))).
  - by apply (file_is_rendering_entry ts _ (VideoToText.log_call _ st)).
Qed.

Lemma cli_process_chunk_file i cs E :
  hoare file_is_rendering
    (VideoToText.process_chunk w args skip model pdf_context screenshots_dir i cs)
    (λ _, file_is_rendering) E.
Proof.
  destruct cs as [chunk start_time]. unfold VideoToText.process_chunk.
  eapply hoare_try_except with (E' := file_is_rendering);
    [|intros e; by apply hoare_ret].
  eapply hoare_bind with (Q := λ _, file_is_rendering).
  - unfold VideoToText.transcribe_audio_chunk_with_whisper.
    eapply hoare_bind with (Q := λ _, file_is_rendering);
      [by apply hoare_modify|].
    intros ?. by apply hoare_lift_keep.
  - intros [raw [|segment segments]].
    + apply cli_process_whole_chunk_file.
    + apply hoare_for_each. intros j x. apply cli_process_segment_file.
Qed.

End cli_file.

Lemma main_file_is_rendering (w : World) (args : VideoToText.Args) :
  hoare file_is_rendering (VideoToText.main w args)
    (λ r st, file_is_rendering st ∧ r.1.1 = VideoToText.timestamped_chunks st)
    (λ _, True).
Proof.
  unfold VideoToText.main.
  eapply hoare_bind; [by apply hoare_lift_keep|intros ?].
  eapply hoare_bind; [by apply hoare_lift_keep|intros ?].
  eapply hoare_bind; [by apply hoare_lift_keep|].
  intros [audio_chunks start_times].
  eapply hoare_bind with (Q := λ _, file_is_rendering).
  { destruct (VideoToText.truthy (VideoToText.pdf args)); [|by apply hoare_ret].
    eapply hoare_bind; [by apply hoare_lift_keep|].
    intros ?. by apply hoare_ret. }
  intros ctx.
  eapply hoare_bind;
    [apply hoare_for_each; intros i cs; apply cli_process_chunk_file|intros ?].
  eapply hoare_bind; [apply hoare_get|].
  intros st0. apply hoare_ret. by intros st [-> Hst].
Qed.

(** C9, as stated, fails: a text with a blank line in it is rendered like
    two entries, so that no reader recovers every transcript. *)
Lemma blank_line_breaks_round_trip :
  PdfGenerator.write_entries [("0:00:00", two_paragraphs)] EmptyString
  = PdfGenerator.write_entries
      [("0:00:00", "First."); ("0:00:05", "Second.")] EmptyString
  ∧ parse_transcript
      (PdfGenerator.write_entries [("0:00:00", two_paragraphs)] EmptyString)
    = Some [("0:00:00", "First."); ("0:00:05", "Second.")]
  ∧ ¬ ∃ parse : string → option (list (string * string)),
        ∀ tc, parse (PdfGenerator.write_entries tc EmptyString) = Some tc.
Proof.
  split; [by vm_compute|]. split; [by vm_compute|].
  intros [parse Hparse].
  pose proof (Hparse [("0:00:00", two_paragraphs)]) as H1.
  pose proof (Hparse [("0:00:00", "First."); ("0:00:05", "Second.")]) as H2.
  assert (PdfGenerator.write_entries [("0:00:00", two_paragraphs)] EmptyString
          = PdfGenerator.write_entries
              [("0:00:00", "First."); ("0:00:05", "Second.")] EmptyString) as Heq
    by by vm_compute.
  rewrite Heq, H2 in H1. discriminate H1.
Qed.

(** C9, amended. For a transcript whose labels contain neither a closing
    bracket nor a line feed and whose texts contain no blank line and do
    not end with a line feed, reading back what the plain-text renderer
    writes gives the transcript, in order; this is the file that
    [save_transcript_to_text] leaves when the write succeeds, and the
    file that the command-line run writes entry by entry. *)
Theorem transcript_round_trip (w : World) (tc : list (string * string))
    (output_path : string) (args : VideoToText.Args)
    (st : VideoToText.locals) (r : list (string * string) * gmap string string
                                   * option bool) :
  Forall well_formed_entry tc →
  parse_transcript (PdfGenerator.write_entries tc EmptyString) = Some tc
  ∧ match PdfGenerator.save_transcript_to_text w tc output_path with
    | (true, Some content) => parse_transcript content = Some tc
    | (true, None) => False
    | (false, content) => text_write_ok w = false ∧ content = None
    end
  ∧ (VideoToText.main w args VideoToText.initial = (st, Ok r) →
     r.1.1 = tc → parse_transcript (VideoToText.out_file st) = Some tc).
Proof.
  intros Htc.
  assert (parse_transcript (PdfGenerator.write_entries tc EmptyString) = Some tc)
    as Hround.
  { unfold parse_transcript. rewrite split_blocks_rendering by done.
    by apply parse_blocks. }
  split; [done|]. split.
  - unfold PdfGenerator.save_transcript_to_text. by destruct (text_write_ok w).
  - intros Hmain Hr.
    pose proof (main_file_is_rendering w args VideoToText.initial eq_refl) as Hfile.
    rewrite Hmain in Hfile. destruct Hfile as [Hout Hreturned].
    unfold file_is_rendering in Hout. by rewrite Hout, <- Hreturned, Hr.
Qed.

(** ** One label, one whole second *)

Lemma lacks_app c a b : lacks c (a +:+ b) = lacks c a && lacks c b.
Proof.
  induction a as [|x a IH]; ssimpl; simpl; [done|].
  by rewrite IH, andb_assoc.
Qed.

Lemma lacks_not_found c a b : lacks c (a +:+ String c b) = false.
Proof.
  rewrite lacks_app. simpl. rewrite bool_decide_true by done.
  apply andb_false_r.
Qed.

Lemma split_at c a a' x x' :
  lacks c a = true → lacks c a' = true →
  a +:+ String c x = a' +:+ String c x' → a = a' ∧ x = x'.
Proof.
  revert a'. induction a as [|y a IH]; intros [|y' a']; ssimpl; simpl.
  - by intros _ _ [= ->].
  - intros _ Hy' [= <- _]. by rewrite bool_decide_true in Hy'.
  - intros Hy _ [= -> _]. by rewrite bool_decide_true in Hy.
  - rewrite !andb_true_iff. intros [_ Ha] [_ Ha'] [= -> Heq].
    by destruct (IH a' Ha Ha' Heq) as [-> ->].
Qed.

Lemma pretty_N_go_lacks c (x : N) s :
  (∀ n, pretty_N_char n ≠ c) → lacks c s = true →
  lacks c (pretty_N_go x s) = true.
Proof.
  intros Hc. revert s. induction (N.lt_wf_0 x) as [x _ IH]; intros s Hs.
  destruct (decide (x = 0)%N) as [->|Hx]; [by rewrite pretty_N_go_0|].
  rewrite pretty_N_go_step by lia. apply IH.
  - apply N.div_lt; lia.
  - simpl. rewrite Hs, andb_true_r.
    apply negb_true_iff, bool_decide_eq_false, Hc.
Qed.

Lemma pretty_Z_lacks c (z : Z) :
  (∀ n, pretty_N_char n ≠ c) → c ≠ "-"%char → c ≠ "0"%char →
  lacks c (pretty z) = true.
Proof.
  intros Hc Hdash Hzero.
  assert (∀ p : positive, lacks c (pretty p) = true) as Hpos.
  { intros p. unfold pretty, pretty_positive, pretty, pretty_N.
    rewrite decide_False by done. by apply pretty_N_go_lacks. }
  destruct z as [|p|p]; unfold pretty, pretty_Z.
  - simpl. by rewrite bool_decide_false by done.
  - apply Hpos.
  - rewrite lacks_app, Hpos. simpl. by rewrite bool_decide_false by done.
Qed.

Lemma digit_is_not_space n : pretty_N_char n ≠ " "%char.
Proof. unfold pretty_N_char. by repeat case_match. Qed.

Lemma digit_is_not_colon n : pretty_N_char n ≠ ":"%char.
Proof. unfold pretty_N_char. by repeat case_match. Qed.

Lemma pretty_lacks_space (z : Z) : lacks " " (pretty z) = true.
Proof. apply pretty_Z_lacks; [apply digit_is_not_space|done..]. Qed.

Lemma pretty_lacks_colon (z : Z) : lacks ":" (pretty z) = true.
Proof. apply pretty_Z_lacks; [apply digit_is_not_colon|done..]. Qed.

Lemma format_d_2_decode (v : Z) :
  0 <= v < 60 → decode2 (format_d 2 v) = v ∧ lacks ":" (format_d 2 v) = true.
Proof.
  intros Hv. rewrite <- (Z2Nat.id v) by lia.
  assert (Z.to_nat v < 60)%nat as Hn by lia.
  generalize dependent (Z.to_nat v). clear v Hv. intros n Hn.
  do 60 (destruct n as [|n]; [by vm_compute|]). lia.
Qed.

Lemma label_head_lacks_colon d hh : lacks ":" (label_head d hh) = true.
Proof.
  unfold label_head. rewrite lacks_app, pretty_lacks_colon, andb_true_r.
  destruct (decide (d = 0)); [done|].
  rewrite !lacks_app, pretty_lacks_colon. by destruct (decide (Z.abs d = 1)).
Qed.

Ltac snorm_in H :=
  repeat (rewrite string_app_assoc in H || rewrite string_app_cons in H
          || rewrite string_app_nil_l in H).

Lemma label_head_inj d hh d' hh' :
  label_head d hh = label_head d' hh' → d = d' ∧ hh = hh'.
Proof.
  unfold label_head.
  destruct (decide (d = 0)) as [->|Hd], (decide (d' = 0)) as [->|Hd'].
  - rewrite !string_app_nil_l. by intros ->%(inj pretty).
  - intros Heq. pose proof (pretty_lacks_space hh) as Hhh.
    snorm_in Heq. rewrite Heq in Hhh.
    by rewrite (lacks_not_found " " (pretty d')) in Hhh.
  - intros Heq. pose proof (pretty_lacks_space hh') as Hhh.
    snorm_in Heq. rewrite <- Heq in Hhh.
    by rewrite (lacks_not_found " " (pretty d)) in Hhh.
  - intros Heq. snorm_in Heq.
    apply (split_at " ") in Heq as [->%(inj pretty) Heq];
      [|apply pretty_lacks_space..].
    split; [done|].
    destruct (decide (Z.abs d' = 1)); snorm_in Heq; simplify_eq;
      by apply (inj pretty).
Qed.

Lemma timedelta_str_head d r :
  datetime.str {| datetime.days := d; datetime.seconds := r |}
  = label_head d (r `div` 3600)
    +:+ String ":" (format_d 2 ((r `div` 60) `mod` 60)
    +:+ String ":" (format_d 2 (r `mod` 60))).
Proof.
  unfold datetime.str, label_head, divmod. simpl.
  rewrite Z.div_div by lia. change (60 * 60) with 3600.
  destruct (decide (d = 0)); by snorm.
Qed.

Lemma timedelta_str_inj d r d' r' :
  0 <= r < 86400 → 0 <= r' < 86400 →
  datetime.str {| datetime.days := d; datetime.seconds := r |}
  = datetime.str {| datetime.days := d'; datetime.seconds := r' |} →
  d = d' ∧ r = r'.
Proof.
  intros Hr Hr'. rewrite !timedelta_str_head. intros Heq.
  apply split_at in Heq as [Hhead Heq]; [|apply label_head_lacks_colon..].
  apply label_head_inj in Hhead as [-> Hhh].
  destruct (format_d_2_decode ((r `div` 60) `mod` 60)) as [Hmm Hmm_colon];
    [by apply Z.mod_pos_bound|].
  destruct (format_d_2_decode ((r' `div` 60) `mod` 60)) as [Hmm' Hmm_colon'];
    [by apply Z.mod_pos_bound|].
  apply split_at in Heq as [Hmin Hsec]; [|done..].
  destruct (format_d_2_decode (r `mod` 60)) as [Hss _]; [by apply Z.mod_pos_bound|].
  destruct (format_d_2_decode (r' `mod` 60)) as [Hss' _]; [by apply Z.mod_pos_bound|].
  assert ((r `div` 60) `mod` 60 = (r' `div` 60) `mod` 60) as Hm by congruence.
  assert (r `mod` 60 = r' `mod` 60) as Hs by congruence.
  split; [done|]. clear -Hr Hr' Hhh Hm Hs.
  rewrite <- !(Z.div_div _ 60 60) in Hhh by lia.
  Z.div_mod_to_equations. lia.
Qed.

Lemma zeros_lacks c n : c ≠ "0"%char → lacks c (zeros n) = true.
Proof.
  intros Hc. induction n as [|n IH]; [done|]. simpl.
  rewrite IH, andb_true_r. apply negb_true_iff, bool_decide_eq_false. congruence.
Qed.

Lemma format_d_lacks c width z :
  (∀ n, pretty_N_char n ≠ c) → c ≠ "-"%char → c ≠ "0"%char → 0 <= z →
  lacks c (format_d width z) = true.
Proof.
  intros Hdigit Hdash Hzero Hz. unfold format_d.
  rewrite decide_False by lia.
  by rewrite lacks_app, zeros_lacks, pretty_Z_lacks.
Qed.

Lemma label_lacks c d r :
  (∀ n, pretty_N_char n ≠ c) → c ≠ "-"%char → c ≠ "0"%char →
  lacks c " days, :" = true → 0 <= r →
  lacks c (datetime.str {| datetime.days := d; datetime.seconds := r |}) = true.
Proof.
  intros Hdigit Hdash Hzero Hc Hr. simpl in Hc.
  repeat (apply andb_true_iff in Hc as [? Hc]).
  rewrite timedelta_str_head. unfold label_head.
  assert (0 <= r `mod` 60) by (apply Z.mod_pos_bound; lia).
  assert (0 <= (r `div` 60) `mod` 60) by (apply Z.mod_pos_bound; lia).
  rewrite !lacks_app. simpl. rewrite !lacks_app. simpl.
  rewrite !format_d_lacks, !pretty_Z_lacks by done.
  destruct (decide (d = 0)); simpl.
  - rewrite !andb_true_iff. by repeat split.
  - rewrite !lacks_app, pretty_Z_lacks by done.
    destruct (decide (Z.abs d = 1)); simpl;
      rewrite !andb_true_iff; by repeat split.
Qed.

Lemma plain_label_lacks s :
  lacks "]" s = true → lacks LF s = true → plain_label s = true.
Proof.
  induction s as [|c s IH]; [done|]. simpl.
  rewrite !andb_true_iff. intros [? ?] [? ?]. auto.
Qed.

(** The labels of the pipeline contain neither a closing bracket nor a
    line feed. *)
Lemma format_timestamp_plain (t : Q) (timestamp : string) :
  Utils.format_timestamp t = Ok timestamp → plain_label timestamp = true.
Proof.
  unfold Utils.format_timestamp, datetime.of_seconds, divmod.
  destruct (decide _) as [|_]; [done|]. simpl. intros [= <-].
  assert (0 <= py_int t `mod` 86400) by by apply Z.mod_pos_bound.
  apply plain_label_lacks; apply label_lacks; try done;
    intros n; unfold pretty_N_char; by repeat case_match.
Qed.

(** The label determines the whole second. *)
Lemma format_timestamp_inj (t t' : Q) (timestamp : string) :
  Utils.format_timestamp t = Ok timestamp →
  Utils.format_timestamp t' = Ok timestamp →
  py_int t = py_int t'.
Proof.
  unfold Utils.format_timestamp, datetime.of_seconds, divmod.
  destruct (decide _) as [|_]; [done|]. destruct (decide _) as [|_]; [done|].
  simpl. intros [= <-] [= Heq].
  apply timedelta_str_inj in Heq as [Hd Hr]; [|by apply Z.mod_pos_bound..].
  rewrite (Z.div_mod (py_int t) 86400), (Z.div_mod (py_int t') 86400) by done.
  by rewrite Hd, Hr.
Qed.

(** ** Screenshots of one label *)

Section grabs.
Context {S : Type}.
Variable w : World.
Variable progress_callback : option (string → string → Q → S → S).
Variables job_id video_path whisper_model : string.
Variables chunk_duration timestamp_interval : Z.
Variable screenshots_dir : string.

Lemma notify_grabs text p E :
  hoare (grabs_of_moments (S := S) screenshots_dir)
    (Transcriber.notify progress_callback job_id text p)
    (λ _, grabs_of_moments screenshots_dir) E.
Proof.
  unfold Transcriber.notify. destruct progress_callback as [cb|].
  - by apply hoare_modify.
  - by apply hoare_ret.
Qed.

Lemma process_segment_grabs start_time i j segment :
  hoare (grabs_of_moments (S := S) screenshots_dir)
    (Transcriber.process_segment w video_path timestamp_interval screenshots_dir
       start_time i j segment)
    (λ _, grabs_of_moments screenshots_dir) (grabs_of_moments screenshots_dir).
Proof.
  intros st Hst. unfold Transcriber.process_segment.
  destruct (decide _) as [_|_]; [done|]. msimpl.
  destruct (Utils.format_timestamp _) as [ts|e] eqn:Hts; simpl; [|done].
  destruct (within_capture_window _ _) as [[|]|e]; simpl; [| |done].
  - assert (grabs_of_moments screenshots_dir
              (Transcriber.log_call
                 (CallExtractScreenshot video_path
                    (screenshot_file screenshots_dir
                       (default 0 (seg_start segment) + inject_Z start_time)%Q)
                    ts) st)) as Hlogged.
    { apply Forall_app. split; [done|]. apply Forall_singleton. simpl. eauto. }
    by destruct (Utils.extract_screenshot _ _ _ _) as [[|]|e].
  - done.
Qed.

Lemma process_chunk_grabs n ppc i cs E :
  hoare (grabs_of_moments (S := S) screenshots_dir)
    (Transcriber.process_chunk w progress_callback job_id video_path whisper_model
       timestamp_interval screenshots_dir n ppc i cs)
    (λ _, grabs_of_moments screenshots_dir) E.
Proof.
  destruct cs as [chunk start_time]. unfold Transcriber.process_chunk.
  eapply hoare_bind; [apply notify_grabs|]. intros ?.
  eapply hoare_try_except with (E' := grabs_of_moments screenshots_dir);
    [|intros e; by apply hoare_ret].
  eapply hoare_bind with (Q := λ _, grabs_of_moments screenshots_dir).
  - unfold Transcriber.transcribe_audio_chunk_with_whisper.
    eapply hoare_bind with (Q := λ _, grabs_of_moments screenshots_dir).
    + apply hoare_modify. intros st Hst.
      apply Forall_app. split; [done|]. by apply Forall_singleton.
    + intros ?. by apply hoare_lift_keep.
  - intros [raw segments].
    eapply hoare_bind; [|intros ?; apply notify_grabs].
    apply hoare_for_each. intros j segment. apply process_segment_grabs.
Qed.

End grabs.

Lemma process_video_grabs {S : Type} (w : World)
    (progress_callback : option (string → string → Q → S → S))
    (job_id video_path whisper_model : string)
    (chunk_duration timestamp_interval : Z) :
  let screenshots_dir := path_join (temp_dir w) "screenshots" in
  hoare (grabs_of_moments (S := S) screenshots_dir)
    (Transcriber.process_video w progress_callback job_id video_path whisper_model
       chunk_duration timestamp_interval)
    (λ _, grabs_of_moments screenshots_dir) (grabs_of_moments screenshots_dir).
Proof.
  intros screenshots_dir. unfold Transcriber.process_video.
  eapply hoare_bind; [apply notify_grabs|intros ?].
  eapply hoare_bind; [apply notify_grabs|intros ?].
  eapply hoare_bind; [by apply hoare_lift_keep|intros ?].
  eapply hoare_bind; [apply notify_grabs|intros ?].
  eapply hoare_bind; [by apply hoare_lift_keep|intros ?].
  eapply hoare_bind; [apply notify_grabs|intros ?].
  eapply hoare_bind; [by apply hoare_lift_keep|].
  intros [[audio_chunks start_times] num_chunks].
  eapply hoare_bind; [apply notify_grabs|intros ?].
  eapply hoare_bind;
    [apply hoare_for_each; intros i cs; apply process_chunk_grabs|intros ?].
  eapply hoare_bind; [apply notify_grabs|intros ?].
  eapply hoare_bind with (Q := λ _, grabs_of_moments screenshots_dir).
  { intros st Hst. done. }
  intros st0.
  eapply hoare_bind; [apply notify_grabs|intros ?].
  by apply hoare_ret.
Qed.

Lemma grabs_of_one_label screenshots_dir (cs : list call)
    video_path output_path video_path' output_path' timestamp :
  Forall (grab_of_a_moment screenshots_dir) cs →
  CallExtractScreenshot video_path output_path timestamp ∈ cs →
  CallExtractScreenshot video_path' output_path' timestamp ∈ cs →
  output_path = output_path'.
Proof.
  intros Hcs H1 H2. rewrite Forall_forall in Hcs.
  destruct (Hcs _ H1) as (t & Ht & ->). destruct (Hcs _ H2) as (t' & Ht' & ->).
  unfold screenshot_file. by rewrite (format_timestamp_inj t t' timestamp).
Qed.

(** C4, as stated, fails: two segments within one second have the same
    label, and the frame grab runs for each of them although the label
    is in the screenshots map after the first. *)
Lemma second_capture_is_triggered :
  let run :=
    Transcriber.process_video same_second (S := unit) None "job1" "talk.mp4"
      "base" 60 30 (Transcriber.initial ()) in
  let grab :=
    CallExtractScreenshot "talk.mp4"
      "/tmp/tmpx/screenshots/screenshot_000000.jpg" "0:00:00" in
  run.2 = Ok ([("0:00:00", "Hello."); ("0:00:00", "Goodbye.")],
              {["0:00:00" := "/srv/app/output/job1/screenshot_000000.jpg"]})
  ∧ grabs_for "0:00:00" (Transcriber.calls run.1) = [grab; grab]
  ∧ ¬ (∀ (w : World) video_path timestamp_interval screenshots_dir start_time
         i j segment timestamp (st : Transcriber.locals unit),
         Utils.format_timestamp (absolute_offset start_time segment)
         = Ok timestamp →
         is_Some (Transcriber.screenshots st !! timestamp) →
         Transcriber.calls
           (Transcriber.process_segment w video_path timestamp_interval
              screenshots_dir start_time i j segment st).1
         = Transcriber.calls st).
Proof.
  split; [by vm_compute|]. split; [by vm_compute|].
  intros Hclaim.
  specialize (Hclaim same_second "talk.mp4" 30 "/tmp/tmpx/screenshots" 0 0%nat
                1%nat (segment_at (1 # 2)%Q " Goodbye.") "0:00:00"
                {| Transcriber.cb_state := ();
                   Transcriber.calls := [];
                   Transcriber.timestamped_chunks := [("0:00:00", "Hello.")];
                   Transcriber.screenshots :=
                     {["0:00:00" := "/tmp/tmpx/screenshots/screenshot_000000.jpg"]} |}
                eq_refl).
  simpl in Hclaim. rewrite lookup_singleton_eq in Hclaim.
  specialize (Hclaim (mk_is_Some _ _ eq_refl)).
  vm_compute in Hclaim. discriminate Hclaim.
Qed.

(** C4, amended. In one job every frame grab for a given label writes to
    the same file, so that at most one screenshot file belongs to a
    label; and for a segment whose label is in the screenshots map
    already, the segment loop of either pipeline calls the frame grab
    again when the sampling rule holds, and a successful grab assigns the
    entry of the label again. *)
Theorem one_file_per_label_but_repeated_capture {S : Type} (w : World)
    (progress_callback : option (string → string → Q → S → S))
    (job_id whisper_model : string) (chunk_duration : Z) (s0 : S)
    (args : VideoToText.Args) (skip : bool) (model pdf_context : option string)
    (screenshots_dir : string) (start_time : Z) (i j : nat) (segment : Segment)
    (timestamp : string) (st : Transcriber.locals S) (cst : VideoToText.locals) :
  let video_path := VideoToText.video_file args in
  let timestamp_interval := VideoToText.timestamp_interval args in
  let t := absolute_offset start_time segment in
  let screenshot_path := screenshot_file screenshots_dir t in
  let grab := CallExtractScreenshot video_path screenshot_path timestamp in
  let st' :=
    (Transcriber.process_segment w video_path timestamp_interval screenshots_dir
       start_time i j segment st).1 in
  let cst' :=
    (VideoToText.process_segment w args skip model pdf_context screenshots_dir
       start_time i j segment cst).1 in
  let run :=
    Transcriber.process_video w progress_callback job_id video_path whisper_model
      chunk_duration timestamp_interval (Transcriber.initial s0) in
  stripped_text segment ≠ EmptyString →
  Utils.format_timestamp t = Ok timestamp →
  within_capture_window t timestamp_interval = Ok true →
  is_Some (Transcriber.screenshots st !! timestamp) →
  is_Some (VideoToText.screenshots cst !! timestamp) →
  Transcriber.calls st' = Transcriber.calls st ++ [grab]
  ∧ Transcriber.screenshots st'
    = match Utils.extract_screenshot (shot_run w i j) video_path screenshot_path
              timestamp with
      | Ok true => <[timestamp := screenshot_path]> (Transcriber.screenshots st)
      | _ => Transcriber.screenshots st
      end
  ∧ VideoToText.calls cst' = VideoToText.calls cst ++ [grab]
  ∧ VideoToText.screenshots cst'
    = match VideoToText.extract_screenshot (shot_run w i j) video_path
              screenshot_path timestamp with
      | Ok true => <[timestamp := screenshot_path]> (VideoToText.screenshots cst)
      | _ => VideoToText.screenshots cst
      end
  ∧ (∀ video output_path video' output_path' label,
       CallExtractScreenshot video output_path label ∈ Transcriber.calls run.1 →
       CallExtractScreenshot video' output_path' label ∈ Transcriber.calls run.1 →
       output_path = output_path').
Proof.
  intros video_path timestamp_interval t screenshot_path grab st' cst' run
    Htext Hts Hdue _ _.
  subst st' cst'.
  rewrite (transcriber_segment_step w video_path timestamp_interval
             screenshots_dir start_time i j segment timestamp true st Htext Hts
             Hdue).
  rewrite (cli_segment_step w args skip model pdf_context screenshots_dir
             start_time i j segment timestamp true cst Htext Hts Hdue).
  fold video_path t screenshot_path grab. repeat split.
  - by destruct (Utils.extract_screenshot _ _ _ _) as [[]|].
  - by destruct (Utils.extract_screenshot _ _ _ _) as [[]|].
  - by destruct (VideoToText.extract_screenshot _ _ _ _) as [[]|].
  - by destruct (VideoToText.extract_screenshot _ _ _ _) as [[]|].
  - intros video output_path video' output_path' label.
    apply grabs_of_one_label
      with (screenshots_dir := path_join (temp_dir w) "screenshots").
    pose proof (process_video_grabs w progress_callback job_id video_path
                  whisper_model chunk_duration timestamp_interval
                  (Transcriber.initial s0)) as Hrun.
    fold run in Hrun. destruct run as [st1 [r|e]]; apply Hrun; by constructor.
Qed.

(** ** The properties at sample inputs *)

(** C1 at 125 seconds of audio in chunks of 60 seconds. *)
Lemma split_chunk_count_and_offsets_witness :
  0 < 60 ∧ (0 <= 125)%Q
  ∧ wav_exists two_minutes = true ∧ probe_run two_minutes = Ok 125%Q
  ∧ (let n := Qfloor (125 / inject_Z 60) + 1 in
     match Utils.split_audio_into_chunks two_minutes "audio.wav" "chunks" 60 with
     | Ok (chunk_files, timestamps, num_chunks) =>
         num_chunks = n
         ∧ Z.of_nat (length chunk_files) = n
         ∧ Z.of_nat (length timestamps) = n
         ∧ (∀ i : nat, Z.of_nat i < n → timestamps !! i = Some (Z.of_nat i * 60))
         ∧ VideoToText.split_audio_into_chunks two_minutes "audio.wav" "chunks" 60
           = Ok (chunk_files, timestamps)
     | Raise e =>
         (∃ i : nat, Z.of_nat i < n ∧ carve_run two_minutes i = Some e)
         ∧ VideoToText.split_audio_into_chunks two_minutes "audio.wav" "chunks" 60
           = Raise e
     end
     ∧ ((∀ i, carve_run two_minutes i = None) →
        ∃ r, Utils.split_audio_into_chunks two_minutes "audio.wav" "chunks" 60
             = Ok r)
     ∧ (∀ k : Z, (125 == inject_Z (k * 60))%Q →
        n = k + 1 ∧ (inject_Z ((n - 1) * 60) == 125)%Q)).
Proof.
  split; [lia|]. split; [by vm_compute|]. split; [reflexivity|].
  split; [reflexivity|].
  apply (split_chunk_count_and_offsets two_minutes "audio.wav" "chunks" 60 125%Q);
    [lia|by vm_compute|reflexivity|reflexivity].
Defined.

(** C3 at a segment 3 seconds into the chunk that starts at 60 seconds. *)
Lemma screenshot_sampling_rule_witness :
  let segment := segment_at 3%Q " Hello." in
  let t := absolute_offset 60 segment in
  let due := bool_decide (Qfloor t `mod` 30 < 5) in
  let grab :=
    CallExtractScreenshot "talk.mp4" (screenshot_file "shots" t) "0:01:03" in
  ((0 <= t)%Q ∧ 30 ≠ 0 ∧ stripped_text segment ≠ EmptyString
   ∧ Utils.format_timestamp t = Ok "0:01:03")
  ∧ (within_capture_window t 30 = Ok due
     ∧ Transcriber.calls
         (Transcriber.process_segment two_minutes "talk.mp4" 30 "shots" 60 1 0
            segment (Transcriber.initial ())).1
       = [] ++ (if due then [grab] else [])
     ∧ VideoToText.calls
         (VideoToText.process_segment two_minutes sample_args true None None
            "shots" 60 1 0 segment VideoToText.initial).1
       = [] ++ (if due then [grab] else [])
     ∧ (Qfloor t `mod` 30 = 0 → due = true)
     ∧ (Qfloor t `mod` 30 = 4 → due = true)
     ∧ (Qfloor t `mod` 30 = 5 → due = false)
     ∧ (5 < 30 → Qfloor t `mod` 30 = 30 - 1 → due = false)).
Proof.
  intros segment t due grab.
  assert ((0 <= t)%Q ∧ 30 ≠ 0 ∧ stripped_text segment ≠ EmptyString
          ∧ Utils.format_timestamp t = Ok "0:01:03") as Hyp.
  { repeat split; by vm_compute. }
  split; [exact Hyp|].
  destruct Hyp as (Ht & Hi & Htext & Hts).
  exact (screenshot_sampling_rule two_minutes sample_args true None None "shots"
           60 1 0 segment "0:01:03" (Transcriber.initial ()) VideoToText.initial
           Ht Hi Htext Hts).
Defined.

(** C4, amended, at a second segment of the second 63. *)
Lemma one_file_per_label_but_repeated_capture_witness :
  let segment := segment_at (7 # 2)%Q " Goodbye." in
  let t := absolute_offset 60 segment in
  let screenshot_path := screenshot_file "/tmp/tmpx/screenshots" t in
  let grab := CallExtractScreenshot "talk.mp4" screenshot_path "0:01:03" in
  let st' :=
    (Transcriber.process_segment two_minutes "talk.mp4" 30
       "/tmp/tmpx/screenshots" 60 1 1 segment after_first_capture).1 in
  let cst' :=
    (VideoToText.process_segment two_minutes sample_args true None None
       "/tmp/tmpx/screenshots" 60 1 1 segment cli_after_first_capture).1 in
  let run :=
    Transcriber.process_video two_minutes (S := unit) None "job1" "talk.mp4"
      "base" 60 30 (Transcriber.initial ()) in
  (stripped_text segment ≠ EmptyString
   ∧ Utils.format_timestamp t = Ok "0:01:03"
   ∧ within_capture_window t 30 = Ok true
   ∧ is_Some (Transcriber.screenshots after_first_capture !! "0:01:03")
   ∧ is_Some (VideoToText.screenshots cli_after_first_capture !! "0:01:03"))
  ∧ (Transcriber.calls st' = Transcriber.calls after_first_capture ++ [grab]
     ∧ Transcriber.screenshots st'
       = match Utils.extract_screenshot (shot_run two_minutes 1 1) "talk.mp4"
                 screenshot_path "0:01:03" with
         | Ok true =>
             <["0:01:03" := screenshot_path]>
               (Transcriber.screenshots after_first_capture)
         | _ => Transcriber.screenshots after_first_capture
         end
     ∧ VideoToText.calls cst' = VideoToText.calls cli_after_first_capture ++ [grab]
     ∧ VideoToText.screenshots cst'
       = match VideoToText.extract_screenshot (shot_run two_minutes 1 1)
                 "talk.mp4" screenshot_path "0:01:03" with
         | Ok true =>
             <["0:01:03" := screenshot_path]>
               (VideoToText.screenshots cli_after_first_capture)
         | _ => VideoToText.screenshots cli_after_first_capture
         end
     ∧ (∀ video output_path video' output_path' label,
          CallExtractScreenshot video output_path label ∈ Transcriber.calls run.1 →
          CallExtractScreenshot video' output_path' label
          ∈ Transcriber.calls run.1 →
          output_path = output_path')).
Proof.
  intros segment t screenshot_path grab st' cst' run.
  assert (stripped_text segment ≠ EmptyString
          ∧ Utils.format_timestamp t = Ok "0:01:03"
          ∧ within_capture_window t 30 = Ok true
          ∧ is_Some (Transcriber.screenshots after_first_capture !! "0:01:03")
          ∧ is_Some (VideoToText.screenshots cli_after_first_capture !! "0:01:03"))
    as Hyp.
  { repeat split; try by vm_compute.
    - exists "/tmp/tmpx/screenshots/screenshot_000063.jpg". by vm_compute.
    - exists "/tmp/tmpx/screenshots/screenshot_000063.jpg". by vm_compute. }
  split; [exact Hyp|].
  destruct Hyp as (Htext & Hts & Hdue & Hpresent & Hcli).
  exact (one_file_per_label_but_repeated_capture two_minutes None "job1" "base"
           60 () sample_args true None None "/tmp/tmpx/screenshots" 60 1 1
           segment "0:01:03" after_first_capture cli_after_first_capture
           Htext Hts Hdue Hpresent Hcli).
Defined.



(** C9, amended, at the transcript of the job of 125 seconds. *)
Lemma transcript_round_trip_witness :
  let tc := [("0:00:03", "Hello."); ("0:01:03", "Hello."); ("0:02:03", "Hello.")] in
  let run := VideoToText.main two_minutes sample_args VideoToText.initial in
  Forall well_formed_entry tc
  ∧ (parse_transcript (PdfGenerator.write_entries tc EmptyString) = Some tc
     ∧ match PdfGenerator.save_transcript_to_text two_minutes tc
               "output/job1/transcript.txt" with
       | (true, Some content) => parse_transcript content = Some tc
       | (true, None) => False
       | (false, content) => text_write_ok two_minutes = false ∧ content = None
       end
     ∧ (run = (run.1, Ok (tc, VideoToText.screenshots run.1, Some true)) →
        (tc, VideoToText.screenshots run.1, Some true).1.1 = tc →
        parse_transcript (VideoToText.out_file run.1) = Some tc)).
Proof.
  intros tc run.
  assert (Forall well_formed_entry tc) as Hyp.
  { repeat constructor; by vm_compute. }
  split; [exact Hyp|].
  exact (transcript_round_trip two_minutes tc "output/job1/transcript.txt"
           sample_args run.1 (tc, VideoToText.screenshots run.1, Some true) Hyp).
Defined.

(** C10 at the job of 125 seconds, for the label [0:01:03]. *)
Lemma screenshots_have_transcript_entries_witness :
  let run :=
    Transcriber.process_video two_minutes (S := unit) None "job1" "talk.mp4"
      "base" 60 30 (Transcriber.initial ()) in
  let tc := [("0:00:03", "Hello."); ("0:01:03", "Hello."); ("0:02:03", "Hello.")] in
  let shots : gmap string string :=
    {["0:00:03" := "/srv/app/output/job1/screenshot_000003.jpg";
      "0:01:03" := "/srv/app/output/job1/screenshot_000063.jpg";
      "0:02:03" := "/srv/app/output/job1/screenshot_000123.jpg"]} in
  (run = (run.1, Ok (tc, shots))
   ∧ shots !! "0:01:03" = Some "/srv/app/output/job1/screenshot_000063.jpg")
  ∧ ((∃ text, ("0:01:03", text) ∈ tc)
     ∧ ("0:01:03", Some "/srv/app/output/job1/screenshot_000063.jpg")
       ∈ (PdfGenerator.create_pdf_with_screenshots two_minutes tc shots
            "output/job1/transcript.pdf").2).
Proof.
  intros run tc shots.
  assert (run = (run.1, Ok (tc, shots))
          ∧ shots !! "0:01:03" = Some "/srv/app/output/job1/screenshot_000063.jpg")
    as Hyp.
  { split; by vm_compute. }
  split; [exact Hyp|].
  destruct Hyp as [Hrun Hshot].
  exact (screenshots_have_transcript_entries two_minutes None "job1" "talk.mp4"
           "base" "output/job1/transcript.pdf" 60 30 () run.1 tc shots Hrun
           "0:01:03" "/srv/app/output/job1/screenshot_000063.jpg" Hshot).
Defined.

(** * Further properties of the code *)

(** ** White space around a text *)

Lemma rev_app_spec (a b : string) : String.rev_app a b = String.rev a +:+ b.
Proof.
  unfold String.rev. revert b. induction a as [|x a IH]; intros b; simpl; [done|].
  rewrite (IH (String x b)), (IH (String x EmptyString)).
  by rewrite string_app_assoc, string_app_cons, string_app_nil_l.
Qed.

Lemma rev_cons (x : ascii) (a : string) :
  String.rev (String x a) = String.rev a +:+ String x EmptyString.
Proof. unfold String.rev at 1. simpl. by rewrite rev_app_spec. Qed.

Lemma rev_app (a b : string) : String.rev (a +:+ b) = String.rev b +:+ String.rev a.
Proof.
  induction a as [|x a IH]; ssimpl.
  - by rewrite string_app_nil_r.
  - by rewrite !rev_cons, IH, string_app_assoc.
Qed.

Lemma rev_involutive (s : string) : String.rev (String.rev s) = s.
Proof.
  induction s as [|x s IH]; [done|].
  by rewrite rev_cons, rev_app, IH.
Qed.

Lemma is_blank_app a b : is_blank (a +:+ b) = is_blank a && is_blank b.
Proof.
  induction a as [|x a IH]; ssimpl; simpl; [done|]. by rewrite IH, andb_assoc.
Qed.

Lemma is_blank_rev s : is_blank (String.rev s) = is_blank s.
Proof.
  induction s as [|x s IH]; [done|].
  rewrite rev_cons, is_blank_app, IH. simpl. rewrite andb_true_r. apply andb_comm.
Qed.

Lemma lstrip_split s : ∃ b, s = b +:+ lstrip s ∧ is_blank b = true.
Proof.
  induction s as [|x s (b & Hs & Hb)]; [by exists EmptyString|]. simpl.
  destruct (is_space x) eqn:Hx.
  - exists (String x b). ssimpl. simpl. rewrite Hx, Hb. by rewrite <- Hs.
  - by exists EmptyString.
Qed.

Lemma lstrip_starts_clean s : starts_clean (lstrip s) = true.
Proof.
  induction s as [|x s IH]; [done|]. simpl.
  destruct (is_space x) eqn:Hx; [done|]. simpl. by rewrite Hx.
Qed.

Lemma lstrip_clean s : starts_clean s = true → lstrip s = s.
Proof. destruct s as [|x s]; [done|]. simpl. by destruct (is_space x). Qed.

Lemma lstrip_empty s : lstrip s = EmptyString ↔ is_blank s = true.
Proof.
  induction s as [|x s IH]; [done|]. simpl.
  destruct (is_space x); simpl; [done|]. split; done.
Qed.

Lemma rev_empty s : String.rev s = EmptyString ↔ s = EmptyString.
Proof.
  split; [|by intros ->]. intros Hs.
  by rewrite <- (rev_involutive s), Hs.
Qed.

Lemma rstrip_split s : ∃ b, s = rstrip s +:+ b ∧ is_blank b = true.
Proof.
  destruct (lstrip_split (String.rev s)) as (b & Hs & Hb).
  exists (String.rev b). split; [|by rewrite is_blank_rev].
  unfold rstrip. by rewrite <- rev_app, <- Hs, rev_involutive.
Qed.

Lemma rstrip_ends_clean s : ends_clean (rstrip s) = true.
Proof.
  unfold ends_clean, rstrip. rewrite rev_involutive. apply lstrip_starts_clean.
Qed.

Lemma rstrip_clean s : ends_clean s = true → rstrip s = s.
Proof.
  unfold ends_clean, rstrip. intros Hs. by rewrite lstrip_clean, rev_involutive.
Qed.

Lemma rstrip_empty s : rstrip s = EmptyString ↔ is_blank s = true.
Proof.
  unfold rstrip. by rewrite rev_empty, lstrip_empty, is_blank_rev.
Qed.

Lemma rstrip_starts_clean s : starts_clean s = true → starts_clean (rstrip s) = true.
Proof.
  destruct (rstrip_split s) as (b & Hs & Hb).
  destruct s as [|x s]; [done|]. simpl. intros Hx.
  destruct (rstrip (String x s)) as [|y r] eqn:Hr.
  - done.
  - rewrite string_app_cons in Hs. injection Hs as -> _. done.
Qed.

Lemma strip_empty s : strip s = EmptyString ↔ is_blank s = true.
Proof.
  unfold strip. rewrite rstrip_empty. split.
  - intros Hb. destruct (lstrip_split s) as (b & Hs & Hb').
    rewrite Hs, is_blank_app, Hb'. done.
  - intros Hb. apply lstrip_empty in Hb. by rewrite Hb.
Qed.

Lemma strip_clean s :
  starts_clean (strip s) = true ∧ ends_clean (strip s) = true.
Proof.
  unfold strip. split.
  - apply rstrip_starts_clean, lstrip_starts_clean.
  - apply rstrip_ends_clean.
Qed.

Lemma strip_idempotent s : strip (strip s) = strip s.
Proof.
  destruct (strip_clean s) as [H1 H2].
  unfold strip at 1. by rewrite lstrip_clean, rstrip_clean.
Qed.

(** ** Zero-padded numbers in file names *)

Lemma digit_is_not_dash n : pretty_N_char n ≠ "-"%char.
Proof. unfold pretty_N_char. by repeat case_match. Qed.

Lemma digit_is_not_slash n : pretty_N_char n ≠ "/"%char.
Proof. unfold pretty_N_char. by repeat case_match. Qed.

Lemma pretty_N_go_leading (x : N) s :
  (0 < x)%N → ∃ c rest, pretty_N_go x s = String c rest ∧ c ≠ "0"%char.
Proof.
  revert s. induction (N.lt_wf_0 x) as [x _ IH]; intros s Hx.
  rewrite pretty_N_go_step by done.
  destruct (decide (x `div` 10 = 0)%N) as [Hq|Hq].
  - rewrite Hq, pretty_N_go_0. eexists _, _. split; [done|].
    apply N.div_small_iff in Hq; [|done]. rewrite N.mod_small by done.
    unfold pretty_N_char. by repeat case_match.
  - apply IH; [apply N.div_lt; lia|].
    destruct (x `div` 10)%N; [done|lia].
Qed.

Lemma pretty_nonneg_leading (z : Z) :
  0 <= z → ∃ c rest, pretty z = String c rest ∧ (c = "0"%char → z = 0).
Proof.
  intros Hz. destruct z as [|p|p]; [by eexists _, _|..|lia].
  unfold pretty, pretty_Z, pretty, pretty_positive, pretty, pretty_N.
  rewrite decide_False by done.
  destruct (pretty_N_go_leading (N.pos p) EmptyString) as (c & rest & -> & Hc); [lia|].
  by eexists _, _.
Qed.

Lemma pretty_nonneg_lacks c (z : Z) :
  0 <= z → (∀ n, pretty_N_char n ≠ c) → c ≠ "0"%char → lacks c (pretty z) = true.
Proof.
  intros Hz Hc Hzero. destruct z as [|p|p]; [| |lia].
  - simpl. by rewrite bool_decide_false by done.
  - unfold pretty, pretty_Z, pretty, pretty_positive, pretty, pretty_N.
    rewrite decide_False by done. by apply pretty_N_go_lacks.
Qed.

(** Zero padding does not hide the number. *)
Lemma padded_inj (a b : nat) (z z' : Z) :
  0 <= z → 0 <= z' → zeros a +:+ pretty z = zeros b +:+ pretty z' → z = z'.
Proof.
  intros Hz Hz'. revert b. induction a as [|a IH]; intros [|b]; simpl; ssimpl.
  - by intros ?%(inj pretty).
  - intros Heq. destruct (pretty_nonneg_leading z Hz) as (c & rest & Hp & Hc).
    rewrite Hp in Heq. injection Heq as -> Hrest. rewrite Hc in Hp by done.
    injection Hp as <-.
    destruct (pretty_nonneg_leading z' Hz') as (c' & rest' & Hp' & _).
    rewrite Hp' in Hrest. by destruct b.
  - intros Heq. destruct (pretty_nonneg_leading z' Hz') as (c & rest & Hp & Hc).
    rewrite Hp in Heq. injection Heq as <- Hrest. rewrite Hc in Hp by done.
    injection Hp as <-.
    destruct (pretty_nonneg_leading z Hz) as (c' & rest' & Hp' & _).
    rewrite Hp' in Hrest. by destruct a.
  - intros [= Heq]. by apply (IH b).
Qed.

Lemma padded_lacks_dash (a : nat) (z : Z) :
  0 <= z → lacks "-" (zeros a +:+ pretty z) = true.
Proof.
  intros Hz. rewrite lacks_app, zeros_lacks by done.
  apply pretty_nonneg_lacks; [done|apply digit_is_not_dash|done].
Qed.

(** [f"{z:0wd}"] determines [z]. *)
Lemma format_d_inj (w : nat) (z z' : Z) : format_d w z = format_d w z' → z = z'.
Proof.
  unfold format_d.
  destruct (decide (z < 0)) as [Hz|Hz], (decide (z' < 0)) as [Hz'|Hz']; ssimpl.
  - intros [= Heq]. apply padded_inj in Heq; lia.
  - intros Heq.
    pose proof (padded_lacks_dash (w - String.length (pretty z')) z' ltac:(lia)) as Hl.
    by rewrite <- Heq in Hl.
  - intros Heq.
    pose proof (padded_lacks_dash (w - String.length (pretty z)) z ltac:(lia)) as Hl.
    by rewrite Heq in Hl.
  - intros Heq. apply padded_inj in Heq; lia.
Qed.

Lemma format_d_lacks_any c width z :
  (∀ n, pretty_N_char n ≠ c) → c ≠ "-"%char → c ≠ "0"%char →
  lacks c (format_d width z) = true.
Proof.
  intros Hdigit Hdash Hzero. unfold format_d.
  destruct (decide (z < 0)).
  - rewrite !lacks_app, zeros_lacks, pretty_Z_lacks by done. simpl.
    by rewrite bool_decide_false by congruence.
  - by rewrite lacks_app, zeros_lacks, pretty_Z_lacks.
Qed.

(** Cancellation on the right. *)
Lemma string_app_length (a b : string) :
  String.length (a +:+ b) = (String.length a + String.length b)%nat.
Proof. induction a as [|x a IH]; ssimpl; simpl; [done|]. by rewrite IH. Qed.

Lemma string_app_inj_r (a b s : string) : a +:+ s = b +:+ s → a = b.
Proof.
  revert b. induction a as [|x a IH]; intros [|y b]; ssimpl.
  - done.
  - intros Heq. apply (f_equal String.length) in Heq. simpl in Heq.
    rewrite string_app_length in Heq. lia.
  - intros Heq. apply (f_equal String.length) in Heq. simpl in Heq.
    rewrite string_app_length in Heq. lia.
  - intros [= -> Heq]. by rewrite (IH b).
Qed.

(** The file name of a path. *)
Lemma basename_go_app (a b cur : string) :
  basename_go (a +:+ b) cur = basename_go b (basename_go a cur).
Proof.
  revert cur. induction a as [|x a IH]; intros cur; ssimpl; simpl; [done|].
  destruct (decide (x = "/"%char)); apply IH.
Qed.

Lemma basename_go_name (name cur : string) :
  lacks "/" name = true → basename_go name cur = cur +:+ name.
Proof.
  revert cur. induction name as [|x name IH]; intros cur; simpl.
  - by rewrite string_app_nil_r.
  - rewrite andb_true_iff, negb_true_iff, bool_decide_eq_false. intros [Hx Hname].
    rewrite decide_False by done. rewrite IH by done.
    by rewrite string_app_assoc, string_app_cons, string_app_nil_l.
Qed.

Lemma basename_path_join (dir name : string) :
  lacks "/" name = true → basename (path_join dir name) = name.
Proof.
  intros Hname. unfold basename, path_join.
  rewrite basename_go_app. change ("/" +:+ name) with (String "/" name).
  simpl. by rewrite basename_go_name.
Qed.

Lemma screenshot_name_lacks_slash z :
  lacks "/" ("screenshot_" +:+ format_d 6 z +:+ ".jpg") = true.
Proof.
  rewrite !lacks_app, format_d_lacks_any; [done|apply digit_is_not_slash|done..].
Qed.

Lemma basename_screenshot_file dir t :
  basename (screenshot_file dir t)
  = "screenshot_" +:+ format_d 6 (py_int t) +:+ ".jpg".
Proof. apply basename_path_join, screenshot_name_lacks_slash. Qed.

Lemma screenshot_file_inj dir t t' :
  screenshot_file dir t = screenshot_file dir t' → py_int t = py_int t'.
Proof.
  unfold screenshot_file, path_join. intros Heq.
  do 3 apply (inj (String.app _)) in Heq.
  by apply string_app_inj_r, format_d_inj in Heq.
Qed.

Lemma chunk_path_inj dir : Inj (=) (=) (chunk_path dir).
Proof.
  intros i j Heq. unfold chunk_path, path_join in Heq.
  do 3 apply (inj (String.app _)) in Heq.
  apply string_app_inj_r, format_d_inj in Heq. lia.
Qed.

(** ** What the pipeline does to the state of its callback *)

Section callback_frame.
Context {S : Type}.
Variable w : World.
Variable progress_callback : option (string → string → Q → S → S).
Variables job_id video_path whisper_model : string.
Variables chunk_duration timestamp_interval : Z.
Variable I : S → Prop.
Hypothesis callback_keeps :
  ∀ cb, progress_callback = Some cb → ∀ text p s, I s → I (cb job_id text p s).

Lemma notify_frame text p E :
  hoare (cb_state_in I) (Transcriber.notify progress_callback job_id text p)
    (λ _, cb_state_in I) E.
Proof.
  unfold Transcriber.notify. destruct progress_callback as [cb|] eqn:Hcb.
  - apply hoare_modify. intros st Hst. by apply (callback_keeps cb).
  - by apply hoare_ret.
Qed.

Lemma process_segment_frame screenshots_dir start_time i j segment :
  hoare (cb_state_in I)
    (Transcriber.process_segment w video_path timestamp_interval screenshots_dir
       start_time i j segment)
    (λ _, cb_state_in I) (cb_state_in I).
Proof.
  intros st Hst. unfold Transcriber.process_segment.
  destruct (decide _) as [_|_]; [done|]. msimpl.
  destruct (Utils.format_timestamp _) as [ts|e]; simpl; [|done].
  destruct (within_capture_window _ _) as [[|]|e]; simpl; [| |done].
  - by destruct (Utils.extract_screenshot _ _ _ _) as [[|]|e].
  - done.
Qed.

Lemma transcribe_frame i chunk model :
  hoare (cb_state_in I)
    (Transcriber.transcribe_audio_chunk_with_whisper w i chunk model)
    (λ _, cb_state_in I) (cb_state_in I).
Proof.
  unfold Transcriber.transcribe_audio_chunk_with_whisper.
  eapply hoare_bind with (Q := λ _, cb_state_in I); [by apply hoare_modify|].
  intros ?. by apply hoare_lift_keep.
Qed.

Lemma segments_frame screenshots_dir start_time i segments :
  hoare (cb_state_in I)
    (for_each (Transcriber.process_segment w video_path timestamp_interval
                 screenshots_dir start_time i) 0 segments)
    (λ _, cb_state_in I) (cb_state_in I).
Proof. apply hoare_for_each. intros j segment. apply process_segment_frame. Qed.

Lemma process_chunk_frame screenshots_dir n ppc i cs E :
  hoare (cb_state_in I)
    (Transcriber.process_chunk w progress_callback job_id video_path whisper_model
       timestamp_interval screenshots_dir n ppc i cs)
    (λ _, cb_state_in I) E.
Proof.
  destruct cs as [chunk start_time]. unfold Transcriber.process_chunk.
  eapply hoare_bind; [apply notify_frame|]. intros ?.
  eapply hoare_try_except with (E' := cb_state_in I);
    [|intros e; by apply hoare_ret].
  eapply hoare_bind; [apply transcribe_frame|].
  intros [raw segments].
  eapply hoare_bind; [apply segments_frame|intros ?; apply notify_frame].
Qed.

Lemma process_video_frame :
  hoare (cb_state_in I)
    (Transcriber.process_video w progress_callback job_id video_path whisper_model
       chunk_duration timestamp_interval)
    (λ _, cb_state_in I) (cb_state_in I).
Proof.
  unfold Transcriber.process_video.
  eapply hoare_bind; [apply notify_frame|intros ?].
  eapply hoare_bind; [apply notify_frame|intros ?].
  eapply hoare_bind; [by apply hoare_lift_keep|intros ?].
  eapply hoare_bind; [apply notify_frame|intros ?].
  eapply hoare_bind; [by apply hoare_lift_keep|intros ?].
  eapply hoare_bind; [apply notify_frame|intros ?].
  eapply hoare_bind; [by apply hoare_lift_keep|].
  intros [[audio_chunks start_times] num_chunks].
  eapply hoare_bind; [apply notify_frame|intros ?].
  eapply hoare_bind;
    [apply hoare_for_each; intros i cs; apply process_chunk_frame|intros ?].
  eapply hoare_bind; [apply notify_frame|intros ?].
  eapply hoare_bind with (Q := λ _, cb_state_in I).
  { by intros st Hst. }
  intros st0.
  eapply hoare_bind; [apply notify_frame|intros ?].
  by apply hoare_ret.
Qed.

End callback_frame.

Lemma own_writes_save job_id (d0 d : disk) (r : JobStatus) :
  (∀ j, j ≠ job_id → job_files d !! j = job_files d0 !! j) →
  (∃ new, saves d = saves d0 ++ new ∧ Forall (λ s, s.1 = job_id) new) →
  filename r = filename (default empty_job (job_files d0 !! job_id)) →
  own_writes job_id d0 (Utils.save_job_status job_id r d).
Proof.
  intros Hother (new & Hsaves & Hnew) Hname. repeat split; simpl.
  - intros j Hj. rewrite lookup_insert_ne by done. by apply Hother.
  - exists (new ++ [(job_id, r)]). rewrite Hsaves, app_assoc. split; [done|].
    apply Forall_app. split; [done|]. by apply Forall_singleton.
  - exists r. by rewrite lookup_insert_eq.
Qed.

Lemma own_writes_first job_id text p (d0 : disk) :
  own_writes job_id d0 (App.update_job_progress job_id text p d0).
Proof.
  apply own_writes_save; [done| |done].
  exists []. by rewrite app_nil_r.
Qed.

Lemma own_writes_update job_id text p (d0 d : disk) :
  own_writes job_id d0 d →
  own_writes job_id d0 (App.update_job_progress job_id text p d).
Proof.
  intros (Hother & Hsaves & r & Hr & Hname).
  apply own_writes_save; [done..|].
  unfold Utils.load_job_status. by rewrite Hr.
Qed.

Lemma thread_own_writes (w : World)
    (job_id video_path whisper_model : string)
    (chunk_duration timestamp_interval : Z) (d : disk) :
  own_writes job_id d
    (App.process_video_thread w job_id video_path whisper_model
       chunk_duration timestamp_interval d).1.
Proof.
  unfold App.process_video_thread.
  assert (hoare (cb_state_in (own_writes job_id d))
            (Transcriber.process_video w (Some App.update_job_progress) job_id
               video_path whisper_model chunk_duration timestamp_interval)
            (λ _, cb_state_in (own_writes job_id d))
            (cb_state_in (own_writes job_id d))) as Hframe.
  { apply process_video_frame. intros cb [= <-] text p s Hs.
    by apply own_writes_update. }
  specialize (Hframe (Transcriber.initial
                        (App.update_job_progress job_id "Starting processing..." 0 d))
                (own_writes_first _ _ _ _)).
  destruct (Transcriber.process_video _ _ _ _ _ _ _ _) as [st [[tc shots]|e]];
    unfold cb_state_in in Hframe; simpl.
  - apply own_writes_update with (text := "Saving text transcript...") (p := 95%Q)
      in Hframe.
    apply own_writes_update with (text := "Creating PDF with screenshots...")
      (p := 98%Q) in Hframe.
    destruct Hframe as (Hother & Hsaves & r & Hr & Hname).
    apply own_writes_save; [done..|]. simpl.
    unfold Utils.load_job_status. by rewrite Hr.
  - destruct Hframe as (Hother & Hsaves & r & Hr & Hname).
    apply own_writes_save; [done..|]. simpl.
    unfold Utils.load_job_status. by rewrite Hr.
Qed.


Lemma process_video_aborts {S : Type} (w : World)
    (progress_callback : option (string → string → Q → S → S))
    (job_id video_path whisper_model : string)
    (chunk_duration timestamp_interval : Z) (st : Transcriber.locals S) e :
  preparation w video_path chunk_duration = Raise e →
  ∃ st',
    Transcriber.process_video w progress_callback job_id video_path whisper_model
      chunk_duration timestamp_interval st = (st', Raise e)
    ∧ Transcriber.calls st' = Transcriber.calls st
    ∧ Transcriber.timestamped_chunks st' = Transcriber.timestamped_chunks st
    ∧ Transcriber.screenshots st' = Transcriber.screenshots st
    ∧ match progress_callback with
      | Some cb =>
          ∃ text p s, Transcriber.cb_state st' = cb job_id text p s
                      ∧ p ∈ [5%Q; 10%Q; 15%Q]
      | None => Transcriber.cb_state st' = Transcriber.cb_state st
      end.
Proof.
  unfold preparation, Transcriber.process_video, Transcriber.notify.
  destruct (Utils.extract_audio_from_video _ _ _) as [[]|e1] eqn:H1; simpl.
  2:{ intros [= ->]. destruct progress_callback; msimpl;
        (eexists; split; [done|]; do 3 (split; [done|])); [|done].
      eexists _, _, _. split; [done|by repeat constructor]. }
  destruct (Utils.convert_audio_to_wav _ _ _) as [[]|e2] eqn:H2; simpl.
  2:{ intros [= ->]. destruct progress_callback; msimpl;
        (eexists; split; [done|]; do 3 (split; [done|])); [|done].
      eexists _, _, _. split; [done|by repeat constructor]. }
  intros H3. destruct progress_callback; msimpl; rewrite H3;
    (eexists; split; [done|]; do 3 (split; [done|])); [|done].
  eexists _, _, _. split; [done|by repeat constructor].
Qed.


Lemma shots_at_most_entries (shots : gmap string string) (tc : list (string * string)) :
  shots_have_entries shots tc → (size shots <= length tc)%nat.
Proof.
  intros Hlinked.
  rewrite <- (length_fmap fst tc), <- length_map_to_list,
    <- (length_fmap fst (map_to_list shots)).
  apply submseteq_length, NoDup_submseteq; [apply NoDup_fst_map_to_list|].
  intros ts Hts. apply list_elem_of_fmap in Hts as [[ts' path] [-> Hin]].
  apply elem_of_map_to_list in Hin.
  destruct (Hlinked ts') as [text Htext]; [by exists path|].
  apply list_elem_of_fmap. by exists (ts', text).
Qed.

(** X11. A record that the job thread leaves [Completed] counts at most
    as many screenshots as segments. *)
Theorem completed_job_counts (w : World) (job_id video_path whisper_model : string)
    (chunk_duration timestamp_interval : Z) (d : disk) (r : JobStatus) :
  Utils.load_job_status job_id
    (App.process_video_thread w job_id video_path whisper_model
       chunk_duration timestamp_interval d).1 = Some r →
  status r = Some "Completed" →
  ∃ k m, num_screenshots r = Some k ∧ num_segments r = Some m ∧ (k <= m)%nat.
Proof.
  unfold App.process_video_thread.
  set (d1 := App.update_job_progress job_id "Starting processing..." 0 d).
  pose proof (process_video_linked w (Some App.update_job_progress) job_id
                video_path whisper_model chunk_duration timestamp_interval
                (Transcriber.initial d1)) as Hlinked.
  destruct (Transcriber.process_video _ _ _ _ _ _ _ _) as [st [[tc shots]|e]];
    unfold Utils.load_job_status; simpl; rewrite lookup_insert_eq;
    intros [= <-]; simpl.
  - intros _. eexists _, _. split; [done|]. split; [done|].
    apply shots_at_most_entries, Hlinked.
    intros ts Hts. simpl in Hts. rewrite lookup_empty in Hts. by destruct Hts.
  - by ssimpl.
Qed.

(** ** The progress written to the ledger *)

Lemma nondecreasing_snoc (l : list Q) (p : Q) :
  nondecreasing l = true → (∀ y, last l = Some y → (y <= p)%Q) →
  nondecreasing (l ++ [p]) = true.
Proof.
  induction l as [|a l IH]; [done|]. intros Hl Hlast.
  destruct l as [|b l]; simpl in *.
  - rewrite andb_true_r. apply Qle_bool_iff. by apply Hlast.
  - apply andb_true_iff in Hl as [Hab Hl]. rewrite Hab. simpl.
    by apply IH.
Qed.

Lemma progress_history_save job_id r (d : disk) :
  progress_history job_id (Utils.save_job_status job_id r d)
  = progress_history job_id d ++ option_list (progress r).
Proof.
  unfold progress_history. simpl. rewrite omap_app. f_equal. simpl.
  rewrite decide_True by done. by destruct (progress r).
Qed.

Lemma reported_weaken job_id steady h0 b b' d :
  reported job_id steady h0 b d → (b <= b')%Q → reported job_id steady h0 b' d.
Proof.
  intros (tr & Hh & Hr & Hall & Hs) Hb. exists tr.
  split; [done|]. split; [done|]. split; [done|].
  intros Hsteady. destruct (Hs Hsteady) as [Hnd Hlast]. split; [done|].
  intros y Hy. eapply Qle_trans; [|done]. by apply Hlast.
Qed.

Lemma reported_save job_id steady h0 b d r p :
  reported job_id steady h0 b d → progress r = Some p →
  within_percent p → (steady → (b <= p)%Q) →
  reported job_id steady h0 p (Utils.save_job_status job_id r d).
Proof.
  intros (tr & Hh & _ & Hall & Hs) Hp Hin Hb. exists (tr ++ [p]).
  rewrite progress_history_save, Hh, Hp, last_snoc. simpl.
  rewrite <- app_assoc. split; [done|]. split; [|split].
  - exists r. by rewrite lookup_insert_eq.
  - apply Forall_app. split; [done|]. by apply Forall_singleton.
  - intros Hsteady. destruct (Hs Hsteady) as [Hnd Hlast]. split.
    + apply nondecreasing_snoc; [done|].
      intros y Hy. eapply Qle_trans; [by apply Hlast|by apply Hb].
    + intros y [= <-]. apply Qle_refl.
Qed.

Lemma reported_update job_id steady h0 b d text p :
  reported job_id steady h0 b d →
  within_percent p → (steady → (b <= p)%Q) →
  reported job_id steady h0 p (App.update_job_progress job_id text p d).
Proof. intros Hd Hin Hb. by eapply reported_save. Qed.

(** Writing the record again with the progress it holds. *)
Lemma reported_again job_id steady h0 b d r r' :
  reported job_id steady h0 b d → job_files d !! job_id = Some r →
  progress r' = progress r →
  ∃ b', reported job_id steady h0 b' (Utils.save_job_status job_id r' d).
Proof.
  intros (tr & Hh & (r0 & Hr0 & Hlast) & Hall & Hs) Hr Hp.
  assert (r0 = r) as -> by congruence.
  destruct (last tr) as [y|] eqn:Hy.
  - exists y. apply reported_save with (b := y);
      [|congruence| |intros _; apply Qle_refl].
    + exists tr. split; [done|]. split; [|split; [done|]].
      * exists r. by rewrite Hlast.
      * intros Hsteady. destruct (Hs Hsteady) as [Hnd _]. split; [done|].
        intros y' Hy'. assert (y' = y) as -> by congruence. apply Qle_refl.
    + rewrite Forall_forall in Hall. apply Hall.
      apply last_Some in Hy as [l' ->].
      apply elem_of_app. right. by apply list_elem_of_singleton.
  - exists b. exists tr. rewrite progress_history_save, Hp, Hlast, Hy. simpl.
    rewrite app_nil_r. split; [done|]. split; [|by split].
    exists r'. rewrite lookup_insert_eq. by rewrite Hp, Hlast.
Qed.

Lemma share_nonneg (n : nat) : (0 <= 70 / inject_Z (Z.of_nat n))%Q.
Proof.
  unfold Qdiv. apply Qmult_le_0_compat; [done|].
  apply Qinv_le_0_compat. unfold Qle. simpl. lia.
Qed.

Lemma share_total (n : nat) :
  (0 < n)%nat → (inject_Z (Z.of_nat n) * (70 / inject_Z (Z.of_nat n)) == 70)%Q.
Proof.
  intros Hn. apply Qmult_div_r. unfold Qeq. simpl. lia.
Qed.

Lemma inject_nat_succ (k : nat) :
  (inject_Z (Z.of_nat (S k)) == inject_Z (Z.of_nat k) + 1)%Q.
Proof. by rewrite Nat2Z.inj_succ, <- Z.add_1_r, inject_Z_plus. Qed.

Lemma inject_nat_le (k n : nat) :
  (k <= n)%nat → (inject_Z (Z.of_nat k) <= inject_Z (Z.of_nat n))%Q.
Proof. intros Hk. rewrite <- Zle_Qle. lia. Qed.

Ltac halves := unfold Qdiv; change (/ 2)%Q with (1 # 2)%Q.

Lemma chunk_start_percent (n k : nat) (x : Q) :
  (0 <= x)%Q → (inject_Z (Z.of_nat n) * x == 70)%Q → (k < n)%nat →
  within_percent (25 + inject_Z (Z.of_nat k) * x).
Proof.
  intros share total chunk.
  pose proof (inject_nat_le (S k) n chunk) as Hk. rewrite inject_nat_succ in Hk.
  pose proof (inject_nat_le 0 k ltac:(lia)) as H0.
  change (inject_Z (Z.of_nat 0)) with 0%Q in H0.
  revert total Hk H0. generalize (inject_Z (Z.of_nat n)), (inject_Z (Z.of_nat k)).
  intros N K ? ? ?. unfold within_percent. split; nra.
Qed.

Lemma chunk_end_percent (n k : nat) (x : Q) :
  (0 <= x)%Q → (inject_Z (Z.of_nat n) * x == 70)%Q → (k < n)%nat →
  within_percent (25 + inject_Z (Z.of_nat k) * x + x / 2).
Proof.
  intros share total chunk.
  pose proof (inject_nat_le (S k) n chunk) as Hk. rewrite inject_nat_succ in Hk.
  pose proof (inject_nat_le 0 k ltac:(lia)) as H0.
  change (inject_Z (Z.of_nat 0)) with 0%Q in H0.
  revert total Hk H0. generalize (inject_Z (Z.of_nat n)), (inject_Z (Z.of_nat k)).
  intros N K ? ? ?. unfold within_percent. halves. split; nra.
Qed.

Lemma reached_start (k : nat) (x : Q) :
  (0 <= x)%Q → (reached x k <= 25 + inject_Z (Z.of_nat k) * x)%Q.
Proof.
  intros share.
  pose proof (inject_nat_le 0 k ltac:(lia)) as H0.
  change (inject_Z (Z.of_nat 0)) with 0%Q in H0.
  unfold reached. revert H0. generalize (inject_Z (Z.of_nat k)). intros K ?.
  destruct (decide (k = 0%nat)); halves; nra.
Qed.

Lemma start_reached_next (k : nat) (x : Q) :
  (0 <= x)%Q → (25 + inject_Z (Z.of_nat k) * x <= reached x (S k))%Q.
Proof.
  intros share. unfold reached. rewrite decide_False by done.
  rewrite inject_nat_succ.
  generalize (inject_Z (Z.of_nat k)). intros K. halves. nra.
Qed.

Lemma end_reached_next (k : nat) (x : Q) :
  (25 + inject_Z (Z.of_nat k) * x + x / 2 <= reached x (S k))%Q.
Proof.
  unfold reached. rewrite decide_False by done. rewrite inject_nat_succ.
  generalize (inject_Z (Z.of_nat k)). intros K. halves. nra.
Qed.

Lemma reached_end (n : nat) (x : Q) :
  (0 <= x)%Q → ((0 < n)%nat → (inject_Z (Z.of_nat n) * x == 70)%Q) →
  (n <= 7)%nat → (reached x n <= 90)%Q.
Proof.
  intros Hx Htotal Hn. unfold reached.
  destruct (decide (n = 0%nat)) as [|Hpos]; [done|].
  specialize (Htotal ltac:(lia)).
  pose proof (inject_nat_le n 7 Hn) as H7. change (inject_Z (Z.of_nat 7)) with 7%Q in H7.
  revert Htotal H7. generalize (inject_Z (Z.of_nat n)). intros N ? ?. halves. nra.
Qed.

Lemma hoare_for_each_indexed {St A} (body : nat → A → M St unit)
    (I : nat → St → Prop) E (start : nat) (l : list A) :
  (∀ k x, l !! k = Some x →
     hoare (I (start + k)%nat) (body (start + k)%nat x)
       (λ _, I (S (start + k))) E) →
  hoare (I start) (for_each body start l) (λ _, I (start + length l)%nat) E.
Proof.
  revert start. induction l as [|x l IH]; intros start Hbody; simpl.
  - apply hoare_ret. intros st. by rewrite Nat.add_0_r.
  - eapply hoare_bind.
    + specialize (Hbody 0%nat x eq_refl). rewrite Nat.add_0_r in Hbody.
      apply Hbody.
    + intros ?. replace (start + S (length l))%nat with (S start + length l)%nat by lia.
      apply IH. intros k y Hk.
      replace (S start + k)%nat with (start + S k)%nat by lia.
      by apply Hbody.
Qed.

Section progress.
Variable w : World.
Variables job_id video_path whisper_model : string.
Variables chunk_duration timestamp_interval : Z.
Variable steady : Prop.
Variable h0 : list Q.

Abbreviation at_most b :=
  (cb_state_in (S := disk) (reported job_id steady h0 b)).

Lemma notify_reported text b p E :
  within_percent p → (steady → (b <= p)%Q) →
  hoare (at_most b)
    (Transcriber.notify (Some App.update_job_progress) job_id text p)
    (λ _, at_most p) E.
Proof.
  intros Hp Hb. apply hoare_modify. intros st Hst.
  by apply reported_update with (b := b).
Qed.

Lemma body_reported screenshots_dir i chunk start_time b :
  hoare (at_most b)
    ('(_, segments) ←
       Transcriber.transcribe_audio_chunk_with_whisper w i chunk whisper_model;
     for_each (Transcriber.process_segment w video_path timestamp_interval
                 screenshots_dir start_time i) 0 segments)
    (λ _, at_most b) (at_most b).
Proof.
  eapply hoare_bind; [by apply transcribe_frame|].
  intros [raw segments]. by apply segments_frame.
Qed.

Lemma process_chunk_reported screenshots_dir n x k cs E :
  (0 <= x)%Q → (inject_Z (Z.of_nat n) * x == 70)%Q → (k < n)%nat →
  hoare (at_most (reached x k))
    (Transcriber.process_chunk w (Some App.update_job_progress) job_id video_path
       whisper_model timestamp_interval screenshots_dir n x k cs)
    (λ _, at_most (reached x (S k))) E.
Proof.
  intros Hx Htotal Hk. destruct cs as [chunk start_time].
  unfold Transcriber.process_chunk.
  eapply hoare_bind.
  { apply notify_reported; [by apply (chunk_start_percent n)|].
    intros _. by apply reached_start. }
  intros ?.
  eapply hoare_try_except
    with (E' := at_most (25 + inject_Z (Z.of_nat k) * x)%Q).
  - eapply hoare_bind; [by apply transcribe_frame|].
    intros [raw segments].
    eapply hoare_bind; [by apply segments_frame|]. intros ?.
    eapply hoare_consequence.
    + apply notify_reported with (b := (25 + inject_Z (Z.of_nat k) * x)%Q);
        [by apply (chunk_end_percent n)|].
      intros _. halves. nra.
    + done.
    + intros ? st Hst. eapply reported_weaken; [exact Hst|].
      apply end_reached_next.
    + done.
  - intros e. apply hoare_ret. intros st Hst.
    eapply reported_weaken; [exact Hst|]. by apply start_reached_next.
Qed.

Hypothesis few_chunks :
  steady → ∀ chunk_files timestamps n,
    Utils.split_audio_into_chunks w (path_join (temp_dir w) "audio.wav")
      (path_join (temp_dir w) "chunks") chunk_duration
    = Ok (chunk_files, timestamps, n) →
    (length chunk_files <= 7)%nat.

Lemma process_video_reported :
  hoare (at_most 0)
    (Transcriber.process_video w (Some App.update_job_progress) job_id video_path
       whisper_model chunk_duration timestamp_interval)
    (λ _, at_most 95) (λ st, ∃ b, at_most b st).
Proof.
  assert (∀ b, ∀ st : Transcriber.locals disk, at_most b st → ∃ b', at_most b' st)
    as Hsome by eauto.
  unfold Transcriber.process_video.
  eapply hoare_bind; [apply notify_reported; [by split|by intros _]|intros ?].
  eapply hoare_bind; [apply notify_reported; [by split|by intros _]|intros ?].
  eapply hoare_bind; [apply hoare_lift_keep, Hsome|intros ?].
  eapply hoare_bind; [apply notify_reported; [by split|by intros _]|intros ?].
  eapply hoare_bind; [apply hoare_lift_keep, Hsome|intros ?].
  eapply hoare_bind; [apply notify_reported; [by split|by intros _]|intros ?].
  eapply hoare_bind; [apply hoare_lift, Hsome|].
  intros [[audio_chunks start_times] num_chunks].
  set (n := length audio_chunks).
  set (x := if decide (0 < n)%nat then (70 / inject_Z (Z.of_nat n))%Q else 0%Q).
  assert (0 <= x)%Q as Hx.
  { subst x. destruct (decide _); [apply share_nonneg|done]. }
  assert ((0 < n)%nat → (inject_Z (Z.of_nat n) * x == 70)%Q) as Htotal.
  { intros Hn. subst x. rewrite decide_True by done. by apply share_total. }
  eapply hoare_bind with
    (Q := λ _ st, Utils.split_audio_into_chunks w (path_join (temp_dir w) "audio.wav")
                    (path_join (temp_dir w) "chunks") chunk_duration
                  = Ok (audio_chunks, start_times, num_chunks)
                  ∧ at_most (reached x 0) st).
  { intros st [Hsplit Hst]. split; [done|].
    by apply (reported_update job_id steady h0 15%Q). }
  intros ?.
  eapply hoare_bind with
    (Q := λ _ st, Utils.split_audio_into_chunks w (path_join (temp_dir w) "audio.wav")
                    (path_join (temp_dir w) "chunks") chunk_duration
                  = Ok (audio_chunks, start_times, num_chunks)
                  ∧ at_most (reached x n) st).
  { intros st [Hsplit Hst].
    pose proof (split_same_length _ _ _ _ _ _ _ Hsplit) as Hlen.
    pose proof (hoare_for_each_indexed
      (Transcriber.process_chunk w (Some App.update_job_progress) job_id video_path
         whisper_model timestamp_interval (path_join (temp_dir w) "screenshots") n x)
      (λ k, at_most (reached x k)) (λ _, False) 0
      (zip audio_chunks start_times)) as Hloop.
    rewrite length_zip_with_l_eq in Hloop by done. fold n in Hloop.
    specialize (Hloop
      (λ k cs Hk, process_chunk_reported _ n x k cs _ Hx
         (Htotal ltac:(apply lookup_lt_Some in Hk;
                       rewrite length_zip_with_l_eq in Hk by done; lia))
         ltac:(apply lookup_lt_Some in Hk;
               rewrite length_zip_with_l_eq in Hk by done; done)) st Hst).
    by destruct (for_each _ _ _ st) as [st' [[]|e]]. }
  intros ?.
  eapply hoare_bind with (Q := λ _, at_most 90).
  { intros st [Hsplit Hst].
    apply reported_update with (b := reached x n); [exact Hst|by split|].
    intros Hs. apply reached_end; [done..|]. by eapply few_chunks. }
  intros ?.
  eapply hoare_bind with (Q := λ _, at_most 90); [by intros st Hst|].
  intros st0.
  eapply hoare_bind; [apply notify_reported; [by split|by intros _]|intros ?].
  by apply hoare_ret.
Qed.

End progress.

Lemma reported_first job_id steady text (d : disk) :
  reported job_id steady (progress_history job_id d) 0
    (App.update_job_progress job_id text 0 d).
Proof.
  exists [0%Q]. unfold App.update_job_progress.
  rewrite progress_history_save. simpl. split; [done|]. split; [|split].
  - eexists. by rewrite lookup_insert_eq.
  - by apply Forall_singleton.
  - intros _. split; [done|]. intros y [= <-]. apply Qle_refl.
Qed.

Lemma thread_progress (steady : Prop) (w : World)
    (job_id video_path whisper_model : string)
    (chunk_duration timestamp_interval : Z) (d : disk) :
  (steady → ∀ chunk_files timestamps n,
     Utils.split_audio_into_chunks w (path_join (temp_dir w) "audio.wav")
       (path_join (temp_dir w) "chunks") chunk_duration
     = Ok (chunk_files, timestamps, n) →
     (length chunk_files <= 7)%nat) →
  ∃ tr,
    progress_history job_id
      (App.process_video_thread w job_id video_path whisper_model
         chunk_duration timestamp_interval d).1
    = progress_history job_id d ++ tr
    ∧ Forall within_percent tr
    ∧ (steady → nondecreasing tr = true).
Proof.
  intros Hfew.
  assert (∀ b d', reported job_id steady (progress_history job_id d) b d' →
            ∃ tr, progress_history job_id d' = progress_history job_id d ++ tr
                  ∧ Forall within_percent tr
                  ∧ (steady → nondecreasing tr = true)) as Hdone.
  { intros b d' (tr & Hh & _ & Hall & Hs). exists tr.
    split; [done|]. split; [done|]. intros Hsteady. by apply Hs. }
  unfold App.process_video_thread.
  pose proof (process_video_reported w job_id video_path whisper_model
                chunk_duration timestamp_interval steady
                (progress_history job_id d) Hfew
                (Transcriber.initial
                   (App.update_job_progress job_id "Starting processing..." 0 d))
                (reported_first _ _ _ _)) as Hrun.
  destruct (Transcriber.process_video _ _ _ _ _ _ _ _) as [st [[tc shots]|e]];
    unfold cb_state_in in Hrun; simpl.
  - apply reported_update with (text := "Saving text transcript...") (p := 95%Q)
      in Hrun; [|by split|by intros _].
    apply reported_update with (text := "Creating PDF with screenshots...")
      (p := 98%Q) in Hrun; [|by split|by intros _].
    eapply Hdone, reported_save; [exact Hrun|done|by split|by intros _].
  - destruct Hrun as [b Hrun].
    pose proof Hrun as (tr & _ & (r & Hr & _) & _).
    edestruct reported_again as [b' Hb']; [exact Hrun|exact Hr| |by eapply Hdone].
    unfold Utils.load_job_status. by rewrite Hr.
Qed.

Lemma py_int_below (x : Q) (k : Z) : 0 < k → (x < inject_Z k)%Q → py_int x < k.
Proof.
  destruct x as [a b]. unfold Qlt, py_int. simpl. intros Hk Hx.
  destruct (decide (0 <= a)).
  - apply Z.quot_lt_upper_bound; lia.
  - assert (a ÷ Z.pos b <= 0); [|lia].
    apply Z.quot_le_upper_bound; lia.
Qed.

Lemma split_few_chunks w audio_path chunk_dir (D : Z) chunk_files timestamps n :
  0 < D → (∀ L, probe_run w = Ok L → (L < inject_Z (7 * D))%Q) →
  Utils.split_audio_into_chunks w audio_path chunk_dir D
  = Ok (chunk_files, timestamps, n) →
  (length chunk_files <= 7)%nat.
Proof.
  intros HD Hshort. unfold Utils.split_audio_into_chunks.
  destruct (negb (wav_exists w)); [done|].
  destruct (probe_run w) as [L|e]; simpl; [|done].
  destruct (decide (D = 0)); [done|].
  pose proof (carve_chunks_spec w chunk_dir D
                (seq 0 (Z.to_nat (py_int (L / inject_Z D) + 1))) [] []) as Hloop.
  destruct (Utils.carve_chunks _ _ _ _ _ _) as [[files ts]|e]; simpl; [|done].
  destruct Hloop as [-> ->]. intros [= <- <- <-]. simpl.
  rewrite length_fmap, length_seq.
  assert (py_int (L / inject_Z D) < 7); [|lia].
  apply py_int_below; [done|]. apply Qlt_shift_div_r.
  - unfold Qlt. simpl. lia.
  - rewrite <- inject_Z_mult. by apply Hshort.
Qed.

(** X9. Every progress value that the job thread writes to the ledger
    is a percentage, between 0 and 100, for any number of chunks. *)
Theorem progress_is_a_percentage (w : World)
    (job_id video_path whisper_model : string)
    (chunk_duration timestamp_interval : Z) (d : disk) :
  ∃ written,
    progress_history job_id
      (App.process_video_thread w job_id video_path whisper_model
         chunk_duration timestamp_interval d).1
    = progress_history job_id d ++ written
    ∧ Forall (λ p, (0 <= p)%Q ∧ (p <= 100)%Q) written.
Proof.
  destruct (thread_progress False w job_id video_path whisper_model
              chunk_duration timestamp_interval d) as (tr & Hh & Hall & _);
    [done|].
  by exists tr.
Qed.

(** X10. When the audio is shorter than seven chunk durations, so that
    it is split into at most seven chunks, the progress values that the
    job thread writes never decrease, whatever fails on the way. *)
Theorem progress_rises_up_to_seven_chunks (w : World)
    (job_id video_path whisper_model : string)
    (chunk_duration timestamp_interval : Z) (d : disk) :
  0 < chunk_duration →
  (∀ L, probe_run w = Ok L → (L < inject_Z (7 * chunk_duration))%Q) →
  ∃ written,
    progress_history job_id
      (App.process_video_thread w job_id video_path whisper_model
         chunk_duration timestamp_interval d).1
    = progress_history job_id d ++ written
    ∧ nondecreasing written = true.
Proof.
  intros HD Hshort.
  destruct (thread_progress True w job_id video_path whisper_model
              chunk_duration timestamp_interval d) as (tr & Hh & _ & Hnd).
  { intros _ files ts n. by apply split_few_chunks. }
  exists tr. split; [done|]. by apply Hnd.
Qed.

Lemma progress_rises_up_to_seven_chunks_witness :
  (0 < 60 ∧ ∀ L, probe_run two_minutes = Ok L → (L < inject_Z (7 * 60))%Q)
  ∧ ∃ written,
      progress_history "job1"
        (App.process_video_thread two_minutes "job1" "talk.mp4" "base" 60 30
           empty_disk).1
      = progress_history "job1" empty_disk ++ written
      ∧ nondecreasing written = true.
Proof.
  assert (0 < 60 ∧ ∀ L, probe_run two_minutes = Ok L → (L < inject_Z (7 * 60))%Q)
    as Hyp.
  { split; [lia|]. simpl. by intros L [= <-]. }
  split; [exact Hyp|]. destruct Hyp as [HD Hshort].
  exact (progress_rises_up_to_seven_chunks two_minutes "job1" "talk.mp4" "base"
           60 30 empty_disk HD Hshort).
Defined.

(** ** Entries and screenshots that [process_video] returns *)

Section tidy.
Context {S : Type}.
Variable w : World.
Variable progress_callback : option (string → string → Q → S → S).
Variables job_id video_path whisper_model : string.
Variables chunk_duration timestamp_interval : Z.
Variable dir : string.

Lemma tidy_append ts text (st : Transcriber.locals S) :
  tidy dir st → tidy_entry (ts, text) →
  tidy dir (Transcriber.append_chunk (ts, text) st).
Proof.
  intros [Hshots Htc] He. split; [done|]. simpl.
  apply Forall_app. split; [done|]. by apply Forall_singleton.
Qed.

Lemma tidy_set t ts (st : Transcriber.locals S) :
  tidy dir st → Utils.format_timestamp t = Ok ts →
  tidy dir (Transcriber.set_screenshot ts (screenshot_file dir t) st).
Proof.
  intros [Hshots Htc] Hts. split; [|done]. simpl.
  intros ts' path. destruct (decide (ts = ts')) as [<-|Hne].
  - rewrite lookup_insert_eq. intros [= <-]. by exists t.
  - rewrite lookup_insert_ne by done. apply Hshots.
Qed.

Lemma notify_tidy text p E :
  hoare (tidy (S := S) dir) (Transcriber.notify progress_callback job_id text p)
    (λ _, tidy dir) E.
Proof.
  unfold Transcriber.notify. destruct progress_callback as [cb|].
  - by apply hoare_modify.
  - by apply hoare_ret.
Qed.

Lemma process_segment_tidy start_time i j segment :
  hoare (tidy (S := S) dir)
    (Transcriber.process_segment w video_path timestamp_interval dir
       start_time i j segment)
    (λ _, tidy dir) (tidy dir).
Proof.
  intros st Hst. unfold Transcriber.process_segment.
  destruct (decide _) as [|Htext]; [done|]. msimpl.
  destruct (Utils.format_timestamp _) as [ts|e] eqn:Hts; simpl; [|done].
  assert (tidy_entry (ts, strip (default EmptyString (seg_text segment)))) as He.
  { split; [by eexists|]. split; [done|apply strip_idempotent]. }
  destruct (within_capture_window _ _) as [[|]|e]; simpl; [| |done].
  - destruct (Utils.extract_screenshot _ _ _ _) as [[|]|e]; simpl; [| |done].
    + apply tidy_append; [|done].
      by apply (tidy_set _ _ (Transcriber.log_call _ st)).
    + by apply (tidy_append _ _ (Transcriber.log_call _ st)).
  - by apply tidy_append.
Qed.

Lemma process_chunk_tidy n ppc i cs E :
  hoare (tidy (S := S) dir)
    (Transcriber.process_chunk w progress_callback job_id video_path whisper_model
       timestamp_interval dir n ppc i cs)
    (λ _, tidy dir) E.
Proof.
  destruct cs as [chunk start_time]. unfold Transcriber.process_chunk.
  eapply hoare_bind; [apply notify_tidy|]. intros ?.
  eapply hoare_try_except with (E' := tidy dir); [|intros e; by apply hoare_ret].
  eapply hoare_bind with (Q := λ _, tidy dir).
  - unfold Transcriber.transcribe_audio_chunk_with_whisper.
    eapply hoare_bind with (Q := λ _, tidy dir); [by apply hoare_modify|].
    intros ?. by apply hoare_lift_keep.
  - intros [raw segments].
    eapply hoare_bind; [|intros ?; apply notify_tidy].
    apply hoare_for_each. intros j segment. apply process_segment_tidy.
Qed.

End tidy.

Lemma persist_of_moments w output_dir dir (shots : gmap string string) :
  shots_of_moments dir shots →
  ∀ timestamp path,
    Transcriber.persist w output_dir shots !! timestamp = Some path →
    ∃ t, Utils.format_timestamp t = Ok timestamp
         ∧ path = screenshot_file output_dir t
         ∧ shots !! timestamp = Some (screenshot_file dir t)
         ∧ copy_run w (screenshot_file dir t) = None.
Proof.
  intros Hshots ts path. unfold Transcriber.persist. rewrite lookup_omap.
  destruct (shots !! ts) as [temp|] eqn:Htemp; simpl; [|done].
  destruct (Hshots ts temp Htemp) as (t & Hts & ->).
  destruct (copy_run w _) eqn:Hcopy; [done|]. intros [= <-].
  exists t. rewrite basename_screenshot_file. by repeat split.
Qed.

Lemma process_video_tidy {S : Type} (w : World)
    (progress_callback : option (string → string → Q → S → S))
    (job_id video_path whisper_model : string)
    (chunk_duration timestamp_interval : Z) :
  hoare (tidy (S := S) (path_join (temp_dir w) "screenshots"))
    (Transcriber.process_video w progress_callback job_id video_path whisper_model
       chunk_duration timestamp_interval)
    (λ r st, r.1 = Transcriber.timestamped_chunks st
             ∧ r.2 = Transcriber.persist w
                       (path_join (path_join (cwd w) "output") job_id)
                       (Transcriber.screenshots st)
             ∧ tidy (path_join (temp_dir w) "screenshots") st)
    (λ _, True).
Proof.
  unfold Transcriber.process_video.
  eapply hoare_bind; [apply notify_tidy|intros ?].
  eapply hoare_bind; [apply notify_tidy|intros ?].
  eapply hoare_bind; [by apply hoare_lift_keep|intros ?].
  eapply hoare_bind; [apply notify_tidy|intros ?].
  eapply hoare_bind; [by apply hoare_lift_keep|intros ?].
  eapply hoare_bind; [apply notify_tidy|intros ?].
  eapply hoare_bind; [by apply hoare_lift_keep|].
  intros [[audio_chunks start_times] num_chunks].
  eapply hoare_bind; [apply notify_tidy|intros ?].
  eapply hoare_bind;
    [apply hoare_for_each; intros i cs; apply process_chunk_tidy|intros ?].
  eapply hoare_bind; [apply notify_tidy|intros ?].
  eapply hoare_bind; [apply hoare_get|].
  intros st0 st [-> Hst]. unfold Transcriber.notify.
  by destruct progress_callback.
Qed.

(** X6. Each screenshot that [process_video] returns under a label is
    the file [screenshot_NNNNNN.jpg] in the directory [output/<job_id>]
    of the working directory, where [NNNNNN] is the whole second of a
    moment that has this label, and the copy of that file from the
    temporary directory had succeeded. *)
Theorem persisted_screenshots_are_files_of_their_labels {S : Type} (w : World)
    (progress_callback : option (string → string → Q → S → S))
    (job_id video_path whisper_model : string)
    (chunk_duration timestamp_interval : Z) (s0 : S)
    (st : Transcriber.locals S)
    (timestamped_chunks : list (string * string)) (screenshots : gmap string string) :
  Transcriber.process_video w progress_callback job_id video_path whisper_model
    chunk_duration timestamp_interval (Transcriber.initial s0)
  = (st, Ok (timestamped_chunks, screenshots)) →
  ∀ timestamp path,
    screenshots !! timestamp = Some path →
    ∃ t, Utils.format_timestamp t = Ok timestamp
         ∧ path = path_join (path_join (path_join (cwd w) "output") job_id)
                    ("screenshot_" +:+ format_d 6 (py_int t) +:+ ".jpg")
         ∧ copy_run w (screenshot_file (path_join (temp_dir w) "screenshots") t)
           = None.
Proof.
  intros Hrun ts path Hpath.
  pose proof (process_video_tidy w progress_callback job_id video_path
                whisper_model chunk_duration timestamp_interval
                (Transcriber.initial s0)) as Htidy.
  rewrite Hrun in Htidy. destruct Htidy as (_ & Hshots & Hst & _).
  { split; [|by apply Forall_nil]. intros ts' p. simpl. by rewrite lookup_empty. }
  simpl in Hshots. subst screenshots.
  destruct (persist_of_moments _ _ _ _ Hst ts path Hpath) as (t & Hts & -> & _ & Hcopy).
  by exists t.
Qed.


(** ** The command-line run *)

Lemma cli_consistent_entry ts text (st : VideoToText.locals) :
  cli_consistent st →
  cli_consistent
    (VideoToText.write (entry ts text) (VideoToText.append_chunk (ts, text) st)).
Proof.
  intros (Hshots & Hfile & Hfull). split; [|split].
  - intros ts' Hts'. destruct (Hshots ts' Hts') as [text' Hin].
    exists text'. simpl. set_solver.
  - by apply file_is_rendering_entry.
  - simpl. by rewrite Hfull.
Qed.

Lemma cli_consistent_shot_entry ts path text c (st : VideoToText.locals) :
  cli_consistent st →
  cli_consistent
    (VideoToText.write (entry ts text)
       (VideoToText.append_chunk (ts, text)
          (VideoToText.set_screenshot ts path (VideoToText.log_call c st)))).
Proof.
  intros (Hshots & Hfile & Hfull). split; [|split].
  - intros ts' Hts'. simpl in *. destruct (decide (ts = ts')) as [<-|Hne].
    + exists text. set_solver.
    + rewrite lookup_insert_ne in Hts' by done.
      destruct (Hshots ts' Hts') as [text' Hin]. exists text'. set_solver.
  - by apply (file_is_rendering_entry ts text
                (VideoToText.set_screenshot ts path (VideoToText.log_call c st))).
  - simpl. by rewrite Hfull.
Qed.

Section cli_consistency.
Variable w : World.
Variable args : VideoToText.Args.
Variable skip : bool.
Variables model pdf_context : option string.
Variable screenshots_dir : string.

Lemma cli_process_segment_consistent start_time i j segment :
  hoare cli_consistent
    (VideoToText.process_segment w args skip model pdf_context screenshots_dir
       start_time i j segment)
    (λ _, cli_consistent) cli_consistent.
Proof.
  intros st Hst. unfold VideoToText.process_segment.
  destruct (decide _) as [_|_]; [done|]. msimpl.
  destruct (VideoToText.format_timestamp _) as [ts|e]; simpl; [|done].
  destruct (within_capture_window _ _) as [[|]|e]; simpl; [| |done].
  - destruct (VideoToText.extract_screenshot _ _ _ _) as [[|]|e]; simpl;
      [| |done].
    + by apply cli_consistent_shot_entry.
    + by apply (cli_consistent_entry ts _ (VideoToText.log_call _ st)).
  - by apply cli_consistent_entry.
Qed.

Lemma cli_process_whole_chunk_consistent start_time i raw :
  hoare cli_consistent
    (VideoToText.process_whole_chunk w args skip model pdf_context
       screenshots_dir start_time i raw)
    (λ _, cli_consistent) cli_consistent.
Proof.
  intros st Hst. unfold VideoToText.process_whole_chunk. msimpl.
  destruct (VideoToText.format_timestamp _) as [ts|e]; simpl; [|done].
  destruct (VideoToText.extract_screenshot _ _ _ _) as [[|]|e]; simpl; [| |done].
  - by apply cli_consistent_shot_entry.
  - by apply (cli_consistent_entry ts _ (VideoToText.log_call _ st)).
Qed.

Lemma cli_process_chunk_consistent i cs :
  hoare cli_consistent
    (VideoToText.process_chunk w args skip model pdf_context screenshots_dir i cs)
    (λ _, cli_consistent) (λ _, False).
Proof.
  destruct cs as [chunk start_time]. unfold VideoToText.process_chunk.
  eapply hoare_try_except with (E' := cli_consistent);
    [|intros e; by apply hoare_ret].
  eapply hoare_bind with (Q := λ _, cli_consistent).
  - unfold VideoToText.transcribe_audio_chunk_with_whisper.
    eapply hoare_bind with (Q := λ _, cli_consistent);
      [by apply hoare_modify|].
    intros ?. by apply hoare_lift_keep.
  - intros [raw [|segment segments]].
    + apply cli_process_whole_chunk_consistent.
    + apply hoare_for_each. intros j x. apply cli_process_segment_consistent.
Qed.

End cli_consistency.

Lemma main_consistent (w : World) (args : VideoToText.Args) :
  hoare cli_consistent (VideoToText.main w args)
    (λ r st, cli_consistent st
             ∧ r.1.1 = VideoToText.timestamped_chunks st
             ∧ r.1.2 = VideoToText.screenshots st
             ∧ cli_preparation w args = Ok ())
    (λ st, cli_consistent st
           ∧ ∃ e, cli_preparation w args = Raise e).
Proof.
  unfold VideoToText.main, cli_preparation.
  intros st Hst. msimpl.
  destruct (VideoToText.extract_audio_from_video _ _ _) as [[]|e1]; simpl;
    [|by eauto].
  destruct (VideoToText.convert_audio_to_wav _ _ _) as [[]|e2]; simpl;
    [|by eauto].
  destruct (VideoToText.split_audio_into_chunks _ _ _ _)
    as [[audio_chunks start_times]|e3]; simpl; [|by eauto].
  destruct (VideoToText.truthy (VideoToText.pdf args)); simpl.
  - destruct (VideoToText.extract_text_from_pdf _ _) as [text|e4]; simpl;
      [|by eauto].
    match goal with
    | |- context [for_each ?body 0 ?l st] =>
        pose proof (hoare_for_each body cli_consistent (λ _, False) 0 l
                      (λ i cs, cli_process_chunk_consistent w args _ _ _ _ i cs)
                      st Hst) as Hloop;
        destruct (for_each body 0 l st) as [st' [[]|e]]; [|done]
    end.
    done.
  - match goal with
    | |- context [for_each ?body 0 ?l st] =>
        pose proof (hoare_for_each body cli_consistent (λ _, False) 0 l
                      (λ i cs, cli_process_chunk_consistent w args _ _ _ _ i cs)
                      st Hst) as Hloop;
        destruct (for_each body 0 l st) as [st' [[]|e]]; [|done]
    end.
    done.
Qed.

Lemma cli_consistent_initial : cli_consistent VideoToText.initial.
Proof.
  split; [|done]. intros ts Hts. simpl in Hts. rewrite lookup_empty in Hts.
  by destruct Hts.
Qed.

Lemma cli_process_chunk_returns w args skip model pdf_context screenshots_dir i cs
    (st : VideoToText.locals) :
  (VideoToText.process_chunk w args skip model pdf_context screenshots_dir i cs
     st).2 = Ok ().
Proof.
  destruct cs as [chunk start_time]. unfold VideoToText.process_chunk, try_except.
  match goal with
  | |- (match ?m with _ => _ end).2 = _ => by destruct m as [st' [[]|e]]
  end.
Qed.

Lemma cli_loop_returns w args skip model pdf_context screenshots_dir
    (l : list (string * Z)) start (st : VideoToText.locals) :
  (for_each (VideoToText.process_chunk w args skip model pdf_context screenshots_dir)
     start l st).2 = Ok ().
Proof.
  revert start st. induction l as [|cs l IH]; intros start st; [done|].
  rewrite for_each_cons.
  pose proof (cli_process_chunk_returns w args skip model pdf_context
                screenshots_dir start cs st) as Hr.
  destruct (VideoToText.process_chunk _ _ _ _ _ _ _ _ st) as [st' r].
  simpl in Hr. subst r. apply IH.
Qed.



(** ** The detection of a text-correction model *)

Lemma first_preferred_available preferred available m :
  VideoToText.first_preferred preferred available = Some m → m ∈ available.
Proof.
  induction preferred as [|name rest IH]; simpl; [done|].
  destruct (filter _ available) as [|m' l] eqn:Hf; [done|].
  intros [= <-].
  assert (m' ∈ filter (λ m0, contains name m0 = true) available) as Hin.
  { rewrite Hf. by left. }
  by apply list_elem_of_filter in Hin as [_ ?].
Qed.

Lemma first_preferred_head name rest available m :
  m ∈ available → contains name m = true →
  ∃ m', VideoToText.first_preferred (name :: rest) available = Some m'
        ∧ contains name m' = true.
Proof.
  intros Hin Hm. simpl.
  destruct (filter _ available) as [|m' l] eqn:Hf.
  - assert (m ∈ filter (λ m0, contains name m0 = true) available) as Hin'
      by by apply list_elem_of_filter.
    rewrite Hf in Hin'. by apply elem_of_nil in Hin'.
  - exists m'. split; [done|].
    assert (m' ∈ filter (λ m0, contains name m0 = true) available) as Hin'.
    { rewrite Hf. by left. }
    by apply list_elem_of_filter in Hin' as [? _].
Qed.

(** X15. [check_ollama_gpu_model_availability] returns [None] when the
    models cannot be listed; otherwise it returns [None] exactly when no
    model is installed, it only ever returns an installed model, it
    returns the requested model when that is installed, and without a
    request it returns a model whose name contains [llama3.1:8b] when
    there is one. *)
Theorem detected_model_is_installed (w : World) (requested_model : option string) :
  let detected := VideoToText.check_ollama_gpu_model_availability w requested_model in
  match ollama_models_run w with
  | Raise _ => detected = None
  | Ok available_models =>
      (detected = None ↔ available_models = [])
      ∧ (∀ m, detected = Some m → m ∈ available_models)
      ∧ (∀ m, requested_model = Some m → m ≠ EmptyString →
              m ∈ available_models → detected = Some m)
      ∧ (∀ m, requested_model = None → m ∈ available_models →
              contains "llama3.1:8b" m = true →
              ∃ m', detected = Some m' ∧ contains "llama3.1:8b" m' = true)
  end.
Proof.
  intros detected. subst detected.
  unfold VideoToText.check_ollama_gpu_model_availability.
  destruct (ollama_models_run w) as [available|e]; [|done].
  split; [|split; [|split]].
  - destruct (VideoToText.truthy requested_model
              && bool_decide (default EmptyString requested_model ∈ available))
      eqn:Hreq.
    + apply andb_true_iff in Hreq as [Ht Hin]. apply bool_decide_eq_true in Hin.
      destruct requested_model as [r|]; [|done]. simpl in Hin.
      split; [done|]. intros ->. by apply elem_of_nil in Hin.
    + destruct (VideoToText.first_preferred _ _) as [m|] eqn:Hp.
      * split; [done|]. intros ->.
        apply first_preferred_available in Hp. by apply elem_of_nil in Hp.
      * by destruct available; split.
  - intros m.
    destruct (VideoToText.truthy requested_model
              && bool_decide (default EmptyString requested_model ∈ available))
      eqn:Hreq.
    + apply andb_true_iff in Hreq as [Ht Hin]. apply bool_decide_eq_true in Hin.
      destruct requested_model as [r|]; [|done]. simpl in Hin. by intros [= <-].
    + destruct (VideoToText.first_preferred _ _) as [m'|] eqn:Hp.
      * intros [= <-]. by eapply first_preferred_available.
      * destruct available as [|a l]; [done|]. intros [= <-]. by left.
  - intros m -> Hm Hin. simpl.
    rewrite (bool_decide_false (m = EmptyString)) by done.
    by rewrite (bool_decide_true (m ∈ available)) by done.
  - intros m -> Hin Hm.
    destruct (first_preferred_head "llama3.1:8b"
                ["llama3.2:3b"; "llama3.2"; "mistral"] available m Hin Hm)
      as (m' & Hfp & Hm').
    exists m'. split; [|done].
    change (VideoToText.truthy None) with false. rewrite andb_false_l.
    by rewrite Hfp.
Qed.

Lemma improved_of_empty w skip model pdf_context :
  VideoToText.improved w skip model pdf_context EmptyString = EmptyString.
Proof. unfold VideoToText.improved. by destruct skip. Qed.

(** X14. A chunk for which the speech model returns a text and no
    segments: when the chunk start has a label and ffmpeg exits normally
    on the frame grab, the command-line loop records exactly one entry,
    at the label of the chunk start, with the (corrected) text of the
    whole chunk, also when that text is empty, writes it to the output
    file and grabs a frame unconditionally; the interactive pipeline
    records nothing for such a chunk. *)
Theorem chunk_without_segments {S : Type} (w : World) (args : VideoToText.Args)
    (skip : bool) (model pdf_context : option string) (screenshots_dir : string)
    (progress_callback : option (string → string → Q → S → S)) (job_id : string)
    (n : nat) (ppc : Q) (i : nat) (chunk : string) (start_time : Z)
    (raw_transcription timestamp : string)
    (cst : VideoToText.locals) (st : Transcriber.locals S) :
  whisper_run w i = Ok (raw_transcription, []) →
  VideoToText.format_timestamp (inject_Z start_time) = Ok timestamp →
  grab_run (shot_run w i 0) = None →
  let text := VideoToText.improved w skip model pdf_context raw_transcription in
  let cst' :=
    (VideoToText.process_chunk w args skip model pdf_context screenshots_dir i
       (chunk, start_time) cst).1 in
  let st' :=
    (Transcriber.process_chunk w progress_callback job_id
       (VideoToText.video_file args) (VideoToText.whisper_model args)
       (VideoToText.timestamp_interval args) screenshots_dir n ppc i
       (chunk, start_time) st).1 in
  VideoToText.timestamped_chunks cst'
  = VideoToText.timestamped_chunks cst ++ [(timestamp, text)]
  ∧ VideoToText.out_file cst' = VideoToText.out_file cst +:+ entry timestamp text
  ∧ VideoToText.calls cst'
    = VideoToText.calls cst
      ++ [CallTranscribe chunk (VideoToText.whisper_model args);
          CallExtractScreenshot (VideoToText.video_file args)
            (screenshot_file screenshots_dir (inject_Z start_time)) timestamp]
  ∧ (raw_transcription = EmptyString → text = EmptyString)
  ∧ Transcriber.timestamped_chunks st' = Transcriber.timestamped_chunks st
  ∧ Transcriber.calls st'
    = Transcriber.calls st
      ++ [CallTranscribe chunk (VideoToText.whisper_model args)].
Proof.
  intros Hwhisper Hts Hgrab text cst' st'. subst text cst' st'.
  split; [|split; [|split; [|split]]].
  - unfold VideoToText.process_chunk, VideoToText.process_whole_chunk,
      VideoToText.transcribe_audio_chunk_with_whisper, VideoToText.extract_screenshot.
    msimpl. rewrite Hwhisper. simpl. rewrite Hts. simpl. rewrite Hgrab. simpl.
    by destruct (negb _ || _).
  - unfold VideoToText.process_chunk, VideoToText.process_whole_chunk,
      VideoToText.transcribe_audio_chunk_with_whisper, VideoToText.extract_screenshot.
    msimpl. rewrite Hwhisper. simpl. rewrite Hts. simpl. rewrite Hgrab. simpl.
    by destruct (negb _ || _).
  - unfold VideoToText.process_chunk, VideoToText.process_whole_chunk,
      VideoToText.transcribe_audio_chunk_with_whisper, VideoToText.extract_screenshot.
    msimpl. rewrite Hwhisper. simpl. rewrite Hts. simpl. rewrite Hgrab. simpl.
    destruct (negb _ || _); simpl; by rewrite <- app_assoc.
  - intros ->. apply improved_of_empty.
  - unfold Transcriber.process_chunk, Transcriber.notify,
      Transcriber.transcribe_audio_chunk_with_whisper.
    destruct progress_callback; msimpl; rewrite Hwhisper; simpl; done.
Qed.

(** ** Segments, labels and chunk files *)


Lemma label_of_a_day_count d r :
  0 <= r →
  lacks " " (datetime.str {| datetime.days := d; datetime.seconds := r |})
  = bool_decide (d = 0).
Proof.
  intros Hr. rewrite timedelta_str_head. unfold label_head.
  assert (0 <= r `mod` 60) by (apply Z.mod_pos_bound; lia).
  assert (0 <= (r `div` 60) `mod` 60) by (apply Z.mod_pos_bound; lia).
  assert (∀ n, pretty_N_char n ≠ " "%char) as Hdigit by apply digit_is_not_space.
  destruct (decide (d = 0)) as [->|Hd].
  - rewrite !lacks_app. simpl. rewrite !lacks_app. simpl.
    by rewrite !format_d_lacks, !pretty_lacks_space by done.
  - rewrite bool_decide_false by done. snorm.
    apply (lacks_not_found " " (pretty d)).
Qed.

(** X1. A label that [format_timestamp] returns (the same in both
    pipelines) is free of spaces exactly when the whole second is within
    the first day, from 0 to 86399, and then it is the rendering
    [H:MM:SS] of the whole second; from one day on, and for a negative
    offset, the label starts with a count of days. *)
Theorem label_is_hms_below_a_day (t : Q) (timestamp : string) :
  Utils.format_timestamp t = Ok timestamp →
  VideoToText.format_timestamp t = Ok timestamp
  ∧ (lacks " " timestamp = true ↔ 0 <= py_int t < 86400)
  ∧ (0 <= py_int t < 86400 → timestamp = hms_rendering (py_int t)).
Proof.
  intros Hts. split; [done|]. split.
  - revert Hts. unfold Utils.format_timestamp, datetime.of_seconds, divmod.
    destruct (decide _) as [|_]; [done|]. simpl. intros [= <-].
    rewrite label_of_a_day_count by by apply Z.mod_pos_bound.
    rewrite bool_decide_eq_true. rewrite Z.div_small_iff by done. lia.
  - intros Hday. revert Hts. unfold Utils.format_timestamp.
    rewrite timedelta_below_a_day by done. simpl.
    rewrite timedelta_str_below_a_day by done. congruence.
Qed.

(** X2. Two moments have the same label exactly when they fall in the
    same whole second, and exactly then they have the same screenshot
    file: labels and screenshot files correspond one to one. *)
Theorem one_label_one_file (screenshots_dir : string) (t t' : Q)
    (timestamp timestamp' : string) :
  Utils.format_timestamp t = Ok timestamp →
  Utils.format_timestamp t' = Ok timestamp' →
  (timestamp = timestamp' ↔ py_int t = py_int t')
  ∧ (screenshot_file screenshots_dir t = screenshot_file screenshots_dir t'
     ↔ py_int t = py_int t')
  ∧ VideoToText.format_timestamp t = Ok timestamp.
Proof.
  intros Ht Ht'. split; [|split; [|done]].
  - split.
    + intros <-. by eapply format_timestamp_inj.
    + intros Heq. unfold Utils.format_timestamp in Ht, Ht'.
      rewrite Heq in Ht. congruence.
  - split; [apply screenshot_file_inj|].
    intros Heq. unfold screenshot_file. by rewrite Heq.
Qed.

Lemma one_label_one_file_witness :
  (Utils.format_timestamp (127 # 2) = Ok "0:01:03"
   ∧ Utils.format_timestamp (63 # 1) = Ok "0:01:03")
  ∧ (("0:01:03" = "0:01:03" ↔ py_int (127 # 2) = py_int (63 # 1))
     ∧ (screenshot_file "shots" (127 # 2) = screenshot_file "shots" (63 # 1)
        ↔ py_int (127 # 2) = py_int (63 # 1))
     ∧ VideoToText.format_timestamp (127 # 2) = Ok "0:01:03").
Proof.
  assert (Utils.format_timestamp (127 # 2) = Ok "0:01:03"
          ∧ Utils.format_timestamp (63 # 1) = Ok "0:01:03") as Hyp.
  { split; by vm_compute. }
  split; [exact Hyp|]. destruct Hyp as [Ht Ht'].
  exact (one_label_one_file "shots" (127 # 2) (63 # 1) "0:01:03" "0:01:03" Ht Ht').
Defined.

(** X3. The chunk files that [split_audio_into_chunks] returns are
    pairwise distinct, the chunk number [i] is [chunk_00i.wav] in the
    chunk directory, and there are as many chunk files as start times,
    so that pairing them loses nothing. *)
Theorem chunk_files_are_distinct (w : World) (audio_path chunk_dir : string)
    (chunk_duration : Z) (chunk_files : list string) (timestamps : list Z)
    (num_chunks : Z) :
  Utils.split_audio_into_chunks w audio_path chunk_dir chunk_duration
  = Ok (chunk_files, timestamps, num_chunks) →
  NoDup chunk_files
  ∧ length chunk_files = length timestamps
  ∧ (∀ i chunk, chunk_files !! i = Some chunk →
       chunk = path_join chunk_dir
                 ("chunk_" +:+ format_d 3 (Z.of_nat i) +:+ ".wav"))
  ∧ VideoToText.split_audio_into_chunks w audio_path chunk_dir chunk_duration
    = Ok (chunk_files, timestamps).
Proof.
  unfold Utils.split_audio_into_chunks, VideoToText.split_audio_into_chunks.
  destruct (negb (wav_exists w)); [done|].
  destruct (probe_run w) as [L|e]; simpl; [|done].
  destruct (decide (chunk_duration = 0)); [done|].
  pose proof (carve_chunks_spec w chunk_dir chunk_duration
                (seq 0 (Z.to_nat (py_int (L / inject_Z chunk_duration) + 1))) [] [])
    as Hloop.
  change (VideoToText.carve_chunks w) with (Utils.carve_chunks w).
  destruct (Utils.carve_chunks _ _ _ _ _ _) as [[files ts]|e]; simpl; [|done].
  destruct Hloop as [-> ->]. intros [= <- <- <-]. simpl.
  split; [|split; [|split; [|done]]].
  - apply NoDup_fmap_2; [apply chunk_path_inj|apply NoDup_seq].
  - by rewrite !length_fmap.
  - intros i chunk Hi. rewrite list_lookup_fmap in Hi.
    destruct (seq _ _ !! i) as [k|] eqn:Hk; [|done].
    apply lookup_seq in Hk as [-> _]. simpl in Hi. by injection Hi as <-.
Qed.

(** ** The job files *)

Lemma prefix_app (a b : string) : String.prefix a (a +:+ b) = true.
Proof.
  induction a as [|c a IH]; ssimpl; simpl; [by destruct b|].
  by destruct (ascii_dec c c).
Qed.

Lemma endswith_app (a suffix : string) : endswith (a +:+ suffix) suffix = true.
Proof. unfold endswith. rewrite rev_app. apply prefix_app. Qed.

Lemma replace_from_cons (old new : string) (c : ascii) (s : string) :
  old ≠ EmptyString →
  replace_from old new 0 (String c s)
  = if String.prefix old (String c s)
    then new +:+ replace_from old new (String.length old - 1) s
    else String c (replace_from old new 0 s).
Proof. intros Hold. cbn [replace_from]. by rewrite decide_False. Qed.

Lemma prefix_cons_ne (c d : ascii) (a b : string) :
  c ≠ d → String.prefix (String d a) (String c b) = false.
Proof. intros Hc. simpl. by destruct (ascii_dec d c) as [->|]. Qed.

Lemma replace_json_name (job_id : string) :
  lacks "." job_id = true →
  replace (job_id +:+ ".json") ".json" EmptyString = job_id.
Proof.
  unfold replace. induction job_id as [|c s IH]; [done|]. simpl lacks.
  rewrite andb_true_iff, negb_true_iff, bool_decide_eq_false. intros [Hc Hs].
  rewrite string_app_cons, replace_from_cons by done.
  rewrite prefix_cons_ne by done. f_equal. by apply IH.
Qed.

Lemma ltb_false_leb (a b : string) :
  String.ltb a b = false → String.leb b a = true.
Proof.
  unfold String.ltb, String.leb. rewrite (String.compare_antisym a b).
  by destruct (String.compare b a).
Qed.

Lemma ltb_leb (a b : string) : String.ltb a b = true → String.leb a b = true.
Proof. unfold String.ltb, String.leb. by destruct (String.compare a b). Qed.

Lemma leb_trans (a b c : string) :
  String.leb a b = true → String.leb b c = true → String.leb a c = true.
Proof.
  intros Hab Hbc.
  assert (String.le a c) as Hac.
  { transitivity b; unfold String.le; by apply Is_true_true. }
  unfold String.le in Hac. by apply Is_true_true in Hac.
Qed.

Lemma insert_newest_first_perm x l :
  JobFiles.insert_newest_first x l ≡ₚ x :: l.
Proof.
  induction l as [|y l IH]; simpl; [done|].
  destruct (String.ltb _ _); [|done].
  by rewrite IH, Permutation_swap.
Qed.

Lemma sorted_newest_first_perm l : JobFiles.sorted_newest_first l ≡ₚ l.
Proof.
  induction l as [|x l IH]; simpl; [done|].
  by rewrite insert_newest_first_perm, IH.
Qed.

Lemma insert_newest_first_sorted x l :
  Sorted not_older l →
  Sorted not_older (JobFiles.insert_newest_first x l).
Proof.
  induction l as [|y l IH]; simpl; intros Hl.
  - by repeat constructor.
  - destruct (String.ltb _ _) eqn:Hxy.
    + apply Sorted_inv in Hl as [Hl Hy]. constructor; [by apply IH|].
      destruct l as [|z l]; simpl.
      * constructor. by apply ltb_leb.
      * destruct (String.ltb _ (JobFiles.sum_created_at z)); constructor.
        -- by apply HdRel_inv in Hy.
        -- by apply ltb_leb.
    + constructor; [done|]. constructor. by apply ltb_false_leb.
Qed.

Lemma sorted_newest_first_sorted l :
  Sorted not_older (JobFiles.sorted_newest_first l).
Proof.
  induction l as [|x l IH]; simpl; [constructor|].
  by apply insert_newest_first_sorted.
Qed.

Lemma insert_newest_first_stable (k : string) x l :
  Sorted not_older l →
  filter (λ s, JobFiles.sum_created_at s = k) (JobFiles.insert_newest_first x l)
  = filter (λ s, JobFiles.sum_created_at s = k) (x :: l).
Proof.
  induction l as [|y l IH]; simpl; intros Hl; [done|].
  destruct (String.ltb _ _) eqn:Hxy; [|done].
  apply Sorted_inv in Hl as [Hl Hy].
  rewrite !filter_cons. rewrite IH by done. rewrite !filter_cons.
  destruct (decide (JobFiles.sum_created_at y = k)) as [Hyk|]; [|done].
  destruct (decide (JobFiles.sum_created_at x = k)) as [Hxk|]; [|done].
  rewrite Hyk, Hxk in Hxy. unfold String.ltb in Hxy.
  assert (String.compare k k = Eq) as Hkk.
  { pose proof (String.compare_antisym k k) as H. by destruct (String.compare k k). }
  by rewrite Hkk in Hxy.
Qed.

Lemma sorted_newest_first_stable (k : string) l :
  filter (λ s, JobFiles.sum_created_at s = k) (JobFiles.sorted_newest_first l)
  = filter (λ s, JobFiles.sum_created_at s = k) l.
Proof.
  induction l as [|x l IH]; simpl; [done|].
  rewrite insert_newest_first_stable by apply sorted_newest_first_sorted.
  by rewrite !filter_cons, IH.
Qed.

(** X16. [list_jobs] returns the summaries of the job files that can be
    loaded, each once, newest first by [created_at] (every summary is not
    older than those after it), and summaries with the same
    [created_at] keep the order of the directory listing. *)
Theorem list_jobs_newest_first
    (listdir : gmap string JobFiles.content → list string) (d : JobFiles.fs) :
  let found := omap (JobFiles.listed d) (listdir (JobFiles.jobs d)) in
  let listing := JobFiles.list_jobs listdir d in
  listing ≡ₚ found
  ∧ StronglySorted not_older listing
  ∧ ∀ created_at,
      filter (λ s, JobFiles.sum_created_at s = created_at) listing
      = filter (λ s, JobFiles.sum_created_at s = created_at) found.
Proof.
  intros found listing. split; [apply sorted_newest_first_perm|]. split.
  - apply Sorted_StronglySorted; [|apply sorted_newest_first_sorted].
    intros a b c Hab Hbc. by eapply leb_trans.
  - intros k. apply sorted_newest_first_stable.
Qed.

Lemma listed_job_id d file s :
  JobFiles.listed d file = Some s →
  endswith file ".json" = true
  ∧ JobFiles.sum_job_id s = replace file ".json" EmptyString
  ∧ ∃ data, JobFiles.load_job_status (JobFiles.sum_job_id s) d = Some data
            ∧ JobFiles.is_empty data = false.
Proof.
  unfold JobFiles.listed. destruct (endswith file ".json"); [|done].
  destruct (JobFiles.load_job_status _ d) as [data|] eqn:Hload; [|done].
  destruct (JobFiles.is_empty data) eqn:Hempty; [done|].
  intros [= <-]. simpl. rewrite Hload. eauto.
Qed.

Lemma listed_json_name d job_id :
  lacks "." job_id = true →
  JobFiles.listed d (job_id +:+ ".json")
  = data ← JobFiles.load_job_status job_id d;
    if JobFiles.is_empty data then None
    else Some {| JobFiles.sum_job_id := job_id;
                 JobFiles.sum_filename :=
                   default "Unknown" (filename (JobFiles.fields data));
                 JobFiles.sum_status :=
                   default "Unknown" (status (JobFiles.fields data));
                 JobFiles.sum_created_at :=
                   default "Unknown" (JobFiles.created_at data);
                 JobFiles.sum_completed_at :=
                   default EmptyString (JobFiles.completed_at data) |}.
Proof.
  intros Hid. unfold JobFiles.listed.
  rewrite endswith_app, replace_json_name by done.
  by destruct (JobFiles.load_job_status job_id d).
Qed.

Lemma list_jobs_elem listdir d s :
  s ∈ JobFiles.list_jobs listdir d
  ↔ ∃ file, file ∈ listdir (JobFiles.jobs d) ∧ JobFiles.listed d file = Some s.
Proof.
  unfold JobFiles.list_jobs. rewrite sorted_newest_first_perm.
  apply list_elem_of_omap.
Qed.

Lemma json_name_inj (a b : string) : a +:+ ".json" = b +:+ ".json" → a = b.
Proof. apply string_app_inj_r. Qed.


Lemma delete_all_jobs (l : list JobFiles.JobSummary) (d : JobFiles.fs) :
  let d' := foldl (λ d job, (JobFiles.delete_job (JobFiles.sum_job_id job) d).1) d l in
  (∀ file c, JobFiles.jobs d' !! file = Some c → JobFiles.jobs d !! file = Some c)
  ∧ (∀ s, s ∈ l → JobFiles.load_job_status (JobFiles.sum_job_id s) d' = None).
Proof.
  revert d. induction l as [|x l IH]; intros d; simpl.
  - split; [done|]. intros s Hs. by apply elem_of_nil in Hs.
  - destruct (IH (JobFiles.delete_job (JobFiles.sum_job_id x) d).1) as [Hsub Hgone].
    split.
    + intros file c Hfile. apply Hsub in Hfile. simpl in Hfile.
      by apply lookup_delete_Some in Hfile as [_ ?].
    + intros s [->|Hs]%elem_of_cons; [|by apply Hgone].
      unfold JobFiles.load_job_status.
      destruct (JobFiles.jobs _ !! _) as [c|] eqn:Hfile; [|done].
      apply Hsub in Hfile. simpl in Hfile. by rewrite lookup_delete_eq in Hfile.
Qed.


(** X19. A record saved under a job identifier without a dot is loaded
    back as it was saved and, when it holds some key, is in the job list
    under that identifier with its file name, status and dates; the
    other jobs load as before. *)
Theorem saved_job_is_listed
    (listdir : gmap string JobFiles.content → list string)
    (job_id : string) (status_data : JobFiles.JobData) (d : JobFiles.fs) :
  lists_names listdir →
  lacks "." job_id = true →
  JobFiles.is_empty status_data = false →
  let d' := JobFiles.save_job_status JobFiles.Written job_id status_data d in
  JobFiles.load_job_status job_id d' = Some status_data
  ∧ {| JobFiles.sum_job_id := job_id;
       JobFiles.sum_filename :=
         default "Unknown" (filename (JobFiles.fields status_data));
       JobFiles.sum_status :=
         default "Unknown" (status (JobFiles.fields status_data));
       JobFiles.sum_created_at :=
         default "Unknown" (JobFiles.created_at status_data);
       JobFiles.sum_completed_at :=
         default EmptyString (JobFiles.completed_at status_data) |}
    ∈ JobFiles.list_jobs listdir d'
  ∧ (∀ other, other ≠ job_id →
       JobFiles.load_job_status other d' = JobFiles.load_job_status other d).
Proof.
  intros Hlistdir Hid Hdata d'.
  assert (JobFiles.load_job_status job_id d' = Some status_data) as Hload.
  { unfold JobFiles.load_job_status. simpl. by rewrite lookup_insert_eq. }
  split; [done|]. split.
  - apply list_jobs_elem. exists (job_id +:+ ".json"). split.
    + apply Hlistdir. simpl. rewrite lookup_insert_eq. by eexists.
    + rewrite listed_json_name by done. rewrite Hload. simpl. by rewrite Hdata.
  - intros other Hother. unfold JobFiles.load_job_status. simpl.
    rewrite lookup_insert_ne; [done|]. intros Heq. by apply json_name_inj in Heq.
Qed.

(** X20. A save that is interrupted leaves a job that loads as the
    error record [Invalid job file format] and is listed with the status
    [Error] and the file name and creation date [Unknown]; a save that
    cannot open the file changes nothing. *)
Theorem unreadable_job_is_listed_as_error
    (listdir : gmap string JobFiles.content → list string) (job_id : string)
    (status_data : JobFiles.JobData) (d : JobFiles.fs) :
  lists_names listdir →
  lacks "." job_id = true →
  let d' := JobFiles.save_job_status JobFiles.Interrupted job_id status_data d in
  JobFiles.load_job_status job_id d'
  = Some (JobFiles.error_data "Invalid job file format")
  ∧ {| JobFiles.sum_job_id := job_id;
       JobFiles.sum_filename := "Unknown";
       JobFiles.sum_status := "Error";
       JobFiles.sum_created_at := "Unknown";
       JobFiles.sum_completed_at := EmptyString |}
    ∈ JobFiles.list_jobs listdir d'
  ∧ JobFiles.save_job_status JobFiles.NotOpened job_id status_data d = d.
Proof.
  intros Hlistdir Hid d'.
  assert (JobFiles.load_job_status job_id d'
          = Some (JobFiles.error_data "Invalid job file format")) as Hload.
  { unfold JobFiles.load_job_status. simpl. by rewrite lookup_insert_eq. }
  split; [done|]. split; [|done].
  apply list_jobs_elem. exists (job_id +:+ ".json"). split.
  - apply Hlistdir. simpl. rewrite lookup_insert_eq. by eexists.
  - rewrite listed_json_name by done. by rewrite Hload.
Qed.

(** ** The pages of the PDF *)

Lemma lacks_rev c s : lacks c (String.rev s) = lacks c s.
Proof.
  induction s as [|x s IH]; [done|].
  rewrite rev_cons, lacks_app, IH. simpl. rewrite andb_true_r. apply andb_comm.
Qed.

Lemma lacks_lstrip c s : lacks c s = true → lacks c (lstrip s) = true.
Proof.
  induction s as [|x s IH]; [done|]. simpl.
  destruct (is_space x); [|done]. rewrite andb_true_iff. intros [_ ?]. auto.
Qed.

Lemma lacks_strip c s : lacks c s = true → lacks c (strip s) = true.
Proof.
  intros Hs. unfold strip, rstrip.
  rewrite lacks_rev. apply lacks_lstrip. rewrite lacks_rev. by apply lacks_lstrip.
Qed.

Lemma prefix_cons_eq (c : ascii) (a b : string) :
  String.prefix (String c a) (String c b) = String.prefix a b.
Proof. simpl. by destruct (ascii_dec c c). Qed.

(** The replacement of a character by another leaves none of the
    first, and keeps the length. *)
Lemma replace_char (a b : ascii) (s : string) :
  a ≠ b →
  lacks a (replace s (String a EmptyString) (String b EmptyString)) = true
  ∧ String.length (replace s (String a EmptyString) (String b EmptyString))
    = String.length s.
Proof.
  intros Hab. unfold replace. induction s as [|c s [IH1 IH2]]; [done|].
  rewrite replace_from_cons by done.
  destruct (decide (c = a)) as [->|Hc].
  - rewrite prefix_cons_eq.
    assert (String.prefix EmptyString s = true) as -> by by destruct s.
    change (String.length (String a EmptyString) - 1)%nat with 0%nat.
    rewrite string_app_cons, string_app_nil_l. simpl.
    rewrite IH1, IH2, bool_decide_false by congruence. done.
  - rewrite prefix_cons_ne by done. simpl.
    rewrite IH1, IH2, bool_decide_false by done. done.
Qed.

Lemma replace_absent (a b : ascii) (s : string) :
  lacks a s = true →
  replace s (String a EmptyString) (String b EmptyString) = s.
Proof.
  unfold replace. induction s as [|c s IH]; [done|]. simpl lacks.
  rewrite andb_true_iff, negb_true_iff, bool_decide_eq_false. intros [Hc Hs].
  rewrite replace_from_cons by done. rewrite prefix_cons_ne by done.
  f_equal. by apply IH.
Qed.

Lemma replace_line_feeds s : lacks LF (replace s nl " ") = true.
Proof. by apply (replace_char LF " " s). Qed.

Lemma half_succ (n : nat) :
  (S n / 2)%nat = if bool_decide ((Z.of_nat n + 1) `mod` 2 = 0)
                  then S (n / 2) else (n / 2)%nat.
Proof.
  apply Nat2Z.inj. destruct (bool_decide _) eqn:Hn.
  - apply bool_decide_eq_true in Hn.
    rewrite Nat2Z.inj_succ, !Nat2Z.inj_div, Nat2Z.inj_succ.
    change (Z.of_nat 2) with 2. Z.div_mod_to_equations. lia.
  - apply bool_decide_eq_false in Hn.
    rewrite !Nat2Z.inj_div, Nat2Z.inj_succ.
    change (Z.of_nat 2) with 2. Z.div_mod_to_equations. lia.
Qed.

Section pdf.
Variable r : PdfPages.Renderer.
Variable screenshot_paths : gmap string string.

Lemma entry_pages (i : nat) (e : string * string) :
  PdfPages.pages_started (PdfPages.entry_calls r screenshot_paths i e)
  = if bool_decide ((Z.of_nat i + 1) `mod` 2 = 0)
       || negb (Qle_bool (PdfPages.get_y r i) 250)
    then 1%nat else 0%nat.
Proof.
  destruct e as [ts text]. unfold PdfPages.pages_started, PdfPages.entry_calls.
  rewrite !filter_app, !length_app.
  assert (∀ l : list PdfPages.pdf_call,
            Forall (λ c, PdfPages.is_add_page c = false) l →
            length (filter (λ c, PdfPages.is_add_page c = true) l) = 0%nat) as Hnone.
  { intros l Hl. induction Hl as [|c l Hc _ IH]; [done|].
    rewrite filter_cons_False; [done|congruence]. }
  rewrite (Hnone [_; _]) by (by repeat constructor).
  rewrite (Hnone [_; _; _]) by (by repeat constructor).
  rewrite (Hnone (match screenshot_paths !! ts with Some _ => _ | None => _ end)).
  - by destruct (_ || _).
  - destruct (screenshot_paths !! ts) as [p|]; [|constructor].
    destruct (_ && _); [|constructor].
    destruct (PdfPages.image_run r p); by repeat constructor.
Qed.

Lemma entries_pages (start : nat) (l : list (string * string)) :
  let calls :=
    concat (imap (λ i, PdfPages.entry_calls r screenshot_paths (start + i)) l) in
  ((start + length l) / 2 - start / 2 <= PdfPages.pages_started calls)%nat
  ∧ (PdfPages.pages_started calls <= length l)%nat.
Proof.
  revert start. induction l as [|e l IH]; intros start; cbn -[Nat.div].
  - rewrite Nat.add_0_r. unfold PdfPages.pages_started. cbn -[Nat.div]. lia.
  - unfold PdfPages.pages_started in *.
    rewrite filter_app, length_app.
    fold (PdfPages.pages_started
            (PdfPages.entry_calls r screenshot_paths (start + 0) e)).
    rewrite entry_pages, Nat.add_0_r.
    specialize (IH (S start)). cbv zeta in IH.
    rewrite (imap_ext _ (λ i, PdfPages.entry_calls r screenshot_paths (S start + i)))
      by (intros; cbn; f_equal; lia).
    replace (start + S (length l))%nat with (S start + length l)%nat by lia.
    rewrite (half_succ start) in IH.
    destruct (bool_decide ((Z.of_nat start + 1) `mod` 2 = 0));
      cbn -[Nat.div] in IH |- *.
    + lia.
    + destruct (negb _); lia.
Qed.

End pdf.

Lemma elem_of_concat {A} (x : A) (ls : list (list A)) :
  x ∈ concat ls ↔ ∃ l, l ∈ ls ∧ x ∈ l.
Proof.
  induction ls as [|l ls IH]; simpl.
  - split; [by intros ?%elem_of_nil|]. by intros (l & ?%elem_of_nil & _).
  - rewrite elem_of_app, IH. split.
    + intros [Hx|(l' & Hl' & Hx)].
      * exists l. split; [by left|done].
      * exists l'. split; [by right|done].
    + intros (l' & [->|Hl']%elem_of_cons & Hx); [by left|].
      right. by exists l'.
Qed.

Lemma entry_calls_elem r shots (transcripts : list (string * string)) c :
  c ∈ concat (imap (PdfPages.entry_calls r shots) transcripts)
  ↔ ∃ i timestamp transcript,
      transcripts !! i = Some (timestamp, transcript)
      ∧ c ∈ PdfPages.entry_calls r shots i (timestamp, transcript).
Proof.
  rewrite elem_of_concat. split.
  - intros (l & Hl & Hc). apply elem_of_lookup_imap in Hl as (i & [ts text] & -> & Hi).
    by exists i, ts, text.
  - intros (i & ts & text & Hi & Hc). eexists. split; [|done].
    by apply elem_of_lookup_imap_2.
Qed.

Lemma pages_started_app (a b : list PdfPages.pdf_call) :
  PdfPages.pages_started (a ++ b)
  = (PdfPages.pages_started a + PdfPages.pages_started b)%nat.
Proof. unfold PdfPages.pages_started. by rewrite filter_app, length_app. Qed.

(** X21. [create_pdf_with_screenshots] calls [pdf.add_page] once at the
    beginning, once after every second entry and at most once per entry:
    for [n] entries it calls it between [1 + n/2] and [1 + n] times (the
    page breaks that [FPDF] makes by itself aside); and for an even
    number of entries, at least two, its last call before the PDF is
    saved starts a page, on which nothing is drawn. *)
Theorem pdf_page_breaks (r : PdfPages.Renderer) (screenshot_paths : gmap string string)
    (transcripts : list (string * string)) (output_pdf_path : string) :
  let calls :=
    (PdfPages.create_pdf_with_screenshots r screenshot_paths transcripts
       output_pdf_path).1 in
  let n := length transcripts in
  (1 + n / 2 <= PdfPages.pages_started calls)%nat
  ∧ (PdfPages.pages_started calls <= 1 + n)%nat
  ∧ ((0 < n)%nat → Z.of_nat n `mod` 2 = 0 →
     ∃ before,
       calls = before ++ [PdfPages.add_page]
               ++ (if PdfPages.makedirs_ok r
                   then [PdfPages.output output_pdf_path] else [])).
Proof.
  intros calls n. subst calls n. unfold PdfPages.create_pdf_with_screenshots.
  cbn [fst].
  assert ((length transcripts / 2
           <= PdfPages.pages_started
                (concat (imap (PdfPages.entry_calls r screenshot_paths) transcripts)))%nat
          ∧ (PdfPages.pages_started
               (concat (imap (PdfPages.entry_calls r screenshot_paths) transcripts))
             <= length transcripts)%nat) as [Hlow Hhigh].
  { pose proof (entries_pages r screenshot_paths 0 transcripts) as [Hlow Hhigh].
    split; [|exact Hhigh].
    etransitivity; [|exact Hlow]. cbn -[Nat.div].
    change (0 / 2)%nat with 0%nat. lia. }
  rewrite !pages_started_app.
  assert (PdfPages.pages_started
            (if PdfPages.makedirs_ok r
             then [PdfPages.output output_pdf_path] else []) = 0%nat) as ->
    by by destruct (PdfPages.makedirs_ok r).
  change (PdfPages.pages_started [_; _; _; _; _; _]) with 1%nat.
  split; [lia|]. split; [lia|].
  intros Hn Heven.
  destruct (exists_last (l := transcripts)) as (l & [ts text] & ->).
  { intros ->. simpl in Hn. lia. }
  rewrite imap_app, concat_app. cbn [imap concat].
  rewrite length_app in Heven. cbn [length] in Heven. rewrite Nat.add_0_r.
  unfold PdfPages.entry_calls at 2.
  rewrite bool_decide_true by (rewrite <- Heven; f_equal; lia).
  rewrite orb_true_l, app_nil_r.
  rewrite !app_assoc. rewrite <- (app_assoc _ [PdfPages.add_page]). by eexists.
Qed.

Lemma clean_transcript_clean text :
  lacks LF (PdfPages.clean_transcript text) = true
  ∧ strip (PdfPages.clean_transcript text) = PdfPages.clean_transcript text.
Proof.
  unfold PdfPages.clean_transcript. split.
  - apply lacks_strip, replace_line_feeds.
  - apply strip_idempotent.
Qed.



(** ** The name of an upload *)

(** X23. The name under which the submission page stores an upload
    starts with [video_], has no space, and has the length of the
    name of the upload plus six; a name without spaces is kept as it
    is. *)
Theorem stored_upload_name (name : string) :
  lacks " " (AppPages.safe_filename name) = true
  ∧ String.prefix "video_" (AppPages.safe_filename name) = true
  ∧ String.length (AppPages.safe_filename name) = (6 + String.length name)%nat
  ∧ (lacks " " name = true → AppPages.safe_filename name = "video_" +:+ name).
Proof.
  unfold AppPages.safe_filename.
  destruct (replace_char " " "_" name) as [Hlacks Hlen]; [done|].
  split; [rewrite lacks_app, Hlacks; reflexivity|]. split; [apply prefix_app|].
  split; [by rewrite string_app_length, Hlen|].
  intros Hname. by rewrite replace_absent.
Qed.

(** ** The further properties at sample inputs *)

(** X1 at a moment of the second 63. *)
Lemma label_is_hms_below_a_day_witness :
  Utils.format_timestamp (127 # 2) = Ok "0:01:03"
  ∧ (VideoToText.format_timestamp (127 # 2) = Ok "0:01:03"
     ∧ (lacks " " "0:01:03" = true ↔ 0 <= py_int (127 # 2) < 86400)
     ∧ (0 <= py_int (127 # 2) < 86400
        → "0:01:03" = hms_rendering (py_int (127 # 2)))).
Proof.
  assert (Utils.format_timestamp (127 # 2) = Ok "0:01:03") as Hyp by by vm_compute.
  split; [exact Hyp|].
  exact (label_is_hms_below_a_day (127 # 2) "0:01:03" Hyp).
Defined.

(** X3 at 125 seconds of audio in chunks of 60 seconds. *)
Lemma chunk_files_are_distinct_witness :
  let chunk_files :=
    ["chunks/chunk_000.wav"; "chunks/chunk_001.wav"; "chunks/chunk_002.wav"] in
  let timestamps := [0; 60; 120] in
  Utils.split_audio_into_chunks two_minutes "audio.wav" "chunks" 60
  = Ok (chunk_files, timestamps, 3)
  ∧ (NoDup chunk_files
     ∧ length chunk_files = length timestamps
     ∧ (∀ i chunk, chunk_files !! i = Some chunk →
          chunk = path_join "chunks"
                    ("chunk_" +:+ format_d 3 (Z.of_nat i) +:+ ".wav"))
     ∧ VideoToText.split_audio_into_chunks two_minutes "audio.wav" "chunks" 60
       = Ok (chunk_files, timestamps)).
Proof.
  intros chunk_files timestamps.
  assert (Utils.split_audio_into_chunks two_minutes "audio.wav" "chunks" 60
          = Ok (chunk_files, timestamps, 3)) as Hyp by by vm_compute.
  split; [exact Hyp|].
  exact (chunk_files_are_distinct two_minutes "audio.wav" "chunks" 60
           chunk_files timestamps 3 Hyp).
Defined.


(** X6 at the job of 125 seconds, for the label [0:01:03]. *)
Lemma persisted_screenshots_are_files_of_their_labels_witness :
  let run :=
    Transcriber.process_video two_minutes (S := unit) None "job1" "talk.mp4"
      "base" 60 30 (Transcriber.initial ()) in
  let tc := [("0:00:03", "Hello."); ("0:01:03", "Hello."); ("0:02:03", "Hello.")] in
  let shots : gmap string string :=
    {["0:00:03" := "/srv/app/output/job1/screenshot_000003.jpg";
      "0:01:03" := "/srv/app/output/job1/screenshot_000063.jpg";
      "0:02:03" := "/srv/app/output/job1/screenshot_000123.jpg"]} in
  (run = (run.1, Ok (tc, shots))
   ∧ shots !! "0:01:03" = Some "/srv/app/output/job1/screenshot_000063.jpg")
  ∧ ∃ t, Utils.format_timestamp t = Ok "0:01:03"
         ∧ "/srv/app/output/job1/screenshot_000063.jpg"
           = path_join (path_join (path_join (cwd two_minutes) "output") "job1")
               ("screenshot_" +:+ format_d 6 (py_int t) +:+ ".jpg")
         ∧ copy_run two_minutes
             (screenshot_file (path_join (temp_dir two_minutes) "screenshots") t)
           = None.
Proof.
  intros run tc shots.
  assert (run = (run.1, Ok (tc, shots))
          ∧ shots !! "0:01:03" = Some "/srv/app/output/job1/screenshot_000063.jpg")
    as Hyp.
  { split; by vm_compute. }
  split; [exact Hyp|]. destruct Hyp as [Hrun Hshot].
  exact (persisted_screenshots_are_files_of_their_labels two_minutes None "job1"
           "talk.mp4" "base" 60 30 () run.1 tc shots Hrun "0:01:03"
           "/srv/app/output/job1/screenshot_000063.jpg" Hshot).
Defined.

(** X11 at the job of 125 seconds. *)
Lemma completed_job_counts_witness :
  let d := App.create_new_job "job1" (Some "talk.mp4") empty_disk in
  let r :=
    {| filename := Some "talk.mp4"; status := Some "Completed";
       progress := Some 100%Q; error := None;
       txt_path := Some "output/job1/transcript.txt";
       pdf_path := Some "output/job1/transcript.pdf";
       num_screenshots := Some 3%nat; num_segments := Some 3%nat |} in
  (Utils.load_job_status "job1"
     (App.process_video_thread two_minutes "job1" "talk.mp4" "base" 60 30 d).1
   = Some r
   ∧ status r = Some "Completed")
  ∧ ∃ k m, num_screenshots r = Some k ∧ num_segments r = Some m ∧ (k <= m)%nat.
Proof.
  intros d r.
  assert (Utils.load_job_status "job1"
            (App.process_video_thread two_minutes "job1" "talk.mp4" "base" 60 30
               d).1 = Some r
          ∧ status r = Some "Completed") as Hyp.
  { split; by vm_compute. }
  split; [exact Hyp|]. destruct Hyp as [Hload Hstatus].
  exact (completed_job_counts two_minutes "job1" "talk.mp4" "base" 60 30 d r
           Hload Hstatus).
Defined.

(** X14 at a silent chunk that starts at 0. *)
Lemma chunk_without_segments_witness :
  let w := silent in
  let grab :=
    CallExtractScreenshot "talk.mp4" (screenshot_file "shots" (inject_Z 0)) "0:00:00" in
  let text := VideoToText.improved w true None None EmptyString in
  let cst' :=
    (VideoToText.process_chunk w sample_args true None None "shots" 0
       ("chunk_000.wav", 0) VideoToText.initial).1 in
  let st' :=
    (Transcriber.process_chunk w (S := unit) None "job1"
       (VideoToText.video_file sample_args) (VideoToText.whisper_model sample_args)
       (VideoToText.timestamp_interval sample_args) "shots" 1 70%Q 0
       ("chunk_000.wav", 0) (Transcriber.initial ())).1 in
  (whisper_run w 0 = Ok (EmptyString, [])
   ∧ VideoToText.format_timestamp (inject_Z 0) = Ok "0:00:00"
   ∧ grab_run (shot_run w 0 0) = None)
  ∧ (VideoToText.timestamped_chunks cst'
     = VideoToText.timestamped_chunks VideoToText.initial ++ [("0:00:00", text)]
     ∧ VideoToText.out_file cst'
       = VideoToText.out_file VideoToText.initial +:+ entry "0:00:00" text
     ∧ VideoToText.calls cst'
       = VideoToText.calls VideoToText.initial
         ++ [CallTranscribe "chunk_000.wav" (VideoToText.whisper_model sample_args);
             CallExtractScreenshot (VideoToText.video_file sample_args)
               (screenshot_file "shots" (inject_Z 0)) "0:00:00"]
     ∧ (EmptyString = EmptyString → text = EmptyString)
     ∧ Transcriber.timestamped_chunks st'
       = Transcriber.timestamped_chunks (Transcriber.initial ())
     ∧ Transcriber.calls st'
       = Transcriber.calls (Transcriber.initial ())
         ++ [CallTranscribe "chunk_000.wav" (VideoToText.whisper_model sample_args)]).
Proof.
  intros w grab text cst' st'.
  assert (whisper_run w 0 = Ok (EmptyString, [])
          ∧ VideoToText.format_timestamp (inject_Z 0) = Ok "0:00:00"
          ∧ grab_run (shot_run w 0 0) = None) as Hyp.
  { repeat split; by vm_compute. }
  split; [exact Hyp|]. destruct Hyp as (Hwhisper & Hts & Hgrab).
  exact (chunk_without_segments w sample_args true None None "shots" None "job1"
           1 70%Q 0 "chunk_000.wav" 0 EmptyString "0:00:00" VideoToText.initial
           (Transcriber.initial ()) Hwhisper Hts Hgrab).
Defined.

Lemma by_name_lists_names : lists_names by_name.
Proof.
  intros m file. unfold by_name. rewrite list_elem_of_fmap. split.
  - intros ([file' c] & -> & Hin). apply elem_of_map_to_list in Hin. by exists c.
  - intros [c Hc]. exists (file, c). split; [done|]. by apply elem_of_map_to_list.
Qed.


(** X19 at a first job. *)
Lemma saved_job_is_listed_witness :
  let d' := JobFiles.save_job_status JobFiles.Written "3f2a9c1e" created_job no_files in
  (lists_names by_name ∧ lacks "." "3f2a9c1e" = true
   ∧ JobFiles.is_empty created_job = false)
  ∧ (JobFiles.load_job_status "3f2a9c1e" d' = Some created_job
     ∧ {| JobFiles.sum_job_id := "3f2a9c1e";
          JobFiles.sum_filename :=
            default "Unknown" (filename (JobFiles.fields created_job));
          JobFiles.sum_status :=
            default "Unknown" (status (JobFiles.fields created_job));
          JobFiles.sum_created_at :=
            default "Unknown" (JobFiles.created_at created_job);
          JobFiles.sum_completed_at :=
            default EmptyString (JobFiles.completed_at created_job) |}
       ∈ JobFiles.list_jobs by_name d'
     ∧ (∀ other, other ≠ "3f2a9c1e" →
          JobFiles.load_job_status other d'
          = JobFiles.load_job_status other no_files)).
Proof.
  intros d'.
  assert (lists_names by_name ∧ lacks "." "3f2a9c1e" = true
          ∧ JobFiles.is_empty created_job = false) as Hyp.
  { split; [exact by_name_lists_names|]. split; reflexivity. }
  split; [exact Hyp|]. destruct Hyp as (Hlistdir & Hid & Hdata).
  exact (saved_job_is_listed by_name "3f2a9c1e" created_job no_files
           Hlistdir Hid Hdata).
Defined.

(** X20 at a first job. *)
Lemma unreadable_job_is_listed_as_error_witness :
  let d' :=
    JobFiles.save_job_status JobFiles.Interrupted "3f2a9c1e" created_job no_files in
  (lists_names by_name ∧ lacks "." "3f2a9c1e" = true)
  ∧ (JobFiles.load_job_status "3f2a9c1e" d'
     = Some (JobFiles.error_data "Invalid job file format")
     ∧ {| JobFiles.sum_job_id := "3f2a9c1e";
          JobFiles.sum_filename := "Unknown";
          JobFiles.sum_status := "Error";
          JobFiles.sum_created_at := "Unknown";
          JobFiles.sum_completed_at := EmptyString |}
       ∈ JobFiles.list_jobs by_name d'
     ∧ JobFiles.save_job_status JobFiles.NotOpened "3f2a9c1e" created_job no_files
       = no_files).
Proof.
  intros d'.
  assert (lists_names by_name ∧ lacks "." "3f2a9c1e" = true) as Hyp.
  { split; [exact by_name_lists_names|reflexivity]. }
  split; [exact Hyp|]. destruct Hyp as (Hlistdir & Hid).
  exact (unreadable_job_is_listed_as_error by_name "3f2a9c1e" created_job no_files
           Hlistdir Hid).
Defined.
